(** * xprezzo-bytes: byte counts and their human-readable form

    A shallow embedding of [src/index.js] and the properties of its three
    entry points [convert] (the module export), [format] and [parse].

    Modelling conventions.
    - A JavaScript number is an IEEE-754 binary64 value.  A finite one is
      kept as sign, mantissa and binary exponent ([Fin neg m e] is
      [(-1)^neg * m * 2^e]); every arithmetic operation computes the exact
      result and rounds it to the nearest binary64 value, ties to even.
    - A JavaScript string is a [string]; its characters stand for the code
      units 0..255.
    - An exception is an explicit [Throw] result.
    - The options object carries its fields at their documented types; an
      absent field (undefined) is [None].
    - The built-in functions the module calls ([toFixed], [parseInt],
      [parseFloat], [String.prototype.replace], [RegExp.prototype.exec],
      property lookup) follow the ECMAScript specification.

    The model comes first, then the vocabulary of the statements, the
    lemmas, the claims C1 to C10 in order and the further properties X1 to
    X15 of the three entry points. *)

From Stdlib Require Import ZArith NArith Bool List Ascii String Lia.
Import ListNotations.

Local Open Scope string_scope.
Local Open Scope Z_scope.

(** ** Numbers *)

Inductive number : Type :=
  | NaN
  | Inf (neg : bool)
  | Fin (neg : bool) (m : N) (e : Z).

(** The odd part of a mantissa and the number of binary zeros removed. *)
Fixpoint odd_part (p : positive) : positive * Z :=
  match p with
  | xO p' => let '(o, k) := odd_part p' in (o, k + 1)
  | _ => (p, 0)
  end.

(** The canonical form of [m * 2^e]: an odd mantissa, or zero with
    exponent zero. *)
Definition norm (neg : bool) (m e : Z) : number :=
  match m with
  | Zpos p => let '(o, k) := odd_part p in Fin neg (Npos o) (e + k)
  | _ => Fin neg 0 0
  end.

Definition of_Z (z : Z) : number := norm (z <? 0) (Z.abs z) 0.

(** Nearest integer to [num / den], ties to the even one. *)
Definition rne (num den : Z) : Z :=
  let a := num / den in
  match (2 * (num mod den)) ?= den with
  | Lt => a
  | Gt => a + 1
  | Eq => if Z.even a then a else a + 1
  end.

(** [pow2_le q d p] decides [q * 2^d <= p] for an exponent of any sign. *)
Definition pow2_le (q d p : Z) : bool :=
  if 0 <=? d then q * 2 ^ d <=? p else q <=? p * 2 ^ (- d).

(** [ilog2 p q] is the integer [l] with [2^l <= p / q < 2^(l+1)]. *)
Definition ilog2 (p q : Z) : Z :=
  let d := Z.log2 p - Z.log2 q in
  if pow2_le q d p then d else d - 1.

(** Rounding of the non-negative rational [p / q] to binary64: 53 bits of
    precision, least exponent -1074 (subnormal numbers included), overflow
    to infinity from [2^1024] on. *)
Definition round_Q (neg : bool) (p q : Z) : number :=
  if p =? 0 then Fin neg 0 0
  else
    let e := Z.max (ilog2 p q - 52) (-1074) in
    let m := if 0 <=? e then rne p (q * 2 ^ e) else rne (p * 2 ^ (- e)) q in
    if 2 ^ 1024 <=? m * 2 ^ Z.max 0 e then Inf neg else norm neg m e.

Definition Number_isFinite (x : number) : bool :=
  match x with Fin _ _ _ => true | _ => false end.

Definition isNaN (x : number) : bool :=
  match x with NaN => true | _ => false end.

Definition Math_abs (x : number) : number :=
  match x with
  | NaN => NaN
  | Inf _ => Inf false
  | Fin _ m e => Fin false m e
  end.

(** Comparison of [m1 * 2^e1] with [m2 * 2^e2]. *)
Definition dy_compare (m1 e1 m2 e2 : Z) : comparison :=
  let k := Z.min e1 e2 in
  (m1 * 2 ^ (e1 - k)) ?= (m2 * 2 ^ (e2 - k)).

Definition signed (neg : bool) (m : N) : Z :=
  if neg then - Z.of_N m else Z.of_N m.

(** The operator [>=]. *)
Definition num_ge (x y : number) : bool :=
  match x, y with
  | NaN, _ | _, NaN => false
  | Inf false, _ => true
  | _, Inf true => true
  | Inf true, _ => false
  | _, Inf false => false
  | Fin n1 m1 e1, Fin n2 m2 e2 =>
      match dy_compare (signed n1 m1) e1 (signed n2 m2) e2 with
      | Lt => false
      | _ => true
      end
  end.

(** The operator [/]. *)
Definition num_div (x y : number) : number :=
  match x, y with
  | NaN, _ | _, NaN => NaN
  | Inf _, Inf _ => NaN
  | Inf n1, Fin n2 _ _ => Inf (xorb n1 n2)
  | Fin n1 _ _, Inf n2 => Fin (xorb n1 n2) 0 0
  | Fin n1 m1 e1, Fin n2 m2 e2 =>
      if (m2 =? 0)%N then
        if (m1 =? 0)%N then NaN else Inf (xorb n1 n2)
      else
        round_Q (xorb n1 n2)
                (Z.of_N m1 * 2 ^ Z.max 0 (e1 - e2))
                (Z.of_N m2 * 2 ^ Z.max 0 (e2 - e1))
  end.

(** The operator [*]. *)
Definition num_mul (x y : number) : number :=
  match x, y with
  | NaN, _ | _, NaN => NaN
  | Inf n1, Inf n2 => Inf (xorb n1 n2)
  | Inf n1, Fin n2 m _ | Fin n2 m _, Inf n1 =>
      if (m =? 0)%N then NaN else Inf (xorb n1 n2)
  | Fin n1 m1 e1, Fin n2 m2 e2 =>
      round_Q (xorb n1 n2)
              (Z.of_N m1 * Z.of_N m2 * 2 ^ Z.max 0 (e1 + e2))
              (2 ^ Z.max 0 (- (e1 + e2)))
  end.

(** [Math.floor]: the greatest integer not above the argument; zeros,
    infinities and NaN are returned as they are. *)
Definition Math_floor (x : number) : number :=
  match x with
  | NaN => NaN
  | Inf s => Inf s
  | Fin neg m e =>
      if 0 <=? e then norm neg (Z.of_N m) e
      else
        let a := Z.of_N m / 2 ^ (- e) in
        let exact := Z.of_N m mod 2 ^ (- e) =? 0 in
        if neg && negb exact then norm true (a + 1) 0 else norm neg a 0
  end.

(** ** Strings *)

Definition code (c : ascii) : Z := Z.of_N (N_of_ascii c).
Definition char (z : Z) : ascii := ascii_of_N (Z.to_N z).

Definition is_digit (c : ascii) : bool := (48 <=? code c) && (code c <=? 57).
Definition is_upper (c : ascii) : bool := (65 <=? code c) && (code c <=? 90).
Definition is_lower (c : ascii) : bool := (97 <=? code c) && (code c <=? 122).

(** The class [\w]. *)
Definition is_word (c : ascii) : bool :=
  is_digit c || is_upper c || is_lower c || (code c =? 95).

(** White space and line terminators among the code units 0..255. *)
Definition is_space (c : ascii) : bool :=
  ((9 <=? code c) && (code c <=? 13)) || (code c =? 32) || (code c =? 160).

(** [String.prototype.toLowerCase] on one code unit: the letters A-Z and
    the upper-case letters of U+00C0..U+00DE (U+00D7 is the sign of
    multiplication). *)
Definition lower_char (c : ascii) : ascii :=
  let n := code c in
  if is_upper c then char (n + 32)
  else if (192 <=? n) && (n <=? 222) && negb (n =? 215) then char (n + 32)
  else c.

Fixpoint toLowerCase (s : string) : string :=
  match s with
  | "" => ""
  | String c r => String (lower_char c) (toLowerCase r)
  end.

Definition is_empty (s : string) : bool :=
  match s with "" => true | _ => false end.

(** [span f s] splits [s] after its longest prefix of characters in [f]. *)
Fixpoint span (f : ascii -> bool) (s : string) : string * string :=
  match s with
  | "" => ("", "")
  | String c r =>
      if f c then let '(a, b) := span f r in (String c a, b) else ("", s)
  end.

Fixpoint all_chars (f : ascii -> bool) (s : string) : bool :=
  match s with
  | "" => true
  | String c r => f c && all_chars f r
  end.

Fixpoint split_at (n : nat) (s : string) : string * string :=
  match n, s with
  | S k, String c r => let '(a, b) := split_at k r in (String c a, b)
  | _, _ => ("", s)
  end.

Fixpoint repeat_char (c : ascii) (n : nat) : string :=
  match n with
  | O => ""
  | S k => String c (repeat_char c k)
  end.

(** ** Decimal digits *)

Definition digit_char (d : Z) : ascii := char (48 + d).
Definition digit_val (c : ascii) : Z := code c - 48.

Fixpoint to_digits_aux (fuel : nat) (n : Z) (acc : string) : string :=
  match fuel with
  | O => acc
  | S k =>
      let acc' := String (digit_char (n mod 10)) acc in
      if n <? 10 then acc' else to_digits_aux k (n / 10) acc'
  end.

(** The decimal representation of a natural number, without leading zeros. *)
Definition to_digits (n : Z) : string :=
  to_digits_aux (S (Z.to_nat (Z.log2 n))) n "".

(** The value of a string of decimal digits, most significant first. *)
Fixpoint digits_val (acc : Z) (s : string) : Z :=
  match s with
  | "" => acc
  | String c r => digits_val (10 * acc + digit_val c) r
  end.

(** ** Results *)

(** The one exception that the built-in functions of the module raise on
    arguments of their documented types. *)
Inductive error : Type := RangeError.

Inductive result (A : Type) : Type :=
  | Return (a : A)
  | Throw (err : error).

Arguments Return {A} a.
Arguments Throw {A} err.

(** ** Number.prototype.toFixed *)

(** [ToIntegerOrInfinity] of a number: NaN is 0, a finite number is
    truncated toward zero, an infinity ([None]) stays infinite. *)
Definition ToIntegerOrInfinity (x : number) : option Z :=
  match x with
  | NaN => Some 0
  | Inf _ => None
  | Fin neg m e =>
      let a := if 0 <=? e then Z.of_N m * 2 ^ e else Z.of_N m / 2 ^ (- e) in
      Some (if neg then - a else a)
  end.

(** The integer nearest to [m * 2^e * 10^f]; of two nearest ones, the
    larger. *)
Definition half_up_scaled (m e f : Z) : Z :=
  if 0 <=? e then m * 2 ^ e * 10 ^ f
  else (2 * m * 10 ^ f + 2 ^ (- e)) / 2 ^ (1 - e).

(** [10^21 <= m * 2^e]. *)
Definition ge_1e21 (m e : Z) : bool :=
  if 0 <=? e then 10 ^ 21 <=? m * 2 ^ e else 10 ^ 21 * 2 ^ (- e) <=? m.

(** The largest [p <= fuel] for which [ok p] holds, else 0. *)
Fixpoint find_down (ok : Z -> bool) (fuel : nat) : Z :=
  match fuel with
  | O => 0
  | S k => if ok (Z.of_nat fuel) then Z.of_nat fuel else find_down ok k
  end.

(** [Number::toString] of the integer [X >= 10^21]: the shortest decimal
    numeral that reads back as the same binary64 value (the nearest one
    when several are as short), in exponent notation. *)
Definition to_string_large (X : Z) : string :=
  let E := Z.log2 X - 52 in
  let M := X / 2 ^ E in
  let lo := X - (if M =? 2 ^ 52 then 2 ^ (E - 2) else 2 ^ (E - 1)) in
  let hi := X + 2 ^ (E - 1) in
  let incl := Z.even M in
  let s_lo p :=
    let c := (lo + 10 ^ p - 1) / 10 ^ p in
    if incl then c else if c * 10 ^ p =? lo then c + 1 else c in
  let s_hi p :=
    let c := hi / 10 ^ p in
    if incl then c else if c * 10 ^ p =? hi then c - 1 else c in
  let p := find_down (fun p => s_lo p <=? s_hi p) (Z.to_nat (Z.log2 X)) in
  let s := Z.max (s_lo p) (Z.min (s_hi p) (rne X (10 ^ p))) in
  let ds := to_digits s in
  let n := Z.of_nat (length ds) + p in
  match ds with
  | "" => ""
  | String d "" => String d ("e+" ++ to_digits (n - 1))
  | String d r => String d ("." ++ r ++ "e+" ++ to_digits (n - 1))
  end.

(** [x.toFixed(fractionDigits)]. *)
Definition toFixed (x fractionDigits : number) : result string :=
  match ToIntegerOrInfinity fractionDigits with
  | None => Throw RangeError
  | Some f =>
      if (f <? 0) || (100 <? f) then Throw RangeError
      else
        match x with
        | NaN => Return "NaN"
        | Inf false => Return "Infinity"
        | Inf true => Return "-Infinity"
        | Fin neg m e =>
            let s := if neg && negb (m =? 0)%N then "-" else "" in
            if ge_1e21 (Z.of_N m) e then
              Return (s ++ to_string_large (Z.of_N m * 2 ^ e))
            else
              let ds := to_digits (half_up_scaled (Z.of_N m) e f) in
              if f =? 0 then Return (s ++ ds)
              else
                let k := length ds in
                let fn := Z.to_nat f in
                let ds' := repeat_char "0" (fn + 1 - k) ++ ds in
                let '(a, b) := split_at (length ds' - fn) ds' in
                Return (s ++ a ++ "." ++ b)
        end
  end.

(** ** parseInt and parseFloat *)

Definition ten_pow_ratio (d k : Z) : Z * Z :=
  if 0 <=? k then (d * 10 ^ k, 1) else (d, 10 ^ (- k)).

(** The optional sign at the head of a numeral ([-] is the code unit 45,
    [+] is 43). *)
Definition take_sign (s : string) : bool * string :=
  match s with
  | String c r =>
      if code c =? 45 then (true, r)
      else if code c =? 43 then (false, r)
      else (false, s)
  | "" => (false, s)
  end.

(** [parseInt(s, 10)]: leading white space, an optional sign and the
    longest run of decimal digits; NaN when there is no digit. *)
Definition parseInt10 (s : string) : number :=
  let '(neg, r) := take_sign (snd (span is_space s)) in
  let '(ds, _) := span is_digit r in
  if is_empty ds then NaN else round_Q neg (digits_val 0 ds) 1.

(** The exponent part [e], [e+] or [e-] followed by digits, if any. *)
Definition take_exponent (s : string) : Z :=
  match s with
  | String c r =>
      if (code c =? 101) || (code c =? 69) then
        let '(neg, r') := take_sign r in
        let '(ds, _) := span is_digit r' in
        if is_empty ds then 0
        else if neg then - digits_val 0 ds else digits_val 0 ds
      else 0
  | "" => 0
  end.

(** [parseFloat(s)]: leading white space, then the longest prefix that is
    a decimal literal: a sign, then [Infinity] or digits with an optional
    fraction (after the point, code unit 46) and exponent. *)
Definition parseFloat (s : string) : number :=
  let '(neg, r) := take_sign (snd (span is_space s)) in
  if prefix "Infinity" r then Inf neg
  else
    let '(ip, r1) := span is_digit r in
    let '(fp, r2) :=
      match r1 with
      | String c r1' => if code c =? 46 then span is_digit r1' else ("", r1)
      | "" => ("", r1)
      end in
    if is_empty ip && is_empty fp then NaN
    else
      let d := digits_val (digits_val 0 ip) fp in
      let k := take_exponent r2 - Z.of_nat (length fp) in
      let '(p, q) := ten_pow_ratio d k in
      round_Q neg p q.

(** ** The regular expressions of the module *)

(** [formatDecimalsRegExp = /(?:\.0*|(\.[^0]+)0+)$/] tried right after a
    point, on the text [rest] that follows it.  The first alternative
    wants only zeros up to the end and captures nothing; the second wants
    one or more characters other than [0], then one or more zeros up to
    the end, and captures the point with the characters other than [0].
    The result is the value of [$1] when the expression matches here. *)
Definition decimals_match (rest : string) : option string :=
  if all_chars (fun c => code c =? 48) rest then Some ""
  else
    let '(nz, zs) := span (fun c => negb (code c =? 48)) rest in
    if negb (is_empty nz) && negb (is_empty zs)
       && all_chars (fun c => code c =? 48) zs
    then Some (String "." nz)
    else None.

(** [str.replace(formatDecimalsRegExp, '$1')]: the leftmost match, which
    reaches the end of the string, is replaced by its capture. *)
Fixpoint replace_decimals (str : string) : string :=
  match str with
  | "" => ""
  | String c r =>
      if code c =? 46 then
        match decimals_match r with
        | Some t => t
        | None => String c (replace_decimals r)
        end
      else String c (replace_decimals r)
  end.

(** The assertion [\B] between the character [prev] and the text [s]. *)
Definition not_boundary (prev : option ascii) (s : string) : bool :=
  let w (o : option ascii) :=
    match o with Some c => is_word c | None => false end in
  let next := match s with String c _ => Some c | "" => None end in
  Bool.eqb (w prev) (w next).

(** The lookahead [(?=(\d{3})+(?!\d))] on the text [s]: the run of digits
    at the head of [s] is made of one or more groups of three; the capture
    is the last group. *)
Definition thousands_lookahead (s : string) : option string :=
  let '(ds, _) := span is_digit s in
  let d := length ds in
  if negb (is_empty ds) && (Nat.modulo d 3 =? 0)%nat
  then Some (snd (split_at (d - 3) ds))
  else None.

(** [GetSubstitution] for an empty match at the position that splits the
    string into [before] and [after], with one capture [cap]: [$$] is a
    dollar, [$&] the (empty) match, [$`] and [$'] the text before and
    after the match, [$1] and [$01] the capture; any other text stands
    for itself. *)
Fixpoint GetSubstitution (before after cap template : string) : string :=
  match template with
  | "" => ""
  | String "$" (String "$" r) => String "$" (GetSubstitution before after cap r)
  | String "$" (String "&" r) => GetSubstitution before after cap r
  | String "$" (String "`" r) => before ++ GetSubstitution before after cap r
  | String "$" (String "'" r) => after ++ GetSubstitution before after cap r
  | String "$" (String "0" (String "1" r)) =>
      cap ++ GetSubstitution before after cap r
  | String "$" (String "1" r) => cap ++ GetSubstitution before after cap r
  | String c r => String c (GetSubstitution before after cap r)
  end.

(** [str.replace(formatThousandsRegExp, template)] with
    [formatThousandsRegExp = /\B(?=(\d{3})+(?!\d))/g]: every position of
    the string where the expression matches (the match is empty) receives
    the substitution.  [before] is the text already passed, [prev] its last
    character. *)
Fixpoint replace_thousands_from (before : string) (prev : option ascii)
         (s template : string) : string :=
  let here :=
    if not_boundary prev s then
      match thousands_lookahead s with
      | Some cap => GetSubstitution before s cap template
      | None => ""
      end
    else "" in
  match s with
  | "" => here
  | String c r =>
      here ++ String c (replace_thousands_from (before ++ String c "")
                                               (Some c) r template)
  end.

Definition replace_thousands (str template : string) : string :=
  replace_thousands_from "" None str template.

(** A unit token of [parseRegExp]: [kb|mb|gb|tb|pb], any case.  Only the
    letters A-Z have these letters as their lower case. *)
Definition is_unit_token (s : string) : bool :=
  let l := toLowerCase s in
  (l =? "kb")%string || (l =? "mb")%string || (l =? "gb")%string
  || (l =? "tb")%string || (l =? "pb")%string.

(** The pieces of
    [parseRegExp = /^((-|\+)?(\d+(?:\.\d+)?)) *(kb|mb|gb|tb|pb)$/i].
    No piece can give back what it took to let a later one match, so the
    longest match of each is the only one to try. *)

(** [(-|\+)?]: the sign taken and the rest. *)
Definition match_sign (val : string) : string * string :=
  match val with
  | String c r =>
      if (code c =? 45) || (code c =? 43) then (String c "", r) else ("", val)
  | "" => ("", val)
  end.

(** [\d+(?:\.\d+)?]: the numeral taken and the rest. *)
Definition match_numeral (r0 : string) : option (string * string) :=
  let '(ip, r1) := span is_digit r0 in
  if is_empty ip then None
  else
    match r1 with
    | String c r1' =>
        if code c =? 46 then
          let '(fp, r2) := span is_digit r1' in
          if is_empty fp then Some (ip, r1) else Some (ip ++ String c fp, r2)
        else Some (ip, r1)
    | "" => Some (ip, r1)
    end.

(** [ *(kb|mb|gb|tb|pb)$]: the unit taken. *)
Definition match_unit (r2 : string) : option string :=
  let '(_, u) := span (fun c => code c =? 32) r2 in
  if is_unit_token u then Some u else None.

(** [parseRegExp.exec(val)]: the captures 1 (sign and numeral) and 4
    (unit) of a match. *)
Definition parseRegExp_exec (val : string) : option (string * string) :=
  let '(sign, r0) := match_sign val in
  match match_numeral r0 with
  | None => None
  | Some (numeral, r2) =>
      match match_unit r2 with
      | None => None
      | Some u => Some (sign ++ numeral, u)
      end
  end.

(** ** The module *)

(** A property of the table [map]: one of its own numbers, or a member
    inherited from [Object.prototype]. *)
Inductive map_entry : Type :=
  | Own (x : number)
  | Inherited.

(** [map[key]].  The table holds the six multipliers; being an object
    literal it also answers for the members of [Object.prototype], of
    which [constructor] and [__proto__] have a name in lower case.
    [None] is undefined. *)
Definition map (key : string) : option map_entry :=
  match key with
  | "b" => Some (Own (of_Z 1))
  | "kb" => Some (Own (of_Z (2 ^ 10)))
  | "mb" => Some (Own (of_Z (2 ^ 20)))
  | "gb" => Some (Own (of_Z (2 ^ 30)))
  | "tb" => Some (Own (of_Z (1024 ^ 4)))
  | "pb" => Some (Own (of_Z (1024 ^ 5)))
  | "constructor" | "__proto__" => Some Inherited
  | _ => None
  end.

(** The multipliers read as [map.kb], [map.mb], ... *)
Definition map_kb : number := of_Z (2 ^ 10).
Definition map_mb : number := of_Z (2 ^ 20).
Definition map_gb : number := of_Z (2 ^ 30).
Definition map_tb : number := of_Z (1024 ^ 4).
Definition map_pb : number := of_Z (1024 ^ 5).

(** The number an entry of the table stands for in arithmetic: an object
    or an undefined value converts to NaN. *)
Definition entry_number (e : option map_entry) : number :=
  match e with
  | Some (Own x) => x
  | _ => NaN
  end.

(** Truthiness of [map[key]]: every multiplier is non-zero, an inherited
    member is an object. *)
Definition entry_truthy (e : option map_entry) : bool :=
  match e with
  | Some _ => true
  | None => false
  end.

(** A JavaScript value as the module sees it: the module looks at the type
    of a value and at the content of a number or a string.  [JObject] is
    any value of another type (an object, an array, a function). *)
Inductive jsval : Type :=
  | JUndefined
  | JNull
  | JBool (b : bool)
  | JNum (x : number)
  | JStr (s : string)
  | JObject.

(** The options object, its fields at the types the module documents;
    [None] is a field that is undefined.  The argument [options] itself is
    an [option Options]: [None] is an absent (or null) argument. *)
Record Options : Type := mkOptions {
  opt_decimalPlaces : option number;
  opt_fixedDecimals : option bool;
  opt_thousandsSeparator : option string;
  opt_unitSeparator : option string;
  opt_unit : option string
}.

(** [(options && options.field) || ''] for a field that holds a string. *)
Definition string_option (options : option Options)
           (field : Options -> option string) : string :=
  match options with
  | Some o => match field o with Some s => s | None => "" end
  | None => ""
  end.

(** The unit chosen from the magnitude (lines 78 to 90). *)
Definition auto_unit (mag : number) : string :=
  if num_ge mag map_pb then "PB"
  else if num_ge mag map_tb then "TB"
  else if num_ge mag map_gb then "GB"
  else if num_ge mag map_mb then "MB"
  else if num_ge mag map_kb then "KB"
  else "B".

(** [(options && options.decimalPlaces !== undefined)
      ? options.decimalPlaces : 2] (line 74). *)
Definition decimalPlaces_of (options : option Options) : number :=
  match options with
  | Some o => match opt_decimalPlaces o with Some d => d | None => of_Z 2 end
  | None => of_Z 2
  end.

(** [Boolean(options && options.fixedDecimals)] (line 75). *)
Definition fixedDecimals_of (options : option Options) : bool :=
  match options with
  | Some o => match opt_fixedDecimals o with Some b => b | None => false end
  | None => false
  end.

(** The unit after lines 76 to 91: the one asked for when the table
    answers for its lower case, else the one chosen from the magnitude. *)
Definition resolve_unit (options : option Options) (mag : number) : string :=
  let unit := string_option options opt_unit in
  if is_empty unit || negb (entry_truthy (map (toLowerCase unit)))
  then auto_unit mag
  else unit.

(** [format(value, options)] (lines 67 to 101). *)
Definition format (value : jsval) (options : option Options) : result jsval :=
  match value with
  | JNum (Fin neg m e) =>
      let value := Fin neg m e in
      let mag := Math_abs value in
      let thousandsSeparator := string_option options opt_thousandsSeparator in
      let unitSeparator := string_option options opt_unitSeparator in
      let decimalPlaces := decimalPlaces_of options in
      let fixedDecimals := fixedDecimals_of options in
      let unit := resolve_unit options mag in
      let val := num_div value (entry_number (map (toLowerCase unit))) in
      match toFixed val decimalPlaces with
      | Throw err => Throw err
      | Return str =>
          let str := if fixedDecimals then str else replace_decimals str in
          let str :=
            if is_empty thousandsSeparator then str
            else replace_thousands str thousandsSeparator in
          Return (JStr (str ++ unitSeparator ++ unit))
      end
  | _ => Return JNull
  end.

(** [parse(val)] (lines 112 to 134). *)
Definition parse (val : jsval) : result jsval :=
  match val with
  | JNum x => if isNaN x then Return JNull else Return (JNum x)
  | JStr val =>
      let '(floatValue, unit) :=
        match parseRegExp_exec val with
        | None => (parseInt10 val, "b")
        | Some (r1, r4) => (parseFloat r1, toLowerCase r4)
        end in
      Return (JNum (Math_floor (num_mul (entry_number (map unit)) floatValue)))
  | _ => Return JNull
  end.

(** The module export (lines 38 to 48). *)
Definition convert (value : jsval) (options : option Options) : result jsval :=
  match value with
  | JStr _ => parse value
  | JNum _ => format value options
  | _ => Return JNull
  end.

(** ** Vocabulary of the statements *)

(** Options objects with one or two fields set. *)
Definition only_decimalPlaces (d : number) : option Options :=
  Some (mkOptions (Some d) None None None None).

Definition only_unit (u : string) : option Options :=
  Some (mkOptions None None None None (Some u)).

Definition places_and_separator (d : number) (sep : string) : option Options :=
  Some (mkOptions (Some d) None (Some sep) None None).

Definition is_finite_number (v : jsval) : bool :=
  match v with
  | JNum x => Number_isFinite x
  | _ => false
  end.

(** The number of fraction digits asked for is one that [toFixed] accepts:
    it truncates to an integer from 0 to 100. *)
Definition fraction_digits_ok (options : option Options) : bool :=
  match ToIntegerOrInfinity (decimalPlaces_of options) with
  | Some f => (0 <=? f) && (f <=? 100)
  | None => false
  end.


(** A binary64 value in canonical form: NaN, an infinity, a zero, or an odd
    mantissa below [2^53] with an exponent from -1074 on and a value below
    [2^1024]. *)
Definition is_double (x : number) : bool :=
  match x with
  | Fin _ m e =>
      ((m =? 0)%N && (e =? 0))
      || (N.odd m && (Z.of_N m <? 2 ^ 53) && (-1074 <=? e)
          && (Z.of_N m * 2 ^ Z.max 0 e <? 2 ^ 1024))
  | _ => true
  end.

(** A number with an integer value (or no finite value). *)
Definition is_integral (x : number) : bool :=
  match x with
  | Fin _ _ e => 0 <=? e
  | _ => true
  end.

(** The head of a text fails [f]: the text is empty or starts with a
    character outside [f]. *)
Definition head_fails (f : ascii -> bool) (s : string) : bool :=
  match s with
  | "" => true
  | String c _ => negb (f c)
  end.

(** The text of an optional sign; [Some true] is the minus sign. *)
Definition sign_text (sg : option bool) : string :=
  match sg with
  | Some true => "-"
  | Some false => "+"
  | None => ""
  end.

Definition is_negative (sg : option bool) : bool :=
  match sg with
  | Some true => true
  | _ => false
  end.

(** The optional fraction of a numeral: a point and its digits. *)
Definition fraction_text (fp : option string) : string :=
  match fp with
  | Some f => String "." f
  | None => ""
  end.

Definition fraction_digits (fp : option string) : string :=
  match fp with
  | Some f => f
  | None => ""
  end.

Definition is_digits (s : string) : bool :=
  negb (is_empty s) && all_chars is_digit s.

Definition is_fraction (fp : option string) : bool :=
  match fp with
  | Some f => is_digits f
  | None => true
  end.

(** The multiplier of a unit token: KB is [2^10], ..., PB is [2^50]. *)
Definition unit_exponent (u : string) : Z :=
  let l := toLowerCase u in
  if (l =? "kb")%string then 10
  else if (l =? "mb")%string then 20
  else if (l =? "gb")%string then 30
  else if (l =? "tb")%string then 40
  else 50.

Definition is_letter (c : ascii) : bool := is_upper c || is_lower c.

(** The text starts with a letter. *)
Definition head_is_letter (u : string) : bool :=
  match u with
  | String c _ => is_letter c
  | "" => false
  end.

(** The integer [floor (z * 2^e)]. *)
Definition floor_scaled (z e : Z) : Z :=
  if 0 <=? e then z * 2 ^ e else z / 2 ^ (- e).

(** The number with the integer value [F]; the zero takes the sign [neg]. *)
Definition number_of_floor (neg : bool) (F : Z) : number :=
  if F =? 0 then Fin neg 0 0 else of_Z F.

(** The exponent of the multiplier of the unit chosen from the magnitude. *)
Definition auto_exponent (mag : number) : Z :=
  if num_ge mag map_pb then 50
  else if num_ge mag map_tb then 40
  else if num_ge mag map_gb then 30
  else if num_ge mag map_mb then 20
  else if num_ge mag map_kb then 10
  else 0.

(** [N] is the integer nearest to [m * 2^e], the larger one of two. *)
Definition nearest_integer (N m e : Z) : Prop :=
  if 0 <=? e then N = m * 2 ^ e
  else 2 * m - 2 ^ (- e) < 2 * N * 2 ^ (- e) <= 2 * m + 2 ^ (- e).

(** The sign that [toFixed] writes. *)
Definition minus_text (neg : bool) (m : N) : string :=
  if neg && negb (m =? 0)%N then "-" else "".

Definition is_point (c : ascii) : bool := code c =? 46.

(** The exponent of the multiplier of the unit chosen for the magnitude
    [a], an integer: the largest of 2^50, ..., 2^10 that is at most [a],
    else 2^0. *)
Definition unit_exponent_of (a : Z) : Z :=
  if 2 ^ 50 <=? a then 50
  else if 2 ^ 40 <=? a then 40
  else if 2 ^ 30 <=? a then 30
  else if 2 ^ 20 <=? a then 20
  else if 2 ^ 10 <=? a then 10
  else 0.

(** [parse(format(n)) = n] with the default options. *)
Definition round_trip (n : Z) : Prop :=
  exists s, format (JNum (of_Z n)) None = Return (JStr s)
            /\ parse (JStr s) = Return (JNum (of_Z n)).

(** The name of the unit with the multiplier [2^k]. *)
Definition unit_name (k : Z) : string :=
  if k =? 50 then "PB" else if k =? 40 then "TB" else if k =? 30 then "GB"
  else if k =? 20 then "MB" else if k =? 10 then "KB" else "B".

(** The options [o] with the field [unit] set to [u]. *)
Definition with_unit (o : Options) (u : string) : option Options :=
  Some (mkOptions (opt_decimalPlaces o) (opt_fixedDecimals o)
                  (opt_thousandsSeparator o) (opt_unitSeparator o) (Some u)).

(** The text is empty or ends with a character other than [0]. *)
Fixpoint ends_nonzero (s : string) : bool :=
  match s with
  | "" => true
  | String c "" => negb (code c =? 48)
  | String _ r => ends_nonzero r
  end.

(** The digits [s] in groups of three counted from the right, with [sep]
    between the groups. *)
Fixpoint group3 (sep s : string) : string :=
  match s with
  | "" => ""
  | String c r =>
      String c ((if negb (is_empty r) && (Nat.modulo (length r) 3 =? 0)%nat
                 then sep else "") ++ group3 sep r)
  end.

(** The text holds no dollar sign, the one character with a meaning of its
    own in a replacement. *)
Definition is_plain (t : string) : bool :=
  all_chars (fun c => negb (code c =? 36)) t.

(** ** Rounding to binary64 *)

(** Positivity of a power with a non-negative exponent. *)
Ltac pow_pos := apply Z.pow_pos_nonneg; lia.

Lemma odd_part_spec (p : positive) :
  Z.pos p = Z.pos (fst (odd_part p)) * 2 ^ snd (odd_part p)
  /\ 0 <= snd (odd_part p)
  /\ Z.odd (Z.pos (fst (odd_part p))) = true.
Proof.
  induction p as [p IH | p IH | ]; cbn [odd_part].
  - cbn [fst snd]. rewrite Z.pow_0_r, Z.mul_1_r. repeat split; lia.
  - destruct (odd_part p) as [o k]; cbn [fst snd] in *.
    destruct IH as (H1 & H2 & H3). repeat split; try lia; try assumption.
    rewrite Z.pow_add_r, Z.pow_1_r, Pos2Z.inj_xO, H1 by lia. ring.
  - cbn [fst snd]. repeat split; lia.
Qed.

Lemma odd_part_shift (o : positive) (j : nat) :
  Z.odd (Z.pos o) = true ->
  forall p, Z.pos p = Z.pos o * 2 ^ Z.of_nat j -> odd_part p = (o, Z.of_nat j).
Proof.
  intros Ho. induction j as [ | j IH]; intros p Hp.
  - rewrite Z.mul_1_r in Hp. injection Hp as ->.
    destruct o; try reflexivity. discriminate.
  - rewrite Nat2Z.inj_succ, Z.pow_succ_r in Hp by lia.
    destruct p as [p | p | ]; try lia.
    cbn [odd_part]. rewrite (IH p).
    + f_equal. lia.
    + rewrite Pos2Z.inj_xO in Hp. lia.
Qed.

Lemma norm_shift (neg : bool) (o j e : Z) :
  0 < o -> Z.odd o = true -> 0 <= j ->
  norm neg (o * 2 ^ j) e = Fin neg (Z.to_N o) (e + j).
Proof.
  intros Ho Hodd Hj.
  destruct o as [ | o | o]; try lia.
  assert (Hpos : 0 < Z.pos o * 2 ^ j)
    by (apply Z.mul_pos_pos; [ lia | pow_pos ]).
  destruct (Z.pos o * 2 ^ j) as [ | p | p] eqn:Hp; try lia.
  unfold norm. rewrite <- (Z2Nat.id j) in Hp by lia.
  rewrite (odd_part_shift o (Z.to_nat j) Hodd p (eq_sym Hp)).
  rewrite Z2Nat.id by lia. reflexivity.
Qed.

Lemma norm_pos_spec (neg : bool) (m e : Z) :
  0 < m ->
  exists o k, norm neg m e = Fin neg (Z.to_N o) (e + k)
              /\ m = o * 2 ^ k /\ 0 <= k /\ 0 < o /\ Z.odd o = true.
Proof.
  intros Hm. destruct m as [ | p | p]; try lia.
  destruct (odd_part_spec p) as (H1 & H2 & H3).
  exists (Z.pos (fst (odd_part p))), (snd (odd_part p)).
  unfold norm. destruct (odd_part p) as [o k]; simpl in *.
  repeat split; try assumption; lia.
Qed.

(** Comparisons with a power of two, brought to a common scale. *)
Lemma pow2_le_scaled (q d p K : Z) :
  0 <= K -> 0 <= d + K ->
  (pow2_le q d p = true <-> q * 2 ^ (d + K) <= p * 2 ^ K).
Proof.
  intros HK HdK. unfold pow2_le.
  assert (H2K : 0 < 2 ^ K) by pow_pos.
  destruct (0 <=? d) eqn:Hd.
  - apply Z.leb_le in Hd. rewrite Z.leb_le, Z.pow_add_r, Z.mul_assoc by lia.
    apply Z.mul_le_mono_pos_r. assumption.
  - apply Z.leb_gt in Hd. rewrite Z.leb_le.
    replace K with (- d + (d + K)) at 2 by lia.
    rewrite (Z.pow_add_r 2 (- d) (d + K)), Z.mul_assoc by lia.
    apply Z.mul_le_mono_pos_r. pow_pos.
Qed.

Lemma pow2_le_mono (q p d d' : Z) :
  0 <= q -> d' <= d -> pow2_le q d p = true -> pow2_le q d' p = true.
Proof.
  intros Hq Hd H.
  pose (K := Z.abs d + Z.abs d').
  apply (pow2_le_scaled q d p K) in H; try (unfold K; lia).
  apply (pow2_le_scaled q d' p K); try (unfold K; lia).
  assert (2 ^ (d' + K) <= 2 ^ (d + K)) by (apply Z.pow_le_mono_r; unfold K; lia).
  nia.
Qed.

Lemma ilog2_spec (p q : Z) :
  0 < p -> 0 < q ->
  pow2_le q (ilog2 p q) p = true /\ pow2_le q (ilog2 p q + 1) p = false.
Proof.
  intros Hp Hq.
  destruct (Z.log2_spec p Hp) as [Ha1 Ha2].
  destruct (Z.log2_spec q Hq) as [Hb1 Hb2].
  pose proof (Z.log2_nonneg p) as Ha0. pose proof (Z.log2_nonneg q) as Hb0.
  set (a := Z.log2 p) in *. set (b := Z.log2 q) in *.
  assert (HA : pow2_le q (a - b - 1) p = true).
  { apply (pow2_le_scaled q (a - b - 1) p (b + 1)); try lia.
    replace (a - b - 1 + (b + 1)) with a by lia.
    rewrite Z.pow_succ_r in Hb2 by lia.
    replace (b + 1) with (Z.succ b) by lia. rewrite Z.pow_succ_r by lia.
    assert (0 < 2 ^ a) by pow_pos.
    assert (0 < 2 ^ b) by pow_pos. nia. }
  assert (HB : pow2_le q (a - b + 1) p = false).
  { apply not_true_iff_false. intros H.
    apply (pow2_le_scaled q (a - b + 1) p b) in H; try lia.
    replace (a - b + 1 + b) with (Z.succ a) in H by lia.
    assert (0 < 2 ^ b) by pow_pos.
    assert (0 < 2 ^ Z.succ a) by pow_pos. nia. }
  unfold ilog2. fold a b.
  destruct (pow2_le q (a - b) p) eqn:Ht.
  - split; assumption.
  - split; [ exact HA | ]. replace (a - b - 1 + 1) with (a - b) by lia. exact Ht.
Qed.

Lemma ilog2_unique (p q l : Z) :
  0 < p -> 0 < q ->
  pow2_le q l p = true -> pow2_le q (l + 1) p = false -> ilog2 p q = l.
Proof.
  intros Hp Hq H1 H2.
  destruct (ilog2_spec p q Hp Hq) as [H3 H4].
  destruct (Z.lt_trichotomy (ilog2 p q) l) as [Hlt | [Heq | Hgt]]; [ | assumption | ].
  - assert (H : pow2_le q (ilog2 p q + 1) p = true)
      by (apply (pow2_le_mono q p l); try assumption; lia).
    congruence.
  - assert (H : pow2_le q (l + 1) p = true)
      by (apply (pow2_le_mono q p (ilog2 p q)); try assumption; lia).
    congruence.
Qed.

Lemma rne_exact (c d : Z) : 0 < d -> rne (d * c) d = c.
Proof.
  intros Hd. unfold rne.
  rewrite (Z.mul_comm d c), Z.div_mul, Z.mod_mul by lia.
  replace (2 * 0 ?= d) with Lt by (symmetry; apply Z.compare_lt_iff; lia).
  reflexivity.
Qed.

Lemma rne_bounds (num den : Z) :
  0 <= num -> 0 < den -> num / den <= rne num den <= num / den + 1.
Proof.
  intros Hn Hd. unfold rne.
  destruct (2 * (num mod den) ?= den); [ destruct (Z.even _) | | ]; lia.
Qed.

(** The equation [p / q = m * 2^e] at a larger scale. *)
Lemma value_scaled (p q m e K : Z) :
  p * 2 ^ Z.max 0 (- e) = q * m * 2 ^ Z.max 0 e ->
  Z.max 0 (- e) <= K -> p * 2 ^ K = q * m * 2 ^ (e + K).
Proof.
  intros H HK.
  replace K with (Z.max 0 (- e) + (K - Z.max 0 (- e))) at 1 by lia.
  replace (e + K) with (Z.max 0 e + (K - Z.max 0 (- e))) by lia.
  rewrite !Z.pow_add_r by lia. rewrite !Z.mul_assoc, H. reflexivity.
Qed.

(** A rational that is a binary64 value is rounded to itself.  The
    assumptions say that [p / q = m * 2^e] and that [m] and [e] are the
    canonical mantissa and exponent of a binary64 value. *)
Section ExactRounding.

Variables (neg : bool) (p q m e : Z).

Hypothesis Hq : 0 < q.
Hypothesis Hm : 0 < m.
Hypothesis Hodd : Z.odd m = true.
Hypothesis Hm53 : m < 2 ^ 53.
Hypothesis He : -1074 <= e.
Hypothesis Hmax : m * 2 ^ Z.max 0 e < 2 ^ 1024.
Hypothesis Hval : p * 2 ^ Z.max 0 (- e) = q * m * 2 ^ Z.max 0 e.

Lemma exact_numerator_pos : 0 < p.
Proof.
  assert (0 < 2 ^ Z.max 0 (- e)) by pow_pos.
  assert (0 < 2 ^ Z.max 0 e) by pow_pos.
  assert (0 < q * m * 2 ^ Z.max 0 e) by (repeat apply Z.mul_pos_pos; lia).
  nia.
Qed.

Lemma exact_log2_mantissa : 0 <= Z.log2 m <= 52.
Proof.
  split; [ apply Z.log2_nonneg | ].
  destruct (Z.log2_spec m Hm) as [Hl1 _].
  destruct (Z_le_gt_dec (Z.log2 m) 52) as [ | Hgt]; [ assumption | exfalso ].
  assert (2 ^ 53 <= 2 ^ Z.log2 m) by (apply Z.pow_le_mono_r; lia). lia.
Qed.

Lemma exact_ilog2 : ilog2 p q = Z.log2 m + e.
Proof.
  destruct (Z.log2_spec m Hm) as [Hl1 Hl2].
  pose proof exact_log2_mantissa as Hlm.
  set (lm := Z.log2 m) in *.
  assert (H2 : 0 < 2 ^ (e + Z.max 0 (- e))) by pow_pos.
  apply ilog2_unique; try assumption; try apply exact_numerator_pos.
  - apply (pow2_le_scaled q (lm + e) p (Z.max 0 (- e))); try lia.
    rewrite (value_scaled p q m e (Z.max 0 (- e)) Hval) by lia.
    replace (lm + e + Z.max 0 (- e)) with (lm + (e + Z.max 0 (- e))) by lia.
    rewrite Z.pow_add_r by lia. nia.
  - apply not_true_iff_false. intros H.
    apply (pow2_le_scaled q (lm + e + 1) p (Z.max 0 (- e))) in H; try lia.
    rewrite (value_scaled p q m e (Z.max 0 (- e)) Hval) in H by lia.
    replace (lm + e + 1 + Z.max 0 (- e))
      with (Z.succ lm + (e + Z.max 0 (- e))) in H by lia.
    rewrite Z.pow_add_r in H by lia. nia.
Qed.

(** The exponent that [round_Q] works at, and the mantissa it finds. *)
Lemma exact_mantissa :
  let e' := Z.max (Z.log2 m + e - 52) (-1074) in
  e' <= e
  /\ m * 2 ^ (e - e') < 2 ^ 53
  /\ (if 0 <=? e' then rne p (q * 2 ^ e') else rne (p * 2 ^ (- e')) q)
     = m * 2 ^ (e - e').
Proof.
  intros e'.
  destruct (Z.log2_spec m Hm) as [Hl1 Hl2].
  pose proof exact_log2_mantissa as Hlm.
  set (lm := Z.log2 m) in *.
  assert (He' : e' <= e) by (unfold e'; lia).
  split; [ exact He' | split ].
  - assert (2 ^ (e - e') <= 2 ^ (52 - lm))
      by (apply Z.pow_le_mono_r; unfold e'; lia).
    assert (2 ^ Z.succ lm * 2 ^ (52 - lm) = 2 ^ 53)
      by (rewrite <- Z.pow_add_r by lia; f_equal; lia).
    assert (0 < 2 ^ (52 - lm)) by pow_pos.
    nia.
  - destruct (0 <=? e') eqn:Hs.
    + apply Z.leb_le in Hs.
      replace p with (q * 2 ^ e' * (m * 2 ^ (e - e'))).
      * apply rne_exact. apply Z.mul_pos_pos; [ lia | pow_pos ].
      * pose proof (value_scaled p q m e 0 Hval ltac:(lia)) as Hv.
        rewrite Z.pow_0_r, Z.mul_1_r, Z.add_0_r in Hv. rewrite Hv.
        replace e with (e' + (e - e')) at 2 by lia.
        rewrite Z.pow_add_r by lia. ring.
    + apply Z.leb_gt in Hs.
      rewrite (value_scaled p q m e (- e') Hval) by lia.
      replace (e + - e') with (e - e') by lia.
      rewrite <- Z.mul_assoc. apply rne_exact. lia.
Qed.

Theorem round_Q_exact : round_Q neg p q = Fin neg (Z.to_N m) e.
Proof.
  pose proof exact_numerator_pos as Hp.
  destruct exact_mantissa as (He' & Hm' & Hrne).
  unfold round_Q.
  replace (p =? 0) with false by (symmetry; apply Z.eqb_neq; lia).
  rewrite exact_ilog2.
  set (e' := Z.max (Z.log2 m + e - 52) (-1074)) in *.
  rewrite Hrne.
  replace (2 ^ 1024 <=? m * 2 ^ (e - e') * 2 ^ Z.max 0 e') with false.
  - replace e with (e' + (e - e')) at 2 by lia.
    apply norm_shift; try assumption. lia.
  - symmetry. apply Z.leb_gt.
    destruct (Z_le_gt_dec 0 e') as [Hs | Hs].
    + rewrite <- Z.mul_assoc, <- Z.pow_add_r by lia.
      replace (e - e' + Z.max 0 e') with (Z.max 0 e) by lia. assumption.
    + replace (Z.max 0 e') with 0 by lia. rewrite Z.pow_0_r, Z.mul_1_r.
      assert (2 ^ 53 < 2 ^ 1024) by (apply Z.pow_lt_mono_r; lia). lia.
Qed.

End ExactRounding.

Lemma is_double_Fin (neg : bool) (m : N) (e : Z) :
  is_double (Fin neg m e) = true <->
  (m = 0%N /\ e = 0)
  \/ (Z.odd (Z.of_N m) = true /\ 0 < Z.of_N m < 2 ^ 53 /\ -1074 <= e
      /\ Z.of_N m * 2 ^ Z.max 0 e < 2 ^ 1024).
Proof.
  unfold is_double.
  rewrite orb_true_iff, !andb_true_iff, N.eqb_eq, Z.eqb_eq, !Z.ltb_lt, Z.leb_le.
  assert (Hodd : N.odd m = Z.odd (Z.of_N m)) by (destruct m as [ | [ | | ]]; reflexivity).
  rewrite Hodd.
  split; (intros [H | H]; [ left; exact H | right ]).
  - destruct H as [[[H1 H2] H3] H4]. repeat split; try assumption.
    destruct m; [ discriminate | lia ].
  - destruct H as (H1 & H2 & H3 & H4). repeat split; try assumption; lia.
Qed.

Lemma round_Q_cases (neg : bool) (p q : Z) :
  0 < p -> 0 < q ->
  exists m e, -1074 <= e /\ 0 <= m <= 2 ^ 53
    /\ (0 <= e -> m = rne p (q * 2 ^ e))
    /\ (e < 0 -> m = rne (p * 2 ^ (- e)) q)
    /\ round_Q neg p q
       = if 2 ^ 1024 <=? m * 2 ^ Z.max 0 e then Inf neg else norm neg m e.
Proof.
  intros Hp Hq.
  destruct (ilog2_spec p q Hp Hq) as [_ Hl].
  set (l := ilog2 p q) in *. set (e := Z.max (l - 52) (-1074)).
  assert (Hup : pow2_le q (e + 53) p = false).
  { apply not_true_iff_false. intros H.
    rewrite (pow2_le_mono q p (e + 53) (l + 1)) in Hl;
      [ discriminate | lia | unfold e; lia | assumption ]. }
  exists (if 0 <=? e then rne p (q * 2 ^ e) else rne (p * 2 ^ (- e)) q), e.
  split; [ unfold e; lia | ].
  split; [ | split; [ | split ] ].
  - destruct (0 <=? e) eqn:Hs.
    + apply Z.leb_le in Hs.
      assert (Hden : 0 < q * 2 ^ e)
        by (apply Z.mul_pos_pos; [ lia | pow_pos ]).
      pose proof (rne_bounds p (q * 2 ^ e) ltac:(lia) Hden) as [Hb1 Hb2].
      assert (0 <= p / (q * 2 ^ e)) by (apply Z.div_pos; lia).
      assert (p / (q * 2 ^ e) < 2 ^ 53).
      { apply Z.div_lt_upper_bound; [ assumption | ].
        destruct (Z_lt_ge_dec p (q * 2 ^ e * 2 ^ 53)) as [ | Hge]; [ assumption | ].
        exfalso. apply not_true_iff_false in Hup. apply Hup.
        apply (pow2_le_scaled q (e + 53) p 0); try lia.
        rewrite Z.add_0_r, Z.pow_0_r, Z.mul_1_r, Z.pow_add_r by lia. lia. }
      lia.
    + apply Z.leb_gt in Hs.
      assert (0 < 2 ^ (- e)) by pow_pos.
      pose proof (rne_bounds (p * 2 ^ (- e)) q ltac:(nia) Hq) as [Hb1 Hb2].
      assert (0 <= p * 2 ^ (- e) / q) by (apply Z.div_pos; nia).
      assert (p * 2 ^ (- e) / q < 2 ^ 53).
      { apply Z.div_lt_upper_bound; [ assumption | ].
        destruct (Z_lt_ge_dec (p * 2 ^ (- e)) (q * 2 ^ 53)) as [ | Hge]; [ assumption | ].
        exfalso. apply not_true_iff_false in Hup. apply Hup.
        apply (pow2_le_scaled q (e + 53) p (- e)); try lia.
        replace (e + 53 + - e) with 53 by lia. lia. }
      lia.
  - intros Hs. apply Z.leb_le in Hs. rewrite Hs. reflexivity.
  - intros Hs. apply Z.leb_gt in Hs. rewrite Hs. reflexivity.
  - unfold round_Q.
    replace (p =? 0) with false by (symmetry; apply Z.eqb_neq; lia).
    reflexivity.
Qed.

Lemma odd_below (o : Z) : Z.odd o = true -> o <= 2 ^ 53 -> o < 2 ^ 53.
Proof.
  intros Ho Hle. destruct (Z.eq_dec o (2 ^ 53)) as [-> | ]; [ discriminate | lia ].
Qed.

Lemma norm_double (neg : bool) (m e : Z) :
  0 <= m <= 2 ^ 53 -> -1074 <= e -> m * 2 ^ Z.max 0 e < 2 ^ 1024 ->
  is_double (norm neg m e) = true.
Proof.
  intros Hm He Hmax.
  destruct (Z.eq_dec m 0) as [-> | Hm0]; [ reflexivity | ].
  destruct (norm_pos_spec neg m e ltac:(lia)) as (o & k & -> & Hmo & Hk & Ho & Hodd).
  apply is_double_Fin. right. rewrite Z2N.id by lia.
  assert (H2k : 1 <= 2 ^ k) by (apply (Z.pow_le_mono_r 2 0 k); lia).
  split; [ assumption | ]. split.
  - split; [ assumption | ]. apply odd_below; [ assumption | nia ].
  - split; [ lia | ].
    eapply Z.le_lt_trans; [ | exact Hmax ]. subst m.
    rewrite <- Z.mul_assoc, <- Z.pow_add_r by lia.
    apply Z.mul_le_mono_nonneg_l; [ lia | ].
    apply Z.pow_le_mono_r; lia.
Qed.

Lemma round_Q_double (neg : bool) (p q : Z) :
  0 <= p -> 0 < q -> is_double (round_Q neg p q) = true.
Proof.
  intros Hp Hq.
  destruct (Z.eq_dec p 0) as [-> | Hp0]; [ reflexivity | ].
  destruct (round_Q_cases neg p q ltac:(lia) Hq) as (m & e & He & Hm & _ & _ & ->).
  destruct (2 ^ 1024 <=? m * 2 ^ Z.max 0 e) eqn:Hov; [ reflexivity | ].
  apply Z.leb_gt in Hov. apply norm_double; assumption.
Qed.

Lemma one_is : of_Z 1 = Fin false 1 0.
Proof. reflexivity. Qed.

Lemma num_mul_one (x : number) :
  is_double x = true -> num_mul (of_Z 1) x = x.
Proof.
  intros Hx. rewrite one_is.
  destruct x as [ | [ | ] | neg m e ]; try reflexivity.
  apply is_double_Fin in Hx. cbn [num_mul xorb].
  destruct Hx as [[-> ->] | (Hodd & Hm & He & Hmax)]; [ reflexivity | ].
  rewrite <- (N2Z.id m) at 2.
  apply round_Q_exact;
    [ pow_pos | lia | assumption | lia | lia | assumption | ].
  change (Z.of_N 1) with 1. rewrite Z.add_0_l, Z.mul_1_l. ring.
Qed.

Lemma norm_id (neg : bool) (m : N) (e : Z) :
  is_double (Fin neg m e) = true -> norm neg (Z.of_N m) e = Fin neg m e.
Proof.
  intros Hx. apply is_double_Fin in Hx.
  destruct Hx as [[-> ->] | (Hodd & Hm & He & Hmax)]; [ reflexivity | ].
  pose proof (norm_shift neg (Z.of_N m) 0 e ltac:(lia) Hodd ltac:(lia)) as H.
  rewrite Z.pow_0_r, Z.mul_1_r, Z.add_0_r, N2Z.id in H. exact H.
Qed.

Lemma Math_floor_integral (x : number) :
  is_double x = true -> is_integral x = true -> Math_floor x = x.
Proof.
  destruct x as [ | s | neg m e ]; try reflexivity.
  intros Hx Hi. cbn [is_integral] in Hi. cbn [Math_floor]. rewrite Hi.
  apply norm_id. assumption.
Qed.

Lemma norm_integral (neg : bool) (m e : Z) :
  0 <= e -> is_integral (norm neg m e) = true.
Proof.
  intros He. destruct m as [ | p | p]; try reflexivity.
  destruct (norm_pos_spec neg (Z.pos p) e ltac:(lia)) as (o & k & -> & _ & Hk & _).
  cbn [is_integral]. apply Z.leb_le. lia.
Qed.

Lemma norm_scale (neg : bool) (m j e : Z) :
  0 <= j -> norm neg (m * 2 ^ j) e = norm neg m (e + j).
Proof.
  intros Hj. destruct m as [ | p | p].
  - reflexivity.
  - destruct (norm_pos_spec neg (Z.pos p) (e + j) ltac:(lia))
      as (o & k & -> & Hmo & Hk & Ho & Hodd).
    rewrite Hmo, <- Z.mul_assoc, <- Z.pow_add_r by lia.
    rewrite norm_shift by (assumption || lia). f_equal. lia.
  - assert (0 < 2 ^ j) by pow_pos.
    destruct (Z.neg p * 2 ^ j) eqn:Hn; try reflexivity. lia.
Qed.

Lemma round_Q_integral (neg : bool) (p : Z) :
  0 <= p -> is_integral (round_Q neg p 1) = true.
Proof.
  intros Hp.
  destruct (Z.eq_dec p 0) as [-> | Hp0]; [ reflexivity | ].
  destruct (round_Q_cases neg p 1 ltac:(lia) ltac:(lia))
    as (m & e & He & Hm & H1 & H2 & ->).
  destruct (2 ^ 1024 <=? m * 2 ^ Z.max 0 e); [ reflexivity | ].
  destruct (Z_le_gt_dec 0 e) as [Hs | Hs].
  - apply norm_integral. assumption.
  - rewrite (H2 ltac:(lia)).
    replace (p * 2 ^ (- e)) with (1 * (p * 2 ^ (- e))) by ring.
    rewrite rne_exact by lia. rewrite norm_scale by lia.
    apply norm_integral. lia.
Qed.

(** ** The results of toFixed and format *)

Lemma toFixed_returns (x d : number) (f : Z) :
  ToIntegerOrInfinity d = Some f -> 0 <= f <= 100 ->
  exists s, toFixed x d = Return s.
Proof.
  intros Hd Hf. unfold toFixed. rewrite Hd.
  replace ((f <? 0) || (100 <? f)) with false
    by (symmetry; apply orb_false_iff; split; apply Z.ltb_ge; lia).
  destruct x as [ | [ | ] | neg m e ]; try (eexists; reflexivity).
  destruct (ge_1e21 (Z.of_N m) e); [ eexists; reflexivity | ].
  destruct (f =? 0); [ eexists; reflexivity | ].
  destruct (split_at _ _) as [a b]. eexists; reflexivity.
Qed.

Lemma toFixed_throws (x d : number) :
  (forall f, ToIntegerOrInfinity d = Some f -> ~ 0 <= f <= 100) ->
  toFixed x d = Throw RangeError.
Proof.
  intros H. unfold toFixed.
  destruct (ToIntegerOrInfinity d) as [f | ] eqn:Hd; [ | reflexivity ].
  specialize (H f eq_refl).
  destruct (f <? 0) eqn:H0; [ reflexivity | ].
  destruct (100 <? f) eqn:H1; [ reflexivity | ].
  apply Z.ltb_ge in H0, H1. lia.
Qed.

Lemma fraction_digits_ok_spec (options : option Options) :
  fraction_digits_ok options = true ->
  exists f, ToIntegerOrInfinity (decimalPlaces_of options) = Some f
            /\ 0 <= f <= 100.
Proof.
  unfold fraction_digits_ok.
  destruct (ToIntegerOrInfinity _) as [f | ]; [ | discriminate ].
  intros H. apply andb_true_iff in H as [H0 H1].
  apply Z.leb_le in H0, H1. exists f. split; [ reflexivity | lia ].
Qed.

Lemma toFixed_cases (x d : number) :
  (exists s, toFixed x d = Return s) \/ toFixed x d = Throw RangeError.
Proof.
  destruct (ToIntegerOrInfinity d) as [f | ] eqn:Hd.
  - destruct (Z_le_dec 0 f) as [H0 | H0]; destruct (Z_le_dec f 100) as [H1 | H1];
      try (right; apply toFixed_throws; intros f' Hf'; rewrite Hd in Hf';
           injection Hf' as <-; lia).
    left. apply (toFixed_returns x d f Hd). lia.
  - right. apply toFixed_throws. intros f Hf. congruence.
Qed.

(** format on a finite number, with the call of [toFixed] set apart. *)
Lemma format_unfold (neg : bool) (m : N) (e : Z) (options : option Options) :
  format (JNum (Fin neg m e)) options =
  let unit := resolve_unit options (Fin false m e) in
  match toFixed (num_div (Fin neg m e) (entry_number (map (toLowerCase unit))))
                (decimalPlaces_of options) with
  | Throw err => Throw err
  | Return str =>
      let str :=
        if fixedDecimals_of options then str else replace_decimals str in
      let str :=
        if is_empty (string_option options opt_thousandsSeparator) then str
        else replace_thousands str (string_option options opt_thousandsSeparator) in
      Return (JStr (str ++ string_option options opt_unitSeparator ++ unit))
  end.
Proof. reflexivity. Qed.

Lemma format_not_finite (value : jsval) (options : option Options) :
  is_finite_number value = false -> format value options = Return JNull.
Proof.
  destruct value as [ | | b | [ | s | neg m e ] | s | ];
    intros H; try reflexivity; discriminate.
Qed.

Lemma format_finite (value : jsval) (options : option Options) :
  is_finite_number value = true ->
  (exists s, format value options = Return (JStr s))
  \/ format value options = Throw RangeError.
Proof.
  destruct value as [ | | b | [ | s | neg m e ] | s | ];
    intros H; try discriminate.
  rewrite format_unfold. cbv zeta.
  destruct (toFixed_cases
              (num_div (Fin neg m e)
                 (entry_number
                    (map (toLowerCase (resolve_unit options (Fin false m e))))))
              (decimalPlaces_of options)) as [[str Hs] | Ht].
  - rewrite Hs. left. eexists; reflexivity.
  - rewrite Ht. right. reflexivity.
Qed.

Lemma format_finite_ok (value : jsval) (options : option Options) :
  is_finite_number value = true -> fraction_digits_ok options = true ->
  exists s, format value options = Return (JStr s).
Proof.
  intros Hv Hd. apply fraction_digits_ok_spec in Hd as (f & Hf & Hr).
  destruct value as [ | | b | [ | s | neg m e ] | s | ]; try discriminate.
  rewrite format_unfold. cbv zeta.
  destruct (toFixed_returns
              (num_div (Fin neg m e)
                 (entry_number
                    (map (toLowerCase (resolve_unit options (Fin false m e))))))
              _ f Hf Hr) as [str Hstr].
  rewrite Hstr. eexists; reflexivity.
Qed.

Lemma format_finite_throws (value : jsval) (options : option Options) :
  is_finite_number value = true -> fraction_digits_ok options = false ->
  format value options = Throw RangeError.
Proof.
  intros Hv Hd.
  destruct value as [ | | b | [ | s | neg m e ] | s | ]; try discriminate.
  rewrite format_unfold. cbv zeta.
  rewrite toFixed_throws; [ reflexivity | ].
  intros f Hf Hr. unfold fraction_digits_ok in Hd. rewrite Hf in Hd.
  apply andb_false_iff in Hd as [Hd | Hd]; apply Z.leb_gt in Hd; lia.
Qed.

Lemma parse_returns (val : jsval) : exists r, parse val = Return r.
Proof.
  destruct val as [ | | b | x | s | ]; simpl; try (eexists; reflexivity).
  - destruct (isNaN x); eexists; reflexivity.
  - destruct (parseRegExp_exec s) as [[r1 r4] | ]; eexists; reflexivity.
Qed.

(** ** Strings and parseInt *)

Lemma app_assoc_s (a b c : string) : (a ++ b) ++ c = a ++ (b ++ c).
Proof. induction a as [ | x a IH]; cbn; [ reflexivity | rewrite IH; reflexivity ]. Qed.

Lemma app_empty_r (a : string) : a ++ "" = a.
Proof. induction a as [ | x a IH]; cbn; [ reflexivity | rewrite IH; reflexivity ]. Qed.

Lemma length_app (a b : string) : length (a ++ b) = (length a + length b)%nat.
Proof. induction a as [ | x a IH]; cbn; [ reflexivity | rewrite IH; reflexivity ]. Qed.

Lemma all_chars_app (f : ascii -> bool) (a b : string) :
  all_chars f (a ++ b) = all_chars f a && all_chars f b.
Proof.
  induction a as [ | x a IH]; cbn; [ reflexivity | ].
  rewrite IH, andb_assoc. reflexivity.
Qed.

Lemma span_app (f : ascii -> bool) (a rest : string) :
  all_chars f a = true -> head_fails f rest = true ->
  span f (a ++ rest) = (a, rest).
Proof.
  intros Ha Hr. induction a as [ | x a IH]; cbn in *.
  - destruct rest as [ | c r]; [ reflexivity | ].
    cbn in Hr |- *. apply negb_true_iff in Hr. rewrite Hr. reflexivity.
  - apply andb_true_iff in Ha as [Hx Ha]. rewrite Hx, (IH Ha). reflexivity.
Qed.

Lemma span_spec (f : ascii -> bool) (s : string) :
  s = fst (span f s) ++ snd (span f s)
  /\ all_chars f (fst (span f s)) = true
  /\ head_fails f (snd (span f s)) = true.
Proof.
  induction s as [ | c r IH]; cbn; [ repeat split | ].
  destruct (f c) eqn:Hc.
  - destruct (span f r) as [a b]; cbn in *.
    destruct IH as (H1 & H2 & H3). rewrite Hc. repeat split; try assumption.
    f_equal. assumption.
  - cbn. rewrite Hc. repeat split.
Qed.

Lemma span_none (f : ascii -> bool) (s : string) :
  head_fails f s = true -> span f s = ("", s).
Proof.
  intros H. exact (span_app f "" s eq_refl H).
Qed.

Lemma digit_val_range (c : ascii) : is_digit c = true -> 0 <= digit_val c <= 9.
Proof.
  unfold is_digit, digit_val. intros H.
  apply andb_true_iff in H as [H1 H2]. apply Z.leb_le in H1, H2. lia.
Qed.

Lemma digits_val_nonneg (s : string) (acc : Z) :
  all_chars is_digit s = true -> 0 <= acc -> 0 <= digits_val acc s.
Proof.
  revert acc. induction s as [ | c r IH]; intros acc Hs Hacc;
    cbn [digits_val all_chars] in *.
  - assumption.
  - apply andb_true_iff in Hs as [Hc Hr].
    apply IH; [ assumption | ]. pose proof (digit_val_range c Hc). lia.
Qed.

Lemma digits_val_app (a b : string) (acc : Z) :
  digits_val acc (a ++ b) = digits_val (digits_val acc a) b.
Proof.
  revert acc. induction a as [ | c r IH]; intros acc; cbn; [ reflexivity | apply IH ].
Qed.

Lemma parseInt10_double (s : string) : is_double (parseInt10 s) = true.
Proof.
  unfold parseInt10.
  destruct (take_sign _) as [neg r].
  pose proof (span_spec is_digit r) as (_ & Hds & _).
  destruct (span is_digit r) as [ds rest]; cbn [fst] in Hds.
  destruct (is_empty ds); [ reflexivity | ].
  apply round_Q_double; [ | lia ]. apply digits_val_nonneg; [ assumption | lia ].
Qed.

Lemma parseInt10_integral (s : string) : is_integral (parseInt10 s) = true.
Proof.
  unfold parseInt10.
  destruct (take_sign _) as [neg r].
  pose proof (span_spec is_digit r) as (_ & Hds & _).
  destruct (span is_digit r) as [ds rest]; cbn [fst] in Hds.
  destruct (is_empty ds); [ reflexivity | ].
  apply round_Q_integral. apply digits_val_nonneg; [ assumption | lia ].
Qed.

Lemma parse_fallback (s : string) :
  parseRegExp_exec s = None -> parse (JStr s) = Return (JNum (parseInt10 s)).
Proof.
  intros H. unfold parse. rewrite H.
  change (entry_number (map "b")) with (of_Z 1).
  rewrite num_mul_one by apply parseInt10_double.
  rewrite Math_floor_integral; [ reflexivity | apply parseInt10_double | apply parseInt10_integral ].
Qed.

(** Strings without a digit. *)
Lemma no_digit_span (f : ascii -> bool) (s : string) :
  all_chars (fun c => negb (is_digit c)) s = true ->
  all_chars (fun c => negb (is_digit c)) (snd (span f s)) = true.
Proof.
  intros H. induction s as [ | c r IH]; cbn in *; [ reflexivity | ].
  apply andb_true_iff in H as [Hc Hr].
  destruct (f c).
  - specialize (IH Hr). destruct (span f r) as [a b]. exact IH.
  - cbn. rewrite Hc, Hr. reflexivity.
Qed.

Lemma no_digit_head (s : string) :
  all_chars (fun c => negb (is_digit c)) s = true -> span is_digit s = ("", s).
Proof.
  intros H. apply span_none. destruct s as [ | c r]; [ reflexivity | ].
  cbn in *. apply andb_true_iff in H as [Hc _]. exact Hc.
Qed.

Lemma no_digit_take_sign (s : string) :
  all_chars (fun c => negb (is_digit c)) s = true ->
  all_chars (fun c => negb (is_digit c)) (snd (take_sign s)) = true.
Proof.
  intros H. destruct s as [ | c r]; [ reflexivity | ].
  cbn in H. apply andb_true_iff in H as [Hc Hr].
  unfold take_sign.
  destruct (code c =? 45); [ exact Hr | ].
  destruct (code c =? 43); [ exact Hr | ].
  cbn. rewrite Hc, Hr. reflexivity.
Qed.

Lemma parseInt10_no_digit (s : string) :
  all_chars (fun c => negb (is_digit c)) s = true -> parseInt10 s = NaN.
Proof.
  intros H. unfold parseInt10.
  pose proof (no_digit_take_sign _ (no_digit_span is_space s H)) as H1.
  destruct (take_sign _) as [neg r]; cbn [snd] in H1.
  rewrite (no_digit_head r H1). reflexivity.
Qed.

Lemma parseRegExp_no_digit (s : string) :
  all_chars (fun c => negb (is_digit c)) s = true -> parseRegExp_exec s = None.
Proof.
  intros H. unfold parseRegExp_exec.
  assert (Hr0 : all_chars (fun c => negb (is_digit c)) (snd (match_sign s)) = true).
  { destruct s as [ | c r]; [ reflexivity | ]. unfold match_sign.
    destruct ((code c =? 45) || (code c =? 43)); [ | exact H ].
    cbn in H |- *. apply andb_true_iff in H as [_ H]. exact H. }
  destruct (match_sign s) as [sign r0]; cbn [snd] in Hr0.
  unfold match_numeral. rewrite (no_digit_head r0 Hr0). reflexivity.
Qed.

(** ** Numerals with a unit *)

Lemma lower_char_letter (c : ascii) :
  is_lower (lower_char c) = true -> is_letter c = true.
Proof.
  destruct c as [[ | ] [ | ] [ | ] [ | ] [ | ] [ | ] [ | ] [ | ]];
    vm_compute; intros H; congruence.
Qed.

Lemma letter_facts (c : ascii) :
  is_letter c = true ->
  is_digit c = false /\ (code c =? 32) = false /\ (code c =? 46) = false
  /\ (code c =? 45) = false /\ (code c =? 43) = false /\ is_space c = false.
Proof.
  unfold is_letter, is_upper, is_lower, is_digit, is_space. intros H.
  apply orb_true_iff in H.
  rewrite !andb_true_iff, !Z.leb_le in H.
  repeat split;
    repeat (apply orb_false_iff; split);
    try (apply andb_false_iff; rewrite !Z.leb_gt; lia);
    try (apply Z.eqb_neq; lia).
Qed.

Lemma digit_facts (c : ascii) :
  is_digit c = true ->
  (code c =? 32) = false /\ (code c =? 46) = false
  /\ (code c =? 45) = false /\ (code c =? 43) = false /\ is_space c = false.
Proof.
  unfold is_digit, is_space. intros H.
  rewrite !andb_true_iff, !Z.leb_le in H.
  repeat split;
    repeat (apply orb_false_iff; split);
    try (apply andb_false_iff; rewrite !Z.leb_gt; lia);
    try (apply Z.eqb_neq; lia).
Qed.

Lemma unit_token_inv (u : string) :
  is_unit_token u = true ->
  exists c1 c2, u = String c1 (String c2 "") /\ is_letter c1 = true
    /\ (toLowerCase u = "kb" \/ toLowerCase u = "mb" \/ toLowerCase u = "gb"
        \/ toLowerCase u = "tb" \/ toLowerCase u = "pb").
Proof.
  unfold is_unit_token. cbv zeta. rewrite !orb_true_iff, !String.eqb_eq.
  intros H.
  assert (Hl : exists a, toLowerCase u = String a "b" /\ is_lower a = true).
  { destruct H as [[[[H | H] | H] | H] | H]; rewrite H;
      eexists; split; reflexivity. }
  destruct Hl as (a & Hl & Ha).
  destruct u as [ | c1 [ | c2 [ | c3 r]]]; try discriminate.
  exists c1, c2. split; [ reflexivity | ]. split; [ | tauto ].
  apply lower_char_letter. cbn in Hl. injection Hl as H1 _. rewrite H1. exact Ha.
Qed.

Lemma unit_multiplier_map (u : string) :
  is_unit_token u = true ->
  entry_number (map (toLowerCase u)) = of_Z (2 ^ unit_exponent u).
Proof.
  intros H. destruct (unit_token_inv u H) as (c1 & c2 & _ & _ & Hl).
  unfold unit_exponent. cbv zeta.
  destruct Hl as [Hl | [Hl | [Hl | [Hl | Hl]]]]; rewrite Hl; reflexivity.
Qed.

Lemma is_digits_inv (s : string) :
  is_digits s = true ->
  all_chars is_digit s = true
  /\ exists c r, s = String c r /\ is_digit c = true.
Proof.
  unfold is_digits. intros H. apply andb_true_iff in H as [H1 H2].
  split; [ assumption | ].
  destruct s as [ | c r]; [ discriminate | ].
  exists c, r. split; [ reflexivity | ].
  cbn in H2. apply andb_true_iff in H2 as [H2 _]. exact H2.
Qed.

Lemma unit_token_head (u : string) :
  is_unit_token u = true -> head_is_letter u = true.
Proof.
  intros Hu. destruct (unit_token_inv u Hu) as (c1 & c2 & -> & Hc1 & _).
  exact Hc1.
Qed.

Lemma head_is_letter_inv (u : string) :
  head_is_letter u = true -> exists c r, u = String c r /\ is_letter c = true.
Proof.
  destruct u as [ | c r]; [ discriminate | ].
  intros H. exists c, r. split; [ reflexivity | exact H ].
Qed.

(** The head of the text after the integer digits of a numeral. *)
Lemma head_after_digits (fp : option string) (sp u : string) :
  all_chars (fun c => code c =? 32) sp = true -> head_is_letter u = true ->
  head_fails is_digit (fraction_text fp ++ sp ++ u) = true.
Proof.
  intros Hsp Hu. destruct fp as [f | ]; [ reflexivity | ].
  cbn [fraction_text append].
  destruct sp as [ | c r]; cbn [append].
  - destruct (head_is_letter_inv u Hu) as (c1 & r1 & -> & Hc1).
    cbn. destruct (letter_facts c1 Hc1) as (-> & _). reflexivity.
  - cbn in Hsp |- *. apply andb_true_iff in Hsp as [Hc _].
    apply Z.eqb_eq in Hc. unfold is_digit. rewrite Hc. reflexivity.
Qed.

Lemma head_after_fraction (sp u : string) :
  all_chars (fun c => code c =? 32) sp = true -> head_is_letter u = true ->
  head_fails is_digit (sp ++ u) = true
  /\ head_fails (fun c => code c =? 46) (sp ++ u) = true
  /\ sp ++ u <> "".
Proof.
  intros Hsp Hu.
  destruct (head_is_letter_inv u Hu) as (c1 & r1 & -> & Hc1).
  destruct (letter_facts c1 Hc1) as (Hd & _ & Hp & _).
  destruct sp as [ | c r]; cbn [append head_fails].
  - rewrite Hd, Hp. repeat split. discriminate.
  - cbn in Hsp. apply andb_true_iff in Hsp as [Hc _].
    apply Z.eqb_eq in Hc. unfold is_digit. rewrite Hc. repeat split. discriminate.
Qed.

(** The last piece of the pattern sees the spaces and then the text [u]. *)
Lemma match_unit_spaces (sp u : string) :
  all_chars (fun c => code c =? 32) sp = true -> head_is_letter u = true ->
  match_unit (sp ++ u) = if is_unit_token u then Some u else None.
Proof.
  intros Hsp Hu. unfold match_unit.
  rewrite (span_app _ sp u Hsp); [ reflexivity | ].
  destruct (head_is_letter_inv u Hu) as (c1 & r1 & -> & Hc1).
  destruct (letter_facts c1 Hc1) as (_ & Hs & _). cbn. rewrite Hs. reflexivity.
Qed.

Lemma match_numeral_grammar (ip : string) (fp : option string) (sp u : string) :
  is_digits ip = true -> is_fraction fp = true ->
  all_chars (fun c => code c =? 32) sp = true -> head_is_letter u = true ->
  match_numeral (ip ++ fraction_text fp ++ sp ++ u)
  = Some (ip ++ fraction_text fp, sp ++ u).
Proof.
  intros Hip Hfp Hsp Hu.
  destruct (is_digits_inv ip Hip) as (Hall & c & r & -> & Hc).
  unfold match_numeral.
  rewrite (span_app is_digit _ _ Hall (head_after_digits fp sp u Hsp Hu)).
  cbn [is_empty].
  destruct (head_after_fraction sp u Hsp Hu) as (H1 & H2 & H3).
  destruct fp as [f | ].
  - cbn [fraction_text append]. change (code "." =? 46) with true. cbv iota.
    destruct (is_digits_inv f Hfp) as (Hf & c' & r' & -> & Hc').
    rewrite (span_app is_digit _ _ Hf H1). reflexivity.
  - cbn [fraction_text append]. rewrite app_empty_r.
    destruct (sp ++ u) as [ | c' r']; [ congruence | ].
    cbn in H2. apply negb_true_iff in H2. rewrite H2. reflexivity.
Qed.

Lemma match_sign_grammar (sg : option bool) (ip rest : string) :
  is_digits ip = true ->
  match_sign (sign_text sg ++ ip ++ rest) = (sign_text sg, ip ++ rest).
Proof.
  intros Hip. destruct sg as [[ | ] | ]; try reflexivity.
  destruct (is_digits_inv ip Hip) as (_ & c & r & -> & Hc).
  destruct (digit_facts c Hc) as (_ & _ & Hm & Hp & _).
  cbn [sign_text append match_sign]. rewrite Hm, Hp. reflexivity.
Qed.

(** The strict pattern on a numeral followed by spaces and a text that
    starts with a letter: it matches exactly when the text is a unit
    token. *)
Lemma parseRegExp_numeral (sg : option bool) (ip : string) (fp : option string)
      (sp u : string) :
  is_digits ip = true -> is_fraction fp = true ->
  all_chars (fun c => code c =? 32) sp = true -> head_is_letter u = true ->
  parseRegExp_exec (sign_text sg ++ ip ++ fraction_text fp ++ sp ++ u)
  = if is_unit_token u
    then Some (sign_text sg ++ ip ++ fraction_text fp, u)
    else None.
Proof.
  intros Hip Hfp Hsp Hu. unfold parseRegExp_exec.
  rewrite (match_sign_grammar sg ip _ Hip).
  rewrite (match_numeral_grammar ip fp sp u Hip Hfp Hsp Hu).
  rewrite (match_unit_spaces sp u Hsp Hu).
  destruct (is_unit_token u); reflexivity.
Qed.

Lemma parseRegExp_grammar (sg : option bool) (ip : string) (fp : option string)
      (sp u : string) :
  is_digits ip = true -> is_fraction fp = true ->
  all_chars (fun c => code c =? 32) sp = true -> is_unit_token u = true ->
  parseRegExp_exec (sign_text sg ++ ip ++ fraction_text fp ++ sp ++ u)
  = Some (sign_text sg ++ ip ++ fraction_text fp, u).
Proof.
  intros Hip Hfp Hsp Hu.
  rewrite (parseRegExp_numeral sg ip fp sp u Hip Hfp Hsp (unit_token_head u Hu)).
  rewrite Hu. reflexivity.
Qed.

Lemma prefix_Infinity_digit (c : ascii) (r : string) :
  is_digit c = true -> prefix "Infinity" (String c r) = false.
Proof.
  intros Hc. cbn [prefix].
  destruct (ascii_dec "I" c) as [<- | ]; [ discriminate | reflexivity ].
Qed.

Lemma parseFloat_grammar (sg : option bool) (ip : string) (fp : option string) :
  is_digits ip = true -> is_fraction fp = true ->
  parseFloat (sign_text sg ++ ip ++ fraction_text fp)
  = round_Q (is_negative sg) (digits_val 0 (ip ++ fraction_digits fp))
            (10 ^ Z.of_nat (length (fraction_digits fp))).
Proof.
  intros Hip Hfp.
  destruct (is_digits_inv ip Hip) as (Hall & c & r & Eip & Hc).
  destruct (digit_facts c Hc) as (_ & _ & Hm & Hp & Hsp).
  assert (Hs : take_sign (snd (span is_space
                 (sign_text sg ++ ip ++ fraction_text fp)))
               = (is_negative sg, ip ++ fraction_text fp)).
  { destruct sg as [[ | ] | ]; try reflexivity.
    subst ip. cbn [sign_text append span]. rewrite Hsp.
    cbn [snd take_sign]. rewrite Hm, Hp. reflexivity. }
  unfold parseFloat. rewrite Hs.
  assert (Hpre : prefix "Infinity" (ip ++ fraction_text fp) = false)
    by (subst ip; apply prefix_Infinity_digit; assumption).
  rewrite Hpre.
  assert (Hhead : head_fails is_digit (fraction_text fp) = true)
    by (destruct fp; reflexivity).
  rewrite (span_app is_digit ip _ Hall Hhead).
  destruct fp as [f | ]; cbn [fraction_text fraction_digits].
  - change (code "." =? 46) with true. cbv iota.
    destruct (is_digits_inv f Hfp) as (Hf & c' & r' & Ef & Hc').
    rewrite <- (app_empty_r f) at 1.
    rewrite (span_app is_digit f "" Hf eq_refl).
    replace (is_empty ip && is_empty f) with false by (subst ip; reflexivity).
    cbn [take_exponent]. rewrite digits_val_app.
    unfold ten_pow_ratio.
    replace (0 <=? 0 - Z.of_nat (length f)) with false
      by (symmetry; apply Z.leb_gt; subst f; cbn [length]; lia).
    f_equal. f_equal. lia.
  - replace (is_empty ip && is_empty "") with false by (subst ip; reflexivity).
    cbn [take_exponent length]. rewrite app_empty_r.
    unfold ten_pow_ratio. cbn [Z.of_nat Z.sub Z.leb Z.compare Z.opp].
    rewrite Z.pow_0_r, Z.mul_1_r. reflexivity.
Qed.

Lemma of_Z_pow2 (k : Z) : 0 <= k -> of_Z (2 ^ k) = Fin false 1 k.
Proof.
  intros Hk. unfold of_Z.
  assert (0 < 2 ^ k) by pow_pos.
  replace (2 ^ k <? 0) with false by (symmetry; apply Z.ltb_ge; lia).
  rewrite Z.abs_eq by lia.
  rewrite <- (Z.mul_1_l (2 ^ k)). rewrite norm_shift by (reflexivity || lia).
  reflexivity.
Qed.

Lemma of_Z_signed (neg : bool) (a : Z) :
  0 < a -> of_Z (if neg then - a else a) = norm neg a 0.
Proof.
  intros Ha. unfold of_Z. destruct neg.
  - replace (- a <? 0) with true by (symmetry; apply Z.ltb_lt; lia).
    rewrite Z.abs_neq by lia. f_equal. lia.
  - replace (a <? 0) with false by (symmetry; apply Z.ltb_ge; lia).
    rewrite Z.abs_eq by lia. reflexivity.
Qed.

Lemma odd_mod_pow2 (m j : Z) :
  Z.odd m = true -> 0 < j -> m mod 2 ^ j <> 0.
Proof.
  intros Hodd Hj Hmod.
  apply Z.mod_divide in Hmod; [ | apply Z.pow_nonzero; lia ].
  destruct Hmod as [c Hc].
  replace j with (Z.succ (j - 1)) in Hc by lia.
  rewrite Z.pow_succ_r in Hc by lia.
  rewrite Hc in Hodd. replace (c * (2 * 2 ^ (j - 1))) with (2 * (c * 2 ^ (j - 1))) in Hodd by ring.
  rewrite Z.odd_mul in Hodd. discriminate.
Qed.

(** The floor of the product of a power of two and a double is the exact
    one whenever the product is below [2^1024]. *)
Lemma floor_mul_pow2 (k : Z) (neg : bool) (m : N) (e : Z) :
  0 <= k -> is_double (Fin neg m e) = true ->
  Z.of_N m * 2 ^ Z.max 0 (e + k) < 2 ^ 1024 ->
  Math_floor (num_mul (of_Z (2 ^ k)) (Fin neg m e))
  = number_of_floor neg (floor_scaled (signed neg m) (e + k)).
Proof.
  intros Hk Hx Hmax. rewrite (of_Z_pow2 k Hk).
  apply is_double_Fin in Hx.
  destruct Hx as [[-> ->] | (Hodd & Hm & He & _)].
  - cbn [num_mul xorb]. unfold round_Q. cbn [Z.of_N Z.mul Z.eqb].
    unfold floor_scaled. cbn [signed Z.of_N Z.opp].
    replace (0 <=? 0 + k) with true by (symmetry; apply Z.leb_le; lia).
    destruct neg; reflexivity.
  - cbn [num_mul xorb].
    rewrite (round_Q_exact neg _ _ (Z.of_N m) (e + k));
      [ | pow_pos | lia | assumption | lia | lia | assumption | ].
    2:{ change (Z.of_N 1) with 1. rewrite Z.mul_1_l.
        replace (k + e) with (e + k) by lia. ring. }
    rewrite N2Z.id. unfold Math_floor, floor_scaled, number_of_floor.
    destruct (0 <=? e + k) eqn:Hs.
    + apply Z.leb_le in Hs.
      assert (Hpos : 0 < Z.of_N m * 2 ^ (e + k))
        by (apply Z.mul_pos_pos; [ lia | pow_pos ]).
      replace (signed neg m * 2 ^ (e + k))
        with (if neg then - (Z.of_N m * 2 ^ (e + k)) else Z.of_N m * 2 ^ (e + k))
        by (unfold signed; destruct neg; ring).
      replace ((if neg then - (Z.of_N m * 2 ^ (e + k)) else Z.of_N m * 2 ^ (e + k)) =? 0)
        with false by (symmetry; apply Z.eqb_neq; destruct neg; lia).
      rewrite of_Z_signed by assumption.
      rewrite norm_scale by lia. rewrite Z.add_0_l. reflexivity.
    + apply Z.leb_gt in Hs.
      set (j := - (e + k)) in *.
      assert (Hj : 0 < j) by (unfold j; lia).
      assert (H2j : 0 < 2 ^ j) by pow_pos.
      pose proof (odd_mod_pow2 (Z.of_N m) j Hodd Hj) as Hmod.
      replace (Z.of_N m mod 2 ^ j =? 0) with false
        by (symmetry; apply Z.eqb_neq; assumption).
      pose proof (Z.div_mod (Z.of_N m) (2 ^ j) ltac:(lia)) as Hdm.
      pose proof (Z.mod_pos_bound (Z.of_N m) (2 ^ j) H2j) as Hmb.
      assert (Ha : 0 <= Z.of_N m / 2 ^ j) by (apply Z.div_pos; lia).
      destruct neg; cbn [andb negb signed].
      * assert (Hneg : - Z.of_N m / 2 ^ j = - (Z.of_N m / 2 ^ j + 1)).
        { symmetry. apply (Z.div_unique_pos _ _ _ (2 ^ j - Z.of_N m mod 2 ^ j)); lia. }
        rewrite Hneg.
        replace (- (Z.of_N m / 2 ^ j + 1) =? 0) with false
          by (symmetry; apply Z.eqb_neq; lia).
        rewrite (of_Z_signed true) by lia. reflexivity.
      * destruct (Z.eq_dec (Z.of_N m / 2 ^ j) 0) as [H0 | H0].
        -- rewrite H0. reflexivity.
        -- replace (Z.of_N m / 2 ^ j =? 0) with false
             by (symmetry; apply Z.eqb_neq; assumption).
           rewrite (of_Z_signed false) by lia. reflexivity.
Qed.

Lemma unit_exponent_nonneg (u : string) : 0 <= unit_exponent u.
Proof.
  unfold unit_exponent. cbv zeta.
  repeat match goal with |- context [if ?b then _ else _] => destruct b end; lia.
Qed.

(** ** Decimal digits *)

Lemma digit_char_is_digit (d : Z) :
  0 <= d <= 9 -> is_digit (digit_char d) = true /\ digit_val (digit_char d) = d.
Proof.
  intros Hd. unfold is_digit, digit_val, digit_char, code, char.
  rewrite N_ascii_embedding by lia.
  rewrite Z2N.id by lia. split; [ | lia ].
  apply andb_true_iff. split; apply Z.leb_le; lia.
Qed.

Lemma to_digits_aux_app (fuel : nat) (n : Z) (acc : string) :
  to_digits_aux fuel n acc = to_digits_aux fuel n "" ++ acc.
Proof.
  revert n acc. induction fuel as [ | k IH]; intros n acc; cbn [to_digits_aux].
  - reflexivity.
  - destruct (n <? 10); [ reflexivity | ].
    rewrite (IH (n / 10) (String _ acc)), (IH (n / 10) (String _ "")).
    rewrite app_assoc_s. reflexivity.
Qed.

Lemma to_digits_aux_spec (k : nat) (n : Z) :
  0 <= n < 10 ^ Z.of_nat (S k) ->
  all_chars is_digit (to_digits_aux (S k) n "") = true
  /\ digits_val 0 (to_digits_aux (S k) n "") = n
  /\ is_empty (to_digits_aux (S k) n "") = false.
Proof.
  revert n. induction k as [ | k IH]; intros n Hn;
    rewrite Nat2Z.inj_succ, Z.pow_succ_r in Hn by lia;
    pose proof (Z.mod_pos_bound n 10 ltac:(lia)) as Hmod;
    destruct (digit_char_is_digit (n mod 10) ltac:(lia)) as [Hd Hv];
    cbn [to_digits_aux]; destruct (n <? 10) eqn:Hlt;
    try (apply Z.ltb_lt in Hlt; cbn [all_chars digits_val is_empty];
         rewrite Hd, Hv, Z.mod_small by lia; repeat split).
  - apply Z.ltb_ge in Hlt. cbn in Hn. lia.
  - apply Z.ltb_ge in Hlt.
    assert (Hq : 0 <= n / 10 < 10 ^ Z.of_nat (S k)).
    { split; [ apply Z.div_pos; lia | ].
      apply Z.div_lt_upper_bound; lia. }
    destruct (IH (n / 10) Hq) as (H1 & H2 & H3).
    change (if n / 10 <? 10
            then String (digit_char (n / 10 mod 10)) (String (digit_char (n mod 10)) "")
            else to_digits_aux k (n / 10 / 10)
                   (String (digit_char (n / 10 mod 10)) (String (digit_char (n mod 10)) "")))
      with (to_digits_aux (S k) (n / 10) (String (digit_char (n mod 10)) "")).
    rewrite to_digits_aux_app, all_chars_app, digits_val_app, H1, H2.
    cbn [all_chars digits_val]. rewrite Hd, Hv.
    repeat split.
    + pose proof (Z.div_mod n 10 ltac:(lia)). lia.
    + destruct (to_digits_aux (S k) (n / 10) ""); [ discriminate | reflexivity ].
Qed.

Lemma to_digits_spec (n : Z) :
  0 <= n ->
  all_chars is_digit (to_digits n) = true
  /\ digits_val 0 (to_digits n) = n
  /\ is_empty (to_digits n) = false.
Proof.
  intros Hn. unfold to_digits. apply to_digits_aux_spec. split; [ assumption | ].
  destruct (Z.eq_dec n 0) as [-> | Hn0]; [ reflexivity | ].
  destruct (Z.log2_spec n ltac:(lia)) as [_ Hl].
  pose proof (Z.log2_nonneg n) as Hl0.
  rewrite Nat2Z.inj_succ, Z2Nat.id by assumption.
  eapply Z.lt_le_trans; [ exact Hl | ].
  apply Z.pow_le_mono_l. lia.
Qed.

(** ** replace_decimals on a text without a point *)

Lemma replace_decimals_no_point (str : string) :
  all_chars (fun c => negb (is_point c)) str = true -> replace_decimals str = str.
Proof.
  induction str as [ | c r IH]; intros H; cbn [replace_decimals]; [ reflexivity | ].
  cbn [all_chars] in H. apply andb_true_iff in H as [Hc Hr].
  apply negb_true_iff in Hc. unfold is_point in Hc. rewrite Hc.
  rewrite (IH Hr). reflexivity.
Qed.

Lemma digits_no_point (s : string) :
  all_chars is_digit s = true -> all_chars (fun c => negb (is_point c)) s = true.
Proof.
  induction s as [ | c r IH]; intros H; [ reflexivity | ].
  cbn [all_chars] in H |- *. apply andb_true_iff in H as [Hc Hr].
  destruct (digit_facts c Hc) as (_ & Hp & _).
  change (code c =? 46) with (is_point c) in Hp.
  rewrite Hp, (IH Hr). reflexivity.
Qed.

Lemma minus_no_point (neg : bool) (m : N) :
  all_chars (fun c => negb (is_point c)) (minus_text neg m) = true.
Proof. unfold minus_text. destruct (neg && negb (m =? 0)%N); reflexivity. Qed.

(** ** The unit chosen from the magnitude *)

Lemma auto_unit_entry (mag : number) :
  entry_number (map (toLowerCase (auto_unit mag))) = of_Z (2 ^ auto_exponent mag).
Proof.
  unfold auto_unit, auto_exponent.
  repeat match goal with |- context [if ?b then _ else _] => destruct b end;
    reflexivity.
Qed.

Lemma auto_exponent_cases (mag : number) :
  auto_exponent mag = 0
  \/ (0 < auto_exponent mag <= 50
      /\ num_ge mag (of_Z (2 ^ auto_exponent mag)) = true).
Proof.
  unfold auto_exponent.
  destruct (num_ge mag map_pb) eqn:H5; [ right; split; [ lia | exact H5 ] | ].
  destruct (num_ge mag map_tb) eqn:H4; [ right; split; [ lia | exact H4 ] | ].
  destruct (num_ge mag map_gb) eqn:H3; [ right; split; [ lia | exact H3 ] | ].
  destruct (num_ge mag map_mb) eqn:H2; [ right; split; [ lia | exact H2 ] | ].
  destruct (num_ge mag map_kb) eqn:H1; [ right; split; [ lia | exact H1 ] | ].
  left. reflexivity.
Qed.

Lemma num_ge_pow2 (m : N) (e k : Z) :
  0 <= k -> num_ge (Fin false m e) (of_Z (2 ^ k)) = true ->
  2 ^ (k - Z.min e k) <= Z.of_N m * 2 ^ (e - Z.min e k).
Proof.
  intros Hk H. rewrite of_Z_pow2 in H by assumption.
  cbn [num_ge signed] in H. unfold dy_compare in H.
  change (Z.of_N 1) with 1 in H. rewrite Z.mul_1_l in H.
  destruct (_ ?= _) eqn:Hc; try discriminate.
  - apply Z.compare_eq in Hc. lia.
  - apply Z.compare_gt_iff in Hc. lia.
Qed.

(** The quotient of a double by the multiplier of its unit is exact. *)
Lemma quotient_exact (neg : bool) (m : N) (e : Z) :
  is_double (Fin neg m e) = true ->
  num_div (Fin neg m e)
          (entry_number (map (toLowerCase (auto_unit (Fin false m e)))))
  = Fin neg m (e - auto_exponent (Fin false m e)).
Proof.
  intros Hx. rewrite auto_unit_entry.
  set (k := auto_exponent (Fin false m e)).
  assert (Hk : 0 <= k <= 50)
    by (destruct (auto_exponent_cases (Fin false m e)) as [H | [H _]]; fold k in H; lia).
  rewrite of_Z_pow2 by lia.
  apply is_double_Fin in Hx.
  destruct Hx as [[-> ->] | (Hodd & Hm & He & Hmax)].
  - assert (k = 0) by (unfold k; reflexivity). rewrite H.
    destruct neg; reflexivity.
  - cbn [num_div]. change (1 =? 0)%N with false. cbv iota.
    rewrite xorb_false_r.
    rewrite <- (N2Z.id m) at 2.
    apply round_Q_exact;
      [ apply Z.mul_pos_pos; [ reflexivity | pow_pos ]
      | lia | assumption | lia | | | ].
    + destruct (auto_exponent_cases (Fin false m e)) as [H | [H1 H2]];
        [ fold k in H; lia | ].
      fold k in H1, H2. apply num_ge_pow2 in H2; [ | lia ].
      destruct (Z_le_gt_dec k e) as [ | Hgt]; [ lia | ].
      replace (Z.min e k) with e in H2 by lia.
      rewrite Z.sub_diag, Z.pow_0_r, Z.mul_1_r in H2.
      destruct (Z_le_gt_dec (k - e) 52) as [ | Hbig]; [ lia | exfalso ].
      assert (2 ^ 53 <= 2 ^ (k - e)) by (apply Z.pow_le_mono_r; lia). lia.
    + eapply Z.le_lt_trans; [ | exact Hmax ].
      apply Z.mul_le_mono_nonneg_l; [ lia | ].
      apply Z.pow_le_mono_r; lia.
    + change (Z.of_N 1) with 1. rewrite Z.mul_1_l.
      replace (Z.max 0 (- (e - k))) with (Z.max 0 (k - e)) by lia. ring.
Qed.

Lemma half_up_nearest (m e : Z) :
  0 <= m -> nearest_integer (half_up_scaled m e 0) m e.
Proof.
  intros Hm. unfold nearest_integer, half_up_scaled.
  destruct (0 <=? e) eqn:He; [ rewrite Z.pow_0_r; ring | ].
  apply Z.leb_gt in He.
  rewrite Z.pow_0_r, Z.mul_1_r.
  replace (1 - e) with (Z.succ (- e)) by lia.
  rewrite Z.pow_succ_r by lia.
  assert (H2 : 0 < 2 ^ (- e)) by pow_pos.
  pose proof (Z.div_mod (2 * m + 2 ^ (- e)) (2 * 2 ^ (- e)) ltac:(lia)) as Hdm.
  pose proof (Z.mod_pos_bound (2 * m + 2 ^ (- e)) (2 * 2 ^ (- e)) ltac:(lia)) as Hmb.
  nia.
Qed.

Lemma half_up_nonneg (m e f : Z) : 0 <= m -> 0 <= f -> 0 <= half_up_scaled m e f.
Proof.
  intros Hm Hf. unfold half_up_scaled.
  assert (0 < 10 ^ f) by pow_pos.
  destruct (0 <=? e) eqn:He.
  - apply Z.leb_le in He.
    assert (0 < 2 ^ e) by pow_pos. nia.
  - apply Z.leb_gt in He.
    assert (0 < 2 ^ (- e)) by pow_pos.
    assert (0 < 2 ^ (1 - e)) by pow_pos.
    apply Z.div_pos; nia.
Qed.

(** ** The digits written by toFixed(2) *)

Lemma digits_val_zeros (j : nat) (acc : Z) :
  digits_val acc (repeat_char "0" j) = acc * 10 ^ Z.of_nat j.
Proof.
  revert acc. induction j as [ | j IH]; intros acc.
  - cbn. lia.
  - cbn [repeat_char digits_val]. rewrite IH.
    change (digit_val "0") with 0.
    rewrite Nat2Z.inj_succ, Z.pow_succ_r by lia. ring.
Qed.

Lemma all_chars_zeros (j : nat) : all_chars is_digit (repeat_char "0" j) = true.
Proof. induction j as [ | j IH]; [ reflexivity | exact IH ]. Qed.

Lemma length_zeros (j : nat) : length (repeat_char "0" j) = j.
Proof. induction j as [ | j IH]; cbn; [ reflexivity | rewrite IH; reflexivity ]. Qed.

Lemma split_at_spec (n : nat) (t : string) :
  (n <= length t)%nat ->
  t = fst (split_at n t) ++ snd (split_at n t)
  /\ length (fst (split_at n t)) = n.
Proof.
  revert t. induction n as [ | n IH]; intros t Hn.
  - destruct t; split; reflexivity.
  - destruct t as [ | c r]; [ cbn in Hn; lia | ].
    cbn [split_at]. cbn in Hn.
    destruct (IH r ltac:(lia)) as [H1 H2].
    destruct (split_at n r) as [a b]; cbn [fst snd] in *.
    split; [ cbn; f_equal; exact H1 | cbn; f_equal; exact H2 ].
Qed.

(** The text [toFixed] builds from the digits of [K] for two fraction
    digits: an integer part and two digits. *)
Lemma fixed2_split (K : Z) :
  0 <= K ->
  let ds := to_digits K in
  let ds' := repeat_char "0" (2 + 1 - length ds) ++ ds in
  exists a d1 d2,
    split_at (length ds' - 2) ds' = (a, String d1 (String d2 ""))
    /\ is_digits a = true /\ is_digit d1 = true /\ is_digit d2 = true
    /\ digits_val 0 a * 100 + digit_val d1 * 10 + digit_val d2 = K.
Proof.
  intros HK ds ds'.
  destruct (to_digits_spec K HK) as (Hd1 & Hd2 & Hd3). fold ds in Hd1, Hd2, Hd3.
  assert (Hall : all_chars is_digit ds' = true)
    by (unfold ds'; rewrite all_chars_app, all_chars_zeros, Hd1; reflexivity).
  assert (Hval : digits_val 0 ds' = K).
  { unfold ds'. rewrite digits_val_app, digits_val_zeros. cbn [Z.mul]. exact Hd2. }
  assert (Hlen : (3 <= length ds')%nat).
  { unfold ds'. rewrite length_app, length_zeros. lia. }
  clearbody ds'. clear Hd1 Hd2 Hd3. clearbody ds.
  destruct (split_at_spec (length ds' - 2) ds' ltac:(lia)) as [Hs1 Hs2].
  destruct (split_at (length ds' - 2) ds') as [a b]; cbn [fst snd] in *.
  assert (Hb : length b = 2%nat).
  { pose proof (f_equal length Hs1) as Hl. rewrite length_app in Hl. lia. }
  destruct b as [ | d1 [ | d2 [ | d3 r]]]; try discriminate.
  exists a, d1, d2. split; [ reflexivity | ].
  rewrite Hs1, all_chars_app in Hall. apply andb_true_iff in Hall as [Ha Hb'].
  cbn [all_chars] in Hb'. apply andb_true_iff in Hb' as [Hb1 Hb2].
  apply andb_true_iff in Hb2 as [Hb2 _].
  repeat split; try assumption.
  - unfold is_digits. rewrite Ha.
    destruct a; [ cbn in Hs2; lia | reflexivity ].
  - rewrite Hs1, digits_val_app in Hval. cbn [digits_val] in Hval. lia.
Qed.

(** ** replace_decimals on the text of toFixed *)

Lemma replace_decimals_skip (p r : string) :
  all_chars (fun c => negb (is_point c)) p = true ->
  replace_decimals (p ++ String "." r)
  = p ++ match decimals_match r with
         | Some t => t
         | None => String "." (replace_decimals r)
         end.
Proof.
  induction p as [ | c p IH]; intros H.
  - reflexivity.
  - cbn [all_chars] in H. apply andb_true_iff in H as [Hc Hp].
    apply negb_true_iff in Hc. unfold is_point in Hc.
    cbn [append replace_decimals]. rewrite Hc, (IH Hp). reflexivity.
Qed.

Lemma digit_zero_val (d : ascii) : (code d =? 48) = true -> digit_val d = 0.
Proof. intros H. apply Z.eqb_eq in H. unfold digit_val. lia. Qed.

(** The three outcomes of stripping two fraction digits. *)
Lemma replace_decimals_two (p : string) (d1 d2 : ascii) :
  all_chars (fun c => negb (is_point c)) p = true ->
  is_digit d1 = true -> is_digit d2 = true ->
  exists fp,
    replace_decimals (p ++ "." ++ String d1 (String d2 "")) = p ++ fraction_text fp
    /\ is_fraction fp = true
    /\ digits_val 0 (fraction_digits fp) * 100
       = (digit_val d1 * 10 + digit_val d2)
         * 10 ^ Z.of_nat (length (fraction_digits fp))
    /\ (digit_val d1 * 10 + digit_val d2 = 0 -> fp = None).
Proof.
  intros Hp H1 H2.
  change ("." ++ String d1 (String d2 "")) with (String "." (String d1 (String d2 ""))).
  rewrite (replace_decimals_skip p _ Hp).
  pose proof (digit_val_range d1 H1) as R1. pose proof (digit_val_range d2 H2) as R2.
  unfold decimals_match. cbn [all_chars span].
  destruct (code d1 =? 48) eqn:Z1; destruct (code d2 =? 48) eqn:Z2;
    cbn [andb negb is_empty all_chars span fst snd].
  - exists None. cbn [fraction_text fraction_digits].
    rewrite (digit_zero_val d1 Z1), (digit_zero_val d2 Z2).
    repeat split; reflexivity.
  - exists (Some (String d1 (String d2 ""))).
    rewrite (replace_decimals_no_point (String d1 (String d2 ""))).
    + repeat split.
      * unfold is_fraction, is_digits. cbn. rewrite H1, H2. reflexivity.
      * cbn [fraction_digits digits_val length]. change (10 ^ Z.of_nat 2) with 100. lia.
      * intros H0. apply Z.eqb_neq in Z2. unfold digit_val in *. lia.
    + apply digits_no_point. cbn. rewrite H1, H2. reflexivity.
  - try rewrite Z2. cbn [andb negb is_empty all_chars].
    exists (Some (String d1 "")). repeat split.
    + unfold is_fraction, is_digits. cbn. rewrite H1. reflexivity.
    + cbn [fraction_digits digits_val length]. rewrite (digit_zero_val d2 Z2).
      change (10 ^ Z.of_nat 1) with 10. lia.
    + intros H0. apply Z.eqb_neq in Z1. unfold digit_val in *. lia.
  - try rewrite Z2. cbn [andb negb is_empty all_chars].
    exists (Some (String d1 (String d2 ""))).
    rewrite (replace_decimals_no_point (String d1 (String d2 ""))).
    + repeat split.
      * unfold is_fraction, is_digits. cbn. rewrite H1, H2. reflexivity.
      * cbn [fraction_digits digits_val length]. change (10 ^ Z.of_nat 2) with 100. lia.
      * intros H0. apply Z.eqb_neq in Z1. unfold digit_val in *. lia.
    + apply digits_no_point. cbn. rewrite H1, H2. reflexivity.
Qed.

Lemma digits_val_acc (s : string) (acc : Z) :
  digits_val acc s = acc * 10 ^ Z.of_nat (length s) + digits_val 0 s.
Proof.
  revert acc. induction s as [ | c r IH]; intros acc.
  - cbn. lia.
  - cbn [digits_val length]. rewrite (IH (10 * acc + digit_val c)), (IH (10 * 0 + digit_val c)).
    rewrite Nat2Z.inj_succ, Z.pow_succ_r by lia. ring.
Qed.

Lemma pow10_pos (j : nat) : 0 < 10 ^ Z.of_nat j.
Proof. pow_pos. Qed.

(** ** format with the default options *)

Lemma toFixed_two (neg : bool) (m : N) (e : Z) :
  ge_1e21 (Z.of_N m) e = false ->
  exists a d1 d2,
    toFixed (Fin neg m e) (of_Z 2)
    = Return (minus_text neg m ++ a ++ "." ++ String d1 (String d2 ""))
    /\ is_digits a = true /\ is_digit d1 = true /\ is_digit d2 = true
    /\ digits_val 0 a * 100 + digit_val d1 * 10 + digit_val d2
       = half_up_scaled (Z.of_N m) e 2.
Proof.
  intros Hsmall.
  pose proof (half_up_nonneg (Z.of_N m) e 2 ltac:(lia) ltac:(lia)) as HK.
  destruct (fixed2_split _ HK) as (a & d1 & d2 & Hs & Ha & H1 & H2 & Hv).
  exists a, d1, d2. split; [ | repeat split; assumption ].
  unfold toFixed. change (ToIntegerOrInfinity (of_Z 2)) with (Some 2).
  change ((2 <? 0) || (100 <? 2)) with false. cbv iota.
  rewrite Hsmall. change (2 =? 0) with false. cbv iota.
  change (Z.to_nat 2) with 2%nat. cbv zeta in Hs |- *. rewrite Hs. reflexivity.
Qed.

Lemma format_default_text (neg : bool) (m : N) (e : Z) :
  is_double (Fin neg m e) = true ->
  let k := auto_exponent (Fin false m e) in
  let K := half_up_scaled (Z.of_N m) (e - k) 2 in
  ge_1e21 (Z.of_N m) (e - k) = false ->
  exists a fp,
    format (JNum (Fin neg m e)) None
    = Return (JStr (minus_text neg m ++ a ++ fraction_text fp
                               ++ auto_unit (Fin false m e)))
    /\ is_digits a = true /\ is_fraction fp = true
    /\ digits_val 0 (a ++ fraction_digits fp) * 100
       = K * 10 ^ Z.of_nat (length (fraction_digits fp))
    /\ (K mod 100 = 0 -> fp = None).
Proof.
  intros Hx k K Hsmall.
  destruct (toFixed_two neg m (e - k) Hsmall) as (a & d1 & d2 & Hfix & Ha & H1 & H2 & Hv).
  fold K in Hv.
  destruct (is_digits_inv a Ha) as (Hall & _).
  assert (Hp : all_chars (fun c => negb (is_point c)) (minus_text neg m ++ a) = true)
    by (rewrite all_chars_app, minus_no_point, (digits_no_point a Hall); reflexivity).
  destruct (replace_decimals_two _ d1 d2 Hp H1 H2) as (fp & Hrep & Hfp & Hfv & Hz).
  exists a, fp.
  pose proof (digit_val_range d1 H1) as R1. pose proof (digit_val_range d2 H2) as R2.
  split; [ | split; [ exact Ha | split; [ exact Hfp | split ] ] ].
  - rewrite format_unfold. cbv zeta.
    change (resolve_unit None (Fin false m e)) with (auto_unit (Fin false m e)).
    rewrite (quotient_exact neg m e Hx). fold k.
    change (decimalPlaces_of None) with (of_Z 2). rewrite Hfix.
    change (fixedDecimals_of None) with false.
    change (string_option None opt_thousandsSeparator) with "".
    change (string_option None opt_unitSeparator) with "".
    cbn [is_empty]. cbv iota.
    rewrite <- (app_assoc_s (minus_text neg m) a), Hrep.
    rewrite !app_assoc_s. reflexivity.
  - rewrite digits_val_app, digits_val_acc.
    pose proof (pow10_pos (length (fraction_digits fp))). nia.
  - intros H0. apply Hz.
    assert (Hr : (digit_val d1 * 10 + digit_val d2) = K mod 100).
    { apply (Z.mod_unique_pos K 100 (digits_val 0 a)); lia. }
    lia.
Qed.

(** ** parse on the texts written by format *)

Lemma sign_text_minus (neg : bool) (m : N) :
  minus_text neg m
  = sign_text (if neg && negb (m =? 0)%N then Some true else None).
Proof. unfold minus_text. destruct (neg && negb (m =? 0)%N); reflexivity. Qed.

Lemma parse_unit_text (neg : bool) (a : string) (fp : option string) (u : string) :
  is_digits a = true -> is_fraction fp = true -> is_unit_token u = true ->
  parse (JStr (sign_text (if neg then Some true else None)
                 ++ a ++ fraction_text fp ++ u))
  = Return (JNum (Math_floor
      (num_mul (of_Z (2 ^ unit_exponent u))
         (round_Q neg (digits_val 0 (a ++ fraction_digits fp))
                  (10 ^ Z.of_nat (length (fraction_digits fp))))))).
Proof.
  intros Ha Hfp Hu. unfold parse.
  pose proof (parseRegExp_grammar (if neg then Some true else None) a fp "" u
                Ha Hfp eq_refl Hu) as Hre.
  cbn [append] in Hre. rewrite Hre.
  rewrite (parseFloat_grammar _ a fp Ha Hfp), (unit_multiplier_map u Hu).
  destruct neg; reflexivity.
Qed.

Lemma parse_bytes_text (neg : bool) (a : string) :
  is_digits a = true ->
  parse (JStr (sign_text (if neg then Some true else None) ++ a ++ "B"))
  = Return (JNum (round_Q neg (digits_val 0 a) 1)).
Proof.
  intros Ha.
  destruct (is_digits_inv a Ha) as (Hall & c & r & Ea & Hc).
  destruct (digit_facts c Hc) as (_ & _ & Hm & Hp & Hsp).
  assert (Hspan : span is_digit (a ++ "B") = (a, "B"))
    by (apply span_app; [ exact Hall | reflexivity ]).
  rewrite parse_fallback.
  - f_equal. f_equal. unfold parseInt10.
    assert (Hs : take_sign (snd (span is_space
                   (sign_text (if neg then Some true else None) ++ a ++ "B")))
                 = (neg, a ++ "B")).
    { destruct neg; [ reflexivity | ].
      subst a. cbn [sign_text append span]. rewrite Hsp.
      cbn [snd take_sign]. rewrite Hm, Hp. reflexivity. }
    rewrite Hs, Hspan. subst a. reflexivity.
  - unfold parseRegExp_exec.
    assert (Hs : match_sign (sign_text (if neg then Some true else None) ++ a ++ "B")
                 = (sign_text (if neg then Some true else None), a ++ "B")).
    { destruct neg; [ reflexivity | ].
      subst a. cbn [sign_text append match_sign]. rewrite Hm, Hp. reflexivity. }
    rewrite Hs. unfold match_numeral. rewrite Hspan.
    subst a. reflexivity.
Qed.

(** ** Integers as doubles *)

Lemma of_Z_cases (n : Z) :
  exists m e, of_Z n = Fin (n <? 0) m e /\ Z.abs n = Z.of_N m * 2 ^ e /\ 0 <= e.
Proof.
  unfold of_Z. destruct (Z.eq_dec n 0) as [-> | Hn].
  - exists 0%N, 0. repeat split; reflexivity || lia.
  - destruct (norm_pos_spec (n <? 0) (Z.abs n) 0 ltac:(lia)) as (o & j & -> & Ho & Hj & Hpos & _).
    exists (Z.to_N o), j. rewrite Z2N.id by lia. repeat split; try lia.
Qed.

Lemma small_quotient (m e k : Z) :
  0 <= m -> 0 <= e -> 0 <= k ->
  m * 2 ^ e < 10 ^ 21 * 2 ^ k -> ge_1e21 m (e - k) = false.
Proof.
  intros Hm He Hk H. unfold ge_1e21.
  destruct (0 <=? e - k) eqn:Hs.
  - apply Z.leb_le in Hs. apply Z.leb_gt.
    replace e with ((e - k) + k) in H by lia.
    rewrite Z.pow_add_r in H by lia.
    assert (0 < 2 ^ k) by pow_pos. nia.
  - apply Z.leb_gt in Hs. apply Z.leb_gt.
    replace k with ((- (e - k)) + e) in H by lia.
    rewrite Z.pow_add_r in H by lia.
    assert (0 < 2 ^ e) by pow_pos. nia.
Qed.

Lemma exact_hundredths (m e k : Z) :
  0 <= m -> 0 <= e -> 0 <= k ->
  (100 * (m * 2 ^ e)) mod 2 ^ k = 0 ->
  half_up_scaled m (e - k) 2 * 2 ^ Z.max 0 (k - e)
  = 100 * m * 2 ^ Z.max 0 (e - k).
Proof.
  intros Hm He Hk Hmod. unfold half_up_scaled.
  destruct (0 <=? e - k) eqn:Hs.
  - apply Z.leb_le in Hs.
    replace (Z.max 0 (k - e)) with 0 by lia.
    replace (Z.max 0 (e - k)) with (e - k) by lia.
    change (10 ^ 2) with 100. rewrite Z.pow_0_r. ring.
  - apply Z.leb_gt in Hs.
    replace (Z.max 0 (k - e)) with (k - e) by lia.
    replace (Z.max 0 (e - k)) with 0 by lia.
    rewrite Z.pow_0_r, Z.mul_1_r. change (10 ^ 2) with 100.
    replace (- (e - k)) with (k - e) by lia.
    replace (1 - (e - k)) with (Z.succ (k - e)) by lia.
    rewrite Z.pow_succ_r by lia.
    assert (H2j : 0 < 2 ^ (k - e)) by pow_pos.
    assert (H2e : 0 < 2 ^ e) by pow_pos.
    apply Z.mod_divide in Hmod; [ | lia ].
    destruct Hmod as [c Hc].
    replace k with ((k - e) + e) in Hc at 1 by lia.
    rewrite Z.pow_add_r in Hc by lia.
    assert (Hc' : 100 * m = c * 2 ^ (k - e)) by nia.
    assert (Hdiv : (2 * m * 100 + 2 ^ (k - e)) / (2 * 2 ^ (k - e)) = c).
    { symmetry. apply (Z.div_unique_pos _ _ _ (2 ^ (k - e))); lia. }
    rewrite Hdiv. lia.
Qed.

Lemma num_ge_integers (m : N) (e k : Z) :
  0 <= e -> 0 <= k ->
  num_ge (Fin false m e) (of_Z (2 ^ k)) = (2 ^ k <=? Z.of_N m * 2 ^ e).
Proof.
  intros He Hk. rewrite of_Z_pow2 by assumption.
  cbn [num_ge signed]. unfold dy_compare.
  change (Z.of_N 1) with 1. rewrite Z.mul_1_l.
  set (j := Z.min e k).
  assert (Hj : 0 <= j <= e /\ j <= k) by (unfold j; lia).
  clearbody j.
  assert (H2j : 0 < 2 ^ j) by pow_pos.
  replace (2 ^ k) with (2 ^ (k - j) * 2 ^ j)
    by (rewrite <- Z.pow_add_r by lia; f_equal; lia).
  replace (Z.of_N m * 2 ^ e) with (Z.of_N m * 2 ^ (e - j) * 2 ^ j)
    by (rewrite <- Z.mul_assoc, <- Z.pow_add_r by lia; do 2 f_equal; lia).
  destruct (_ ?= _) eqn:Hc; symmetry.
  - apply Z.compare_eq in Hc. apply Z.leb_le. rewrite Hc. lia.
  - apply Z.compare_lt_iff in Hc. apply Z.leb_gt.
    apply Z.mul_lt_mono_pos_r; assumption.
  - apply Z.compare_gt_iff in Hc. apply Z.leb_le.
    apply Z.mul_le_mono_nonneg_r; lia.
Qed.

Lemma auto_exponent_integer (m : N) (e : Z) :
  0 <= e ->
  auto_exponent (Fin false m e) = unit_exponent_of (Z.of_N m * 2 ^ e).
Proof.
  intros He. unfold auto_exponent, unit_exponent_of.
  change map_pb with (of_Z (2 ^ 50)). change map_tb with (of_Z (2 ^ 40)).
  change map_gb with (of_Z (2 ^ 30)). change map_mb with (of_Z (2 ^ 20)).
  change map_kb with (of_Z (2 ^ 10)).
  rewrite !num_ge_integers by lia. reflexivity.
Qed.

Lemma auto_unit_bytes (mag : number) :
  auto_exponent mag = 0 -> auto_unit mag = "B".
Proof.
  unfold auto_exponent, auto_unit.
  repeat match goal with |- context [if ?b then _ else _] => destruct b end;
    intros H; try discriminate; reflexivity.
Qed.

Lemma auto_unit_token (mag : number) :
  0 < auto_exponent mag ->
  is_unit_token (auto_unit mag) = true
  /\ unit_exponent (auto_unit mag) = auto_exponent mag.
Proof.
  unfold auto_exponent, auto_unit.
  repeat match goal with |- context [if ?b then _ else _] => destruct b end;
    intros H; try lia; split; reflexivity.
Qed.

Lemma mod_abs (x d : Z) : 0 < d -> x mod d = 0 -> Z.abs x mod d = 0.
Proof.
  intros Hd H. destruct (Z_le_gt_dec 0 x).
  - rewrite Z.abs_eq by lia. exact H.
  - rewrite Z.abs_neq by lia. apply Z.mod_opp_l_z; [ lia | exact H ].
Qed.

Lemma round_trip_exact (n : Z) :
  is_double (of_Z n) = true ->
  (100 * n) mod 2 ^ unit_exponent_of (Z.abs n) = 0 ->
  Z.abs n < 10 ^ 21 * 2 ^ unit_exponent_of (Z.abs n) ->
  round_trip n.
Proof.
  intros Hx Hmod Hlt.
  destruct (of_Z_cases n) as (m & e & Hof & Habs & He).
  rewrite Hof in Hx. unfold round_trip. rewrite Hof.
  rewrite Habs, <- (auto_exponent_integer m e He) in Hmod, Hlt.
  set (k := auto_exponent (Fin false m e)) in *.
  assert (Hk : 0 <= k <= 50)
    by (destruct (auto_exponent_cases (Fin false m e)) as [H | [H _]]; fold k in H; lia).
  assert (H2k : 0 < 2 ^ k) by pow_pos.
  assert (Hmod' : (100 * (Z.of_N m * 2 ^ e)) mod 2 ^ k = 0).
  { rewrite <- Habs. replace (100 * Z.abs n) with (Z.abs (100 * n)) by lia.
    apply mod_abs; assumption. }
  pose proof (small_quotient (Z.of_N m) e k ltac:(lia) He ltac:(lia) Hlt) as Hsmall.
  pose proof (exact_hundredths (Z.of_N m) e k ltac:(lia) He ltac:(lia) Hmod') as HK.
  destruct (format_default_text (n <? 0) m e Hx Hsmall)
    as (a & fp & Hfmt & Ha & Hfp & Hval & Hz).
  fold k in Hval, Hz.
  set (K := half_up_scaled (Z.of_N m) (e - k) 2) in *.
  eexists. split; [ exact Hfmt | ].
  rewrite sign_text_minus.
  pose proof (pow10_pos (length (fraction_digits fp))) as HQ.
  pose proof Hx as Hd. apply is_double_Fin in Hd.
  destruct (auto_exponent_cases (Fin false m e)) as [H0 | [Hpos Hge]]; fold k in H0 || fold k in Hpos, Hge.
  - (* the unit is B *)
    rewrite (auto_unit_bytes _ H0). rewrite H0 in *.
    replace (Z.max 0 (0 - e)) with 0 in HK by lia.
    replace (Z.max 0 (e - 0)) with e in HK by lia.
    rewrite Z.pow_0_r, Z.mul_1_r in HK.
    assert (Hfp0 : fp = None).
    { apply Hz. rewrite HK, <- Z.mul_assoc, Z.mul_comm. apply Z.mod_mul. lia. }
    subst fp. cbn [fraction_text fraction_digits length append] in *.
    rewrite app_empty_r in Hval. change (10 ^ Z.of_nat 0) with 1 in Hval.
    rewrite parse_bytes_text by assumption.
    assert (Hv : digits_val 0 a = Z.of_N m * 2 ^ e) by lia.
    rewrite Hv. f_equal. f_equal.
    destruct Hd as [[-> ->] | (Hodd & Hm & Hemin & Hmax)].
    + assert (n = 0) by (cbn in Habs; lia). subst n. reflexivity.
    + replace ((n <? 0) && negb (m =? 0)%N) with (n <? 0)
        by (destruct m; [ lia | rewrite andb_true_r; reflexivity ]).
      rewrite <- (N2Z.id m) at 2.
      apply round_Q_exact; try assumption; try lia.
      replace (Z.max 0 (- e)) with 0 by lia. replace (Z.max 0 e) with e by lia.
      rewrite Z.pow_0_r. ring.
  - (* the unit is KB, MB, GB, TB or PB *)
    destruct (auto_unit_token (Fin false m e) (proj1 Hpos)) as [Hu Hue].
    apply num_ge_pow2 in Hge; [ | lia ].
    assert (Hm0 : 0 < Z.of_N m).
    { destruct (Z.eq_dec (Z.of_N m) 0) as [E | ]; [ | lia ].
      rewrite E, Z.mul_0_l in Hge.
      assert (0 < 2 ^ (k - Z.min e k)) by pow_pos. lia. }
    destruct Hd as [[-> _] | (Hodd & Hm & Hemin & Hmax)]; [ cbn in Hm0; lia | ].
    replace ((n <? 0) && negb (m =? 0)%N) with (n <? 0)
      by (destruct m; [ lia | rewrite andb_true_r; reflexivity ]).
    rewrite parse_unit_text by assumption. rewrite Hue. fold k.
    assert (Hmax' : Z.of_N m * 2 ^ Z.max 0 (e - k) < 2 ^ 1024).
    { eapply Z.le_lt_trans; [ | exact Hmax ].
      apply Z.mul_le_mono_nonneg_l; [ lia | ]. apply Z.pow_le_mono_r; lia. }
    rewrite (round_Q_exact (n <? 0) _ _ (Z.of_N m) (e - k));
      [ | lia | lia | assumption | lia | lia | assumption | ].
    2:{ replace (Z.max 0 (- (e - k))) with (Z.max 0 (k - e)) by lia.
        assert (0 < 2 ^ Z.max 0 (k - e)) by pow_pos.
        assert (0 < 2 ^ Z.max 0 (e - k)) by pow_pos.
        set (P := digits_val 0 (a ++ fraction_digits fp)) in *.
        set (Q := 10 ^ Z.of_nat (length (fraction_digits fp))) in *.
        set (A := 2 ^ Z.max 0 (k - e)) in *. set (B := 2 ^ Z.max 0 (e - k)) in *.
        assert (100 * (P * A) = 100 * (Q * Z.of_N m * B)) by nia. lia. }
    rewrite N2Z.id.
    rewrite floor_mul_pow2; [ | lia | | ].
    + replace (e - k + k) with e by lia.
      unfold floor_scaled, number_of_floor.
      replace (0 <=? e) with true by (symmetry; apply Z.leb_le; lia).
      assert (Hn : signed (n <? 0) m * 2 ^ e = n).
      { unfold signed. destruct (n <? 0) eqn:Hs.
        - apply Z.ltb_lt in Hs. lia.
        - apply Z.ltb_ge in Hs. lia. }
      rewrite Hn.
      assert (0 < 2 ^ e) by pow_pos.
      replace (n =? 0) with false by (symmetry; apply Z.eqb_neq; nia).
      rewrite <- Hof. reflexivity.
    + apply is_double_Fin. right. repeat split; try assumption; lia.
    + replace (e - k + k) with e by lia. exact Hmax.
Qed.

Lemma is_double_small (n : Z) : Z.abs n < 2 ^ 53 -> is_double (of_Z n) = true.
Proof.
  intros Hn. unfold of_Z. apply norm_double; try lia.
  rewrite Z.pow_0_r, Z.mul_1_r.
  assert (2 ^ 53 < 2 ^ 1024) by (apply Z.pow_lt_mono_r; lia). lia.
Qed.

Lemma unit_exponent_of_small (a : Z) : a < 1024 -> unit_exponent_of a = 0.
Proof.
  intros Ha. unfold unit_exponent_of.
  repeat match goal with
         | |- context [if ?c <=? a then _ else _] =>
             replace (c <=? a) with false by (symmetry; apply Z.leb_gt; lia)
         end.
  reflexivity.
Qed.

Lemma unit_exponent_of_kilo (a : Z) :
  1024 <= a < 2 ^ 20 -> unit_exponent_of a = 10.
Proof.
  intros Ha. unfold unit_exponent_of.
  replace (2 ^ 50 <=? a) with false by (symmetry; apply Z.leb_gt; lia).
  replace (2 ^ 40 <=? a) with false by (symmetry; apply Z.leb_gt; lia).
  replace (2 ^ 30 <=? a) with false by (symmetry; apply Z.leb_gt; lia).
  replace (2 ^ 20 <=? a) with false by (symmetry; apply Z.leb_gt; lia).
  replace (2 ^ 10 <=? a) with true by (symmetry; apply Z.leb_le; lia).
  reflexivity.
Qed.

(** ** The unit of the result *)

Lemma resolve_unit_auto (options : option Options) (mag : number) :
  string_option options opt_unit = ""
  \/ map (toLowerCase (string_option options opt_unit)) = None ->
  resolve_unit options mag = auto_unit mag.
Proof.
  unfold resolve_unit. cbv zeta. intros [H | H]; rewrite H.
  - reflexivity.
  - rewrite orb_true_r. reflexivity.
Qed.

Lemma resolve_unit_known (options : option Options) (mag : number) (x : map_entry) :
  string_option options opt_unit <> "" ->
  map (toLowerCase (string_option options opt_unit)) = Some x ->
  resolve_unit options mag = string_option options opt_unit.
Proof.
  unfold resolve_unit. cbv zeta. intros Hne H. rewrite H.
  destruct (string_option options opt_unit); [ contradiction | reflexivity ].
Qed.

(** [mag >= 2^k] on a non-negative finite number. *)
Lemma num_ge_threshold (m : N) (e k : Z) :
  0 <= k ->
  num_ge (Fin false m e) (of_Z (2 ^ k)) = pow2_le 1 (k - e) (Z.of_N m).
Proof.
  intros Hk. rewrite of_Z_pow2 by assumption.
  cbn [num_ge signed]. unfold dy_compare.
  change (Z.of_N 1) with 1. rewrite Z.mul_1_l.
  set (j := Z.min e k).
  assert (Hj : j <= e /\ j <= k) by (unfold j; lia). clearbody j.
  destruct (pow2_le 1 (k - e) (Z.of_N m)) eqn:Hp.
  - apply (pow2_le_scaled 1 (k - e) (Z.of_N m) (e - j)) in Hp; try lia.
    replace (k - e + (e - j)) with (k - j) in Hp by lia. rewrite Z.mul_1_l in Hp.
    destruct (_ ?= _) eqn:Hc; try reflexivity.
    rewrite Z.compare_lt_iff in Hc. lia.
  - destruct (_ ?= _) eqn:Hc; try reflexivity; exfalso;
      apply not_true_iff_false in Hp; apply Hp;
      apply (pow2_le_scaled 1 (k - e) (Z.of_N m) (e - j)); try lia;
      replace (k - e + (e - j)) with (k - j) by lia; rewrite Z.mul_1_l.
    + apply Z.compare_eq in Hc. lia.
    + rewrite Z.compare_gt_iff in Hc. lia.
Qed.

(** The unit chosen from the magnitude is B below 2^10 and otherwise the
    largest unit whose multiplier is at most the magnitude: each threshold
    is compared with [>=]. *)
Lemma auto_unit_thresholds (m : N) (e : Z) :
  let ge k := pow2_le 1 (k - e) (Z.of_N m) in
  auto_unit (Fin false m e) =
  if ge 50 then "PB" else if ge 40 then "TB" else if ge 30 then "GB"
  else if ge 20 then "MB" else if ge 10 then "KB" else "B".
Proof.
  cbv zeta. unfold auto_unit.
  change map_pb with (of_Z (2 ^ 50)). change map_tb with (of_Z (2 ^ 40)).
  change map_gb with (of_Z (2 ^ 30)). change map_mb with (of_Z (2 ^ 20)).
  change map_kb with (of_Z (2 ^ 10)).
  rewrite !num_ge_threshold by lia. reflexivity.
Qed.

(** With no unit asked for, or one that the table does not answer for,
    the result ends with the unit chosen from the magnitude. *)
Lemma format_auto_unit (neg : bool) (m : N) (e : Z) (options : option Options) :
  string_option options opt_unit = ""
  \/ map (toLowerCase (string_option options opt_unit)) = None ->
  fraction_digits_ok options = true ->
  exists str,
    format (JNum (Fin neg m e)) options
    = Return (JStr (str ++ string_option options opt_unitSeparator
                        ++ auto_unit (Fin false m e))).
Proof.
  intros Hu Hd. apply fraction_digits_ok_spec in Hd as (f & Hf & Hr).
  rewrite format_unfold. cbv zeta.
  rewrite (resolve_unit_auto options (Fin false m e) Hu).
  destruct (toFixed_returns
              (num_div (Fin neg m e)
                 (entry_number (map (toLowerCase (auto_unit (Fin false m e))))))
              _ f Hf Hr) as [str Hstr].
  rewrite Hstr. eexists. reflexivity.
Qed.

(** ** Examples of the specification *)

Example format_unit_boundary :
  format (JNum (of_Z 1024)) None = Return (JStr "1KB")
  /\ format (JNum (of_Z 1023)) None = Return (JStr "1023B")
  /\ format (JNum (of_Z 1048576)) None = Return (JStr "1MB").
Proof. repeat split; vm_compute; reflexivity. Qed.

Example format_decimal_stripping :
  format (JNum (of_Z 1536)) (only_decimalPlaces (of_Z 2)) = Return (JStr "1.5KB")
  /\ format (JNum (of_Z 2048)) (only_decimalPlaces (of_Z 2)) = Return (JStr "2KB")
  /\ format (JNum (of_Z 2048))
            (Some (mkOptions (Some (of_Z 2)) (Some true) None None None))
     = Return (JStr "2.00KB").
Proof. repeat split; vm_compute; reflexivity. Qed.

Example format_thousands_separator :
  format (JNum (of_Z 1000000000))
         (Some (mkOptions None None (Some ",") None (Some "b")))
  = Return (JStr "1,000,000,000b").
Proof. vm_compute. reflexivity. Qed.

Example format_sign_and_non_finite :
  format (JNum (of_Z (-1024))) None = Return (JStr "-1KB")
  /\ format (JNum (Inf false)) None = Return JNull
  /\ format (JNum NaN) None = Return JNull.
Proof. repeat split; vm_compute; reflexivity. Qed.

Example parse_examples :
  parse (JNum (of_Z 512)) = Return (JNum (of_Z 512))
  /\ parse (JStr "1KB") = Return (JNum (of_Z 1024))
  /\ parse (JStr "-0.0005kb") = Return (JNum (of_Z (-1))).
Proof. repeat split; vm_compute; reflexivity. Qed.

Example convert_type_mismatch :
  convert (JBool true) None = Return JNull
  /\ convert JObject None = Return JNull
  /\ convert JNull None = Return JNull.
Proof. repeat split; reflexivity. Qed.

(** ** C1: the unit chosen when none is known *)

(** C1 (failing input).  A unit that is no unit key but names a member the
    table inherits, [format(1024, {unit: 'constructor'})], is not replaced
    by the unit chosen from the magnitude: the quotient is NaN and the
    text asked for is appended as it is. *)
Theorem C1_inherited_key_not_auto_selected :
  format (JNum (of_Z 1024)) (only_unit "constructor")
  = Return (JStr "NaNconstructor").
Proof. vm_compute. reflexivity. Qed.

(** ** C2: a number with a unit *)

(** C2.  For every string made of an optional sign, a decimal numeral
    (digits, optionally a point and digits), optional spaces and a unit
    token among kb, mb, gb, tb, pb in any case, parse returns the floor of
    the product of the unit's multiplier and the signed numeric value, the
    double nearest to the numeral; the floor and the product are the
    exact ones (toward negative infinity) whenever the product is finite.
    [parse("1KB")] is 1024, [parse("1.5GB")] is 1610612736, and the
    pattern matches no numeral followed by a bare [b]. *)
Theorem C2_parse_number_with_unit :
  (forall (sg : option bool) (ip : string) (fp : option string) (sp u : string),
      is_digits ip = true -> is_fraction fp = true ->
      all_chars (fun c => code c =? 32) sp = true -> is_unit_token u = true ->
      let x := round_Q (is_negative sg)
                       (digits_val 0 (ip ++ fraction_digits fp))
                       (10 ^ Z.of_nat (length (fraction_digits fp))) in
      let k := unit_exponent u in
      parse (JStr (sign_text sg ++ ip ++ fraction_text fp ++ sp ++ u))
      = Return (JNum (Math_floor (num_mul (of_Z (2 ^ k)) x)))
      /\ (forall neg m e,
             x = Fin neg m e -> Z.of_N m * 2 ^ Z.max 0 (e + k) < 2 ^ 1024 ->
             Math_floor (num_mul (of_Z (2 ^ k)) x)
             = number_of_floor neg (floor_scaled (signed neg m) (e + k))))
  /\ parse (JStr "1KB") = Return (JNum (of_Z 1024))
  /\ parse (JStr "1.5GB") = Return (JNum (of_Z 1610612736))
  /\ (forall (sg : option bool) (ip : string) (fp : option string) (sp u : string),
         is_digits ip = true -> is_fraction fp = true ->
         all_chars (fun c => code c =? 32) sp = true ->
         u = "b" \/ u = "B" ->
         parseRegExp_exec (sign_text sg ++ ip ++ fraction_text fp ++ sp ++ u)
         = None).
Proof.
  split; [ | split; [ vm_compute; reflexivity | split; [ vm_compute; reflexivity | ] ] ].
  2:{ intros sg ip fp sp u Hip Hfp Hsp Hu.
      rewrite (parseRegExp_numeral sg ip fp sp u Hip Hfp Hsp)
        by (destruct Hu as [-> | ->]; reflexivity).
      destruct Hu as [-> | ->]; reflexivity. }
  intros sg ip fp sp u Hip Hfp Hsp Hu x k. split.
  - unfold parse.
    rewrite (parseRegExp_grammar sg ip fp sp u Hip Hfp Hsp Hu).
    rewrite (parseFloat_grammar sg ip fp Hip Hfp).
    rewrite (unit_multiplier_map u Hu). reflexivity.
  - intros neg m e Hx Hmax. rewrite Hx.
    apply floor_mul_pow2; [ apply unit_exponent_nonneg | | assumption ].
    rewrite <- Hx. apply round_Q_double.
    + destruct (is_digits_inv ip Hip) as (Hall & _).
      apply digits_val_nonneg; [ | lia ].
      rewrite all_chars_app, Hall.
      destruct fp as [f | ]; [ | reflexivity ].
      destruct (is_digits_inv f Hfp) as (Hf & _). exact Hf.
    + pow_pos.
Qed.

Lemma C2_witness :
  parse (JStr "-0.0005 kB") = Return (JNum (of_Z (-1)))
  /\ parse (JStr "+12Mb") = Return (JNum (of_Z 12582912))
  /\ Math_floor (num_mul (of_Z (2 ^ 20)) (of_Z 12))
     = number_of_floor false (floor_scaled 3 22)
  /\ parseRegExp_exec "1b" = None.
Proof.
  split; [ | split; [ | split ] ].
  - destruct (proj1 C2_parse_number_with_unit (Some true) "0" (Some "0005") " " "kB"
                eq_refl eq_refl eq_refl eq_refl) as [H _].
    exact H.
  - destruct (proj1 C2_parse_number_with_unit (Some false) "12" None "" "Mb"
                eq_refl eq_refl eq_refl eq_refl) as [H _].
    exact H.
  - destruct (proj1 C2_parse_number_with_unit (Some false) "12" None "" "Mb"
                eq_refl eq_refl eq_refl eq_refl) as [_ H].
    exact (H false 3%N 2 eq_refl eq_refl).
  - exact (proj2 (proj2 (proj2 C2_parse_number_with_unit))
             None "1" None "" "b" eq_refl eq_refl eq_refl (or_introl eq_refl)).
Defined.

(** ** C3: the null result of format *)

(** C3 (counterexample).  [format(1, {decimalPlaces: 101})] is a finite
    value for which format returns no string: [toFixed] raises a
    RangeError. *)
Lemma C3_counterexample :
  is_finite_number (JNum (of_Z 1)) = true
  /\ format (JNum (of_Z 1)) (only_decimalPlaces (of_Z 101)) = Throw RangeError.
Proof. split; vm_compute; reflexivity. Qed.

(** C3 (amended).  format returns null exactly when the value is not a
    finite number, whatever the options; for a finite value it returns a
    string whenever the number of fraction digits asked for truncates to
    an integer from 0 to 100, and raises a RangeError otherwise. *)
Theorem C3_format_null_iff_not_finite (value : jsval) (options : option Options) :
  (format value options = Return JNull <-> is_finite_number value = false)
  /\ (is_finite_number value = true ->
      if fraction_digits_ok options
      then exists s, format value options = Return (JStr s)
      else format value options = Throw RangeError).
Proof.
  split.
  - split.
    + intros H. destruct (is_finite_number value) eqn:Hv; [ | reflexivity ].
      destruct (format_finite value options Hv) as [[s Hs] | Ht]; congruence.
    + apply format_not_finite.
  - intros Hv. destruct (fraction_digits_ok options) eqn:Hd.
    + apply format_finite_ok; assumption.
    + apply format_finite_throws; assumption.
Qed.

Lemma C3_witness :
  is_finite_number (JNum (of_Z 2048)) = true
  /\ exists s, format (JNum (of_Z 2048)) None = Return (JStr s).
Proof.
  split; [ reflexivity | ].
  exact (proj2 (C3_format_null_iff_not_finite (JNum (of_Z 2048)) None) eq_refl).
Defined.

(** ** C4: the null result of parse *)

(** C4 (counterexample).  NaN is a number, and [parse(NaN)] is null. *)
Lemma C4_counterexample : parse (JNum NaN) = Return JNull.
Proof. reflexivity. Qed.

(** C4 (amended).  parse returns null exactly when its input is NaN or is
    neither a number nor a string: for every number other than NaN and
    for every string the result is not null. *)
Theorem C4_parse_null_iff (val : jsval) :
  parse val = Return JNull <->
  match val with
  | JNum x => isNaN x = true
  | JStr _ => False
  | _ => True
  end.
Proof.
  destruct val as [ | | b | x | s | ]; simpl; try tauto.
  - destruct (isNaN x); split; intros H; congruence.
  - destruct (parseRegExp_exec s) as [[r1 r4] | ]; split;
      intros H; try contradiction; discriminate.
Qed.

(** ** C5: exceptions *)

(** C5 (counterexample).  [convert(1, {decimalPlaces: 101})] raises a
    RangeError. *)
Lemma C5_counterexample :
  convert (JNum (of_Z 1)) (only_decimalPlaces (of_Z 101)) = Throw RangeError.
Proof. vm_compute. reflexivity. Qed.

(** C5 (amended).  parse returns normally on every input value (of any
    type).  convert and format return normally on every input value and
    every options object whose number of fraction digits truncates to an
    integer from 0 to 100; they raise an exception, a RangeError, exactly
    when the value is a finite number and that number is out of range:
    each of them raises whenever this is the case, and raises in no other
    case. *)
Theorem C5_no_exception (value : jsval) (options : option Options) :
  (exists r, parse value = Return r)
  /\ (fraction_digits_ok options = true ->
      (exists r, convert value options = Return r)
      /\ (exists r, format value options = Return r))
  /\ (forall err,
         format value options = Throw err
         <-> is_finite_number value = true /\ fraction_digits_ok options = false)
  /\ (forall err,
         convert value options = Throw err
         <-> is_finite_number value = true /\ fraction_digits_ok options = false).
Proof.
  assert (Hc : (is_finite_number value = true
                -> convert value options = format value options)
               /\ (convert value options = format value options
                   \/ exists r, convert value options = Return r)).
  { destruct value as [ | | b | x | s | ];
      try (split; [ discriminate | right; eexists; reflexivity ]).
    - split; [ reflexivity | left; reflexivity ].
    - split; [ discriminate | right; apply parse_returns ]. }
  destruct Hc as [Hfin Hc].
  assert (Hthrow : forall err,
             format value options = Throw err
             <-> is_finite_number value = true /\ fraction_digits_ok options = false).
  { intros err. split.
    - intros Hf. destruct (is_finite_number value) eqn:Hv.
      + split; [ reflexivity | ].
        destruct (fraction_digits_ok options) eqn:Hd; [ | reflexivity ].
        destruct (format_finite_ok value options Hv Hd) as [s Hs]. congruence.
      + rewrite (format_not_finite value options Hv) in Hf. discriminate.
    - intros [Hv Hd]. destruct err.
      apply format_finite_throws; assumption. }
  split; [ apply parse_returns | split; [ | split; [ exact Hthrow | ] ] ].
  - intros Hd.
    assert (Hf : exists r, format value options = Return r).
    { destruct (is_finite_number value) eqn:Hv.
      - destruct (format_finite_ok value options Hv Hd) as [s Hs].
        eexists; exact Hs.
      - rewrite (format_not_finite value options Hv). eexists; reflexivity. }
    split; [ | exact Hf ].
    destruct Hc as [-> | Hr]; assumption.
  - intros err. split.
    + intros H. apply (Hthrow err).
      destruct Hc as [<- | [r Hr]]; [ exact H | congruence ].
    + intros [Hv Hd]. rewrite (Hfin Hv). apply (Hthrow err). split; assumption.
Qed.

Lemma C5_witness :
  ((exists r, convert (JNum (of_Z 1024)) None = Return r)
   /\ (exists r, format (JNum (of_Z 1024)) None = Return r))
  /\ format (JNum (of_Z 1024)) (only_decimalPlaces (of_Z (- 1))) = Throw RangeError
  /\ convert (JNum (of_Z 1024)) (only_decimalPlaces (of_Z (- 1))) = Throw RangeError.
Proof.
  split; [ | split ].
  - exact (proj1 (proj2 (C5_no_exception (JNum (of_Z 1024)) None)) eq_refl).
  - exact (proj2 (proj1 (proj2 (proj2 (C5_no_exception (JNum (of_Z 1024))
                                         (only_decimalPlaces (of_Z (- 1))))))
                        RangeError)
                 (conj eq_refl eq_refl)).
  - exact (proj2 (proj2 (proj2 (proj2 (C5_no_exception (JNum (of_Z 1024))
                                         (only_decimalPlaces (of_Z (- 1))))))
                        RangeError)
                 (conj eq_refl eq_refl)).
Defined.

(** ** C6: trailing zeros *)

(** C6 (failing input).  [format(1.05, {decimalPlaces: 3})] renders
    [1.050]: a zero right after the point keeps both alternatives of
    [formatDecimalsRegExp] from matching, and the trailing zero stays. *)
Theorem C6_trailing_zero_kept :
  format (JNum (parseFloat "1.05")) (only_decimalPlaces (of_Z 3))
  = Return (JStr "1.050B").
Proof. vm_compute. reflexivity. Qed.

(** ** C7: the thousands separator *)

(** C7 (failing input).  [format(1.23456, {decimalPlaces: 5,
    thousandsSeparator: ','})] puts the separator among the fraction
    digits: [formatThousandsRegExp] is applied to the whole numeral. *)
Theorem C7_separator_in_fraction :
  format (JNum (parseFloat "1.23456")) (places_and_separator (of_Z 5) ",")
  = Return (JStr "1.23,456B").
Proof. vm_compute. reflexivity. Qed.

(** ** C8: a string without a unit *)

(** C8.  For every string that the strict pattern does not match, parse
    returns [parseInt(val, 10)] of the whole string, the unit being bytes:
    [parse("100")] is 100, [parse("3.7")] is 3, and a string without any
    digit yields NaN, which is returned as it is and not replaced by
    null. *)
Theorem C8_parse_without_unit :
  (forall s, parseRegExp_exec s = None ->
             parse (JStr s) = Return (JNum (parseInt10 s)))
  /\ parse (JStr "100") = Return (JNum (of_Z 100))
  /\ parse (JStr "3.7") = Return (JNum (of_Z 3))
  /\ (forall s, all_chars (fun c => negb (is_digit c)) s = true ->
                parse (JStr s) = Return (JNum NaN)).
Proof.
  split; [ exact parse_fallback | ].
  split; [ vm_compute; reflexivity | ].
  split; [ vm_compute; reflexivity | ].
  intros s H. rewrite (parse_fallback s (parseRegExp_no_digit s H)).
  rewrite (parseInt10_no_digit s H). reflexivity.
Qed.

Lemma C8_witness :
  parse (JStr "12px") = Return (JNum (parseInt10 "12px"))
  /\ parse (JStr "abc") = Return (JNum NaN).
Proof.
  split.
  - exact (proj1 C8_parse_without_unit "12px" eq_refl).
  - exact (proj2 (proj2 (proj2 C8_parse_without_unit)) "abc" eq_refl).
Defined.

(** ** C9: the round trip *)

(** C9 (counterexample).  [2^120] is a multiple of 1024 in the range of
    PB, where it is exactly [2^70]; format renders it in exponent
    notation, and parse reads the result back as 1. *)
Lemma C9_counterexample :
  is_double (of_Z (2 ^ 120)) = true
  /\ (100 * 2 ^ 120) mod 2 ^ unit_exponent_of (Z.abs (2 ^ 120)) = 0
  /\ format (JNum (of_Z (2 ^ 120))) None
     = Return (JStr "1.1805916207174113e+21PB")
  /\ parse (JStr "1.1805916207174113e+21PB") = Return (JNum (of_Z 1))
  /\ of_Z 1 <> of_Z (2 ^ 120).
Proof. repeat split; vm_compute; (reflexivity || discriminate). Qed.

(** C9 (amended).  [parse(format(n)) = n] with the default options for
    every integer [n] that is a double, is a whole number of hundredths
    of its unit and is below 10^21 units in magnitude; this covers every
    [n] of magnitude below 1024 and every multiple of 1024 in the range of
    KB. *)
Theorem C9_round_trip :
  (forall n : Z,
      is_double (of_Z n) = true ->
      (100 * n) mod 2 ^ unit_exponent_of (Z.abs n) = 0 ->
      Z.abs n < 10 ^ 21 * 2 ^ unit_exponent_of (Z.abs n) ->
      round_trip n)
  /\ (forall n : Z, Z.abs n < 1024 -> round_trip n)
  /\ (forall j : Z, 1 <= Z.abs j < 1024 -> round_trip (1024 * j)).
Proof.
  split; [ exact round_trip_exact | split ].
  - intros n Hn. apply round_trip_exact.
    + apply is_double_small. change (2 ^ 53) with 9007199254740992. lia.
    + rewrite unit_exponent_of_small by lia. apply Z.mod_1_r.
    + rewrite unit_exponent_of_small by lia. change (10 ^ 21 * 2 ^ 0) with (10 ^ 21).
      change (10 ^ 21) with 1000000000000000000000. lia.
  - intros j Hj.
    assert (Habs : Z.abs (1024 * j) = 1024 * Z.abs j) by lia.
    apply round_trip_exact.
    + apply is_double_small. change (2 ^ 53) with 9007199254740992. lia.
    + rewrite Habs, unit_exponent_of_kilo by (change (2 ^ 20) with 1048576; lia).
      change (2 ^ 10) with 1024.
      replace (100 * (1024 * j)) with (100 * j * 1024) by ring. apply Z.mod_mul. lia.
    + rewrite Habs, unit_exponent_of_kilo by (change (2 ^ 20) with 1048576; lia).
      change (10 ^ 21 * 2 ^ 10) with 1024000000000000000000000. lia.
Qed.

Lemma C9_witness : round_trip 1536 /\ round_trip (-512) /\ round_trip 2048.
Proof.
  split; [ | split ].
  - exact (proj1 C9_round_trip 1536 eq_refl eq_refl eq_refl).
  - apply (proj1 (proj2 C9_round_trip) (-512)). reflexivity.
  - apply (proj2 (proj2 C9_round_trip) 2). split; [ discriminate | reflexivity ].
Defined.

(** ** C10: no decimal places *)

(** C10 (counterexample).  The double 15 * 10^20 * 2^50 is 1.5e21 PB; with
    [decimalPlaces: 0] it is rendered in exponent notation, with a
    fraction digit. *)
Lemma C10_counterexample :
  is_double (of_Z (15 * 10 ^ 20 * 2 ^ 50)) = true
  /\ format (JNum (of_Z (15 * 10 ^ 20 * 2 ^ 50))) (only_decimalPlaces (of_Z 0))
     = Return (JStr "1.5e+21PB").
Proof. split; vm_compute; reflexivity. Qed.

(** C10 (amended).  The default of 2 applies only when decimalPlaces is
    undefined.  For every finite value whose quotient by the multiplier of
    its unit is below 10^21 in magnitude, [format(value, {decimalPlaces:
    0})] is the sign, the decimal digits of the integer nearest to the
    magnitude of the quotient (the larger of two) and the unit: no
    fraction digit. *)
Theorem C10_zero_decimal_places :
  (forall o, opt_decimalPlaces o = None -> decimalPlaces_of (Some o) = of_Z 2)
  /\ (forall o d, opt_decimalPlaces o = Some d -> decimalPlaces_of (Some o) = d)
  /\ (forall (neg : bool) (m : N) (e : Z),
         is_double (Fin neg m e) = true ->
         let k := auto_exponent (Fin false m e) in
         ge_1e21 (Z.of_N m) (e - k) = false ->
         let N := half_up_scaled (Z.of_N m) (e - k) 0 in
         format (JNum (Fin neg m e)) (only_decimalPlaces (of_Z 0))
         = Return (JStr (minus_text neg m ++ to_digits N
                                    ++ auto_unit (Fin false m e)))
         /\ all_chars is_digit (to_digits N) = true
         /\ digits_val 0 (to_digits N) = N
         /\ nearest_integer N (Z.of_N m) (e - k)).
Proof.
  split; [ intros o H; unfold decimalPlaces_of; rewrite H; reflexivity | ].
  split; [ intros o d H; unfold decimalPlaces_of; rewrite H; reflexivity | ].
  intros neg m e Hx k Hsmall N.
  assert (HN : 0 <= N) by (apply half_up_nonneg; lia).
  destruct (to_digits_spec N HN) as (Hd1 & Hd2 & Hd3).
  split; [ | split; [ exact Hd1 | split; [ exact Hd2 | apply half_up_nearest; lia ] ] ].
  rewrite format_unfold. cbv zeta.
  assert (Hu : resolve_unit (only_decimalPlaces (of_Z 0)) (Fin false m e)
               = auto_unit (Fin false m e)) by reflexivity.
  rewrite Hu, (quotient_exact neg m e Hx). fold k.
  assert (Hfix : toFixed (Fin neg m (e - k))
                         (decimalPlaces_of (only_decimalPlaces (of_Z 0)))
                 = Return (minus_text neg m ++ to_digits N)).
  { unfold toFixed. change (decimalPlaces_of (only_decimalPlaces (of_Z 0))) with (of_Z 0).
    change (ToIntegerOrInfinity (of_Z 0)) with (Some 0).
    change ((0 <? 0) || (100 <? 0)) with false. cbv iota.
    rewrite Hsmall. reflexivity. }
  rewrite Hfix.
  change (fixedDecimals_of (only_decimalPlaces (of_Z 0))) with false.
  change (string_option (only_decimalPlaces (of_Z 0)) opt_thousandsSeparator) with "".
  change (string_option (only_decimalPlaces (of_Z 0)) opt_unitSeparator) with "".
  cbn [is_empty]. cbv iota.
  rewrite replace_decimals_no_point.
  - rewrite app_assoc_s. reflexivity.
  - rewrite all_chars_app, minus_no_point, (digits_no_point _ Hd1). reflexivity.
Qed.

Lemma C10_witness :
  format (JNum (of_Z 1536)) (only_decimalPlaces (of_Z 0)) = Return (JStr "2KB")
  /\ nearest_integer 2 3 (-1).
Proof.
  destruct (proj2 (proj2 C10_zero_decimal_places) false 3%N 9 eq_refl eq_refl)
    as (H1 & _ & _ & H4).
  split; [ exact H1 | exact H4 ].
Defined.

(** * Further properties of the module *)

(** ** The numbers parse returns *)

Lemma num_mul_double (x y : number) : is_double (num_mul x y) = true.
Proof.
  destruct x as [ | n1 | n1 m1 e1 ]; destruct y as [ | n2 | n2 m2 e2 ];
    try reflexivity.
  - cbn [num_mul]. destruct (m2 =? 0)%N; reflexivity.
  - cbn [num_mul]. destruct (m1 =? 0)%N; reflexivity.
  - cbn [num_mul]. apply round_Q_double.
    + assert (0 < 2 ^ Z.max 0 (e1 + e2)) by pow_pos. nia.
    + pow_pos.
Qed.

Lemma Math_floor_double (x : number) :
  is_double x = true ->
  is_double (Math_floor x) = true /\ is_integral (Math_floor x) = true.
Proof.
  destruct x as [ | s | neg m e ]; try (split; reflexivity).
  intros Hx. cbn [Math_floor].
  destruct (0 <=? e) eqn:He.
  - rewrite (norm_id neg m e Hx). split; [ exact Hx | exact He ].
  - apply Z.leb_gt in He. apply is_double_Fin in Hx.
    destruct Hx as [[_ ->] | (Hodd & Hm & Hemin & Hmax)]; [ lia | ].
    assert (H2 : 1 < 2 ^ (- e)) by (apply Z.pow_gt_1; lia).
    assert (Ha : 0 <= Z.of_N m / 2 ^ (- e)) by (apply Z.div_pos; lia).
    assert (Hb : Z.of_N m / 2 ^ (- e) < 2 ^ 53)
      by (apply Z.div_lt_upper_bound; nia).
    assert (Hbig : 2 ^ 53 < 2 ^ 1024) by (apply Z.pow_lt_mono_r; lia).
    destruct (neg && negb (Z.of_N m mod 2 ^ (- e) =? 0)); split;
      try (apply norm_integral; lia);
      apply norm_double; rewrite ?Z.pow_0_r, ?Z.mul_1_r; lia.
Qed.

Lemma parse_string_number (s : string) :
  exists y, parse (JStr s) = Return (JNum y)
            /\ is_double y = true /\ is_integral y = true.
Proof.
  unfold parse.
  destruct (match parseRegExp_exec s with
            | Some (r1, r4) => (parseFloat r1, toLowerCase r4)
            | None => (parseInt10 s, "b")
            end) as [floatValue unit].
  eexists. split; [ reflexivity | ].
  apply Math_floor_double. apply num_mul_double.
Qed.

(** X1: the result of parse on a string is NaN, an infinity or a double with
    an integer value; a number that is not NaN is returned as it is,
    fraction included. *)
Theorem X1_parse_string_integral :
  (forall s, exists y, parse (JStr s) = Return (JNum y)
                       /\ is_double y = true /\ is_integral y = true)
  /\ (forall x, isNaN x = false -> parse (JNum x) = Return (JNum x)).
Proof.
  split.
  - exact parse_string_number.
  - intros x Hx. cbn [parse]. rewrite Hx. reflexivity.
Qed.

Lemma X1_witness :
  parse (JNum (round_Q true 3 2)) = Return (JNum (round_Q true 3 2)).
Proof.
  exact (proj2 X1_parse_string_integral (round_Q true 3 2) eq_refl).
Defined.

(** X2: parse applied to its own result returns it again, except for NaN,
    which parse returns for a string without digits and turns into null
    when it is given back. *)
Theorem X2_parse_twice (val : jsval) :
  exists r, parse val = Return r
            /\ parse r = Return (match r with JNum NaN => JNull | _ => r end).
Proof.
  destruct val as [ | | b | x | s | ]; try (eexists; split; reflexivity).
  - cbn [parse]. destruct x as [ | sg | neg m e ]; eexists; split; reflexivity.
  - destruct (parse_string_number s) as (y & Hy & _).
    exists (JNum y). split; [ exact Hy | ].
    destruct y; reflexivity.
Qed.

(** ** The strings the strict pattern matches *)

Lemma code_inj (c : ascii) (z : Z) : code c = z -> c = char z.
Proof.
  intros <-. unfold char, code. rewrite N2Z.id, ascii_N_embedding. reflexivity.
Qed.

Lemma match_sign_inv (val sign r0 : string) :
  match_sign val = (sign, r0) ->
  exists sg, sign = sign_text sg /\ val = sign_text sg ++ r0.
Proof.
  unfold match_sign. destruct val as [ | c r].
  - intros H. injection H as <- <-. exists None. split; reflexivity.
  - destruct (code c =? 45) eqn:Hm; cbn [orb].
    + intros H. injection H as <- <-. apply Z.eqb_eq, code_inj in Hm. subst c.
      exists (Some true). split; reflexivity.
    + destruct (code c =? 43) eqn:Hp.
      * intros H. injection H as <- <-. apply Z.eqb_eq, code_inj in Hp. subst c.
        exists (Some false). split; reflexivity.
      * intros H. injection H as <- <-. exists None. split; reflexivity.
Qed.

Lemma match_numeral_inv (r0 numeral r2 : string) :
  match_numeral r0 = Some (numeral, r2) ->
  exists ip fp, is_digits ip = true /\ is_fraction fp = true
    /\ numeral = ip ++ fraction_text fp /\ r0 = ip ++ fraction_text fp ++ r2.
Proof.
  unfold match_numeral.
  pose proof (span_spec is_digit r0) as (H1 & H2 & _).
  destruct (span is_digit r0) as [ip r1]; cbn [fst snd] in *.
  destruct (is_empty ip) eqn:Hip; [ discriminate | ].
  assert (Hd : is_digits ip = true) by (unfold is_digits; rewrite Hip, H2; reflexivity).
  assert (Hnone : Some (ip, r1) = Some (numeral, r2) ->
                  exists ip0 fp, is_digits ip0 = true /\ is_fraction fp = true
                    /\ numeral = ip0 ++ fraction_text fp
                    /\ r0 = ip0 ++ fraction_text fp ++ r2).
  { intros H. injection H as <- <-. exists ip, None.
    cbn [fraction_text append]. rewrite app_empty_r. repeat split; assumption. }
  destruct r1 as [ | c r1']; [ exact Hnone | ].
  destruct (code c =? 46) eqn:Hc; [ | exact Hnone ].
  pose proof (span_spec is_digit r1') as (F1 & F2 & _).
  destruct (span is_digit r1') as [fp r']; cbn [fst snd] in *.
  destruct (is_empty fp) eqn:Hfp; [ exact Hnone | ].
  intros H. injection H as <- <-.
  apply Z.eqb_eq, code_inj in Hc. subst c.
  exists ip, (Some fp). cbn [fraction_text is_fraction].
  split; [ exact Hd | ]. split; [ unfold is_digits; rewrite Hfp, F2; reflexivity | ].
  split; [ reflexivity | ].
  rewrite H1, F1. cbn [append]. reflexivity.
Qed.

Lemma match_unit_inv (r2 u : string) :
  match_unit r2 = Some u ->
  exists sp, all_chars (fun c => code c =? 32) sp = true
             /\ r2 = sp ++ u /\ is_unit_token u = true.
Proof.
  unfold match_unit.
  pose proof (span_spec (fun c => code c =? 32) r2) as (H1 & H2 & _).
  destruct (span (fun c => code c =? 32) r2) as [sp u']; cbn [fst snd] in *.
  destruct (is_unit_token u') eqn:Hu; [ | discriminate ].
  intros H. injection H as <-. exists sp. repeat split; assumption.
Qed.

(** X3: the strict pattern matches a string exactly when the string is an
    optional sign, digits, optionally a point and digits, spaces and a unit
    token; the captures are the signed numeral and the unit. *)
Theorem X3_strict_pattern (val r1 r4 : string) :
  parseRegExp_exec val = Some (r1, r4) <->
  exists sg ip fp sp,
    is_digits ip = true /\ is_fraction fp = true
    /\ all_chars (fun c => code c =? 32) sp = true /\ is_unit_token r4 = true
    /\ val = sign_text sg ++ ip ++ fraction_text fp ++ sp ++ r4
    /\ r1 = sign_text sg ++ ip ++ fraction_text fp.
Proof.
  split.
  - unfold parseRegExp_exec.
    destruct (match_sign val) as [sign r0] eqn:Hs.
    destruct (match_numeral r0) as [[numeral r2] | ] eqn:Hn; [ | discriminate ].
    destruct (match_unit r2) as [u | ] eqn:Hu; [ | discriminate ].
    intros H. injection H as <- <-.
    destruct (match_sign_inv _ _ _ Hs) as (sg & -> & ->).
    destruct (match_numeral_inv _ _ _ Hn) as (ip & fp & Hip & Hfp & -> & ->).
    destruct (match_unit_inv _ _ Hu) as (sp & Hsp & -> & Htok).
    exists sg, ip, fp, sp. repeat split; assumption.
  - intros (sg & ip & fp & sp & Hip & Hfp & Hsp & Hu & -> & ->).
    apply parseRegExp_grammar; assumption.
Qed.

(** ** What parse does not look at *)

Lemma parse_grammar (sg : option bool) (ip : string) (fp : option string)
      (sp u : string) :
  is_digits ip = true -> is_fraction fp = true ->
  all_chars (fun c => code c =? 32) sp = true -> is_unit_token u = true ->
  parse (JStr (sign_text sg ++ ip ++ fraction_text fp ++ sp ++ u))
  = Return (JNum (Math_floor
      (num_mul (of_Z (2 ^ unit_exponent u))
         (round_Q (is_negative sg)
                  (digits_val 0 (ip ++ fraction_digits fp))
                  (10 ^ Z.of_nat (length (fraction_digits fp))))))).
Proof.
  intros Hip Hfp Hsp Hu. unfold parse.
  rewrite (parseRegExp_grammar sg ip fp sp u Hip Hfp Hsp Hu).
  rewrite (parseFloat_grammar sg ip fp Hip Hfp).
  rewrite (unit_multiplier_map u Hu). reflexivity.
Qed.

Lemma toLowerCase_token (u : string) :
  is_unit_token u = true ->
  toLowerCase (toLowerCase u) = toLowerCase u.
Proof.
  intros H. destruct (unit_token_inv u H) as (c1 & c2 & _ & _ & Hl).
  destruct Hl as [Hl | [Hl | [Hl | [Hl | Hl]]]]; rewrite Hl; reflexivity.
Qed.

(** X4: on a numeral with a unit, parse does not look at the spaces before
    the unit, at the case of the unit or at a plus sign: the result is
    that of the numeral followed at once by the unit in lower case. *)
Theorem X4_parse_spaces_case_plus
        (sg : option bool) (ip : string) (fp : option string) (sp u : string) :
  is_digits ip = true -> is_fraction fp = true ->
  all_chars (fun c => code c =? 32) sp = true -> is_unit_token u = true ->
  parse (JStr (sign_text sg ++ ip ++ fraction_text fp ++ sp ++ u))
  = parse (JStr (sign_text (if is_negative sg then Some true else None)
                   ++ ip ++ fraction_text fp ++ toLowerCase u)).
Proof.
  intros Hip Hfp Hsp Hu.
  assert (Hl : is_unit_token (toLowerCase u) = true)
    by (unfold is_unit_token in *; rewrite (toLowerCase_token u Hu); exact Hu).
  rewrite (parse_grammar sg ip fp sp u Hip Hfp Hsp Hu).
  pose proof (parse_grammar (if is_negative sg then Some true else None)
                ip fp "" (toLowerCase u) Hip Hfp eq_refl Hl) as H.
  cbn [append] in H. rewrite H.
  unfold unit_exponent. rewrite (toLowerCase_token u Hu).
  destruct sg as [[ | ] | ]; reflexivity.
Qed.

Lemma X4_witness :
  parse (JStr "+1.5  Gb") = parse (JStr "1.5gb").
Proof.
  exact (X4_parse_spaces_case_plus (Some false) "1" (Some "5") "  " "Gb"
           eq_refl eq_refl eq_refl eq_refl).
Defined.

(** ** The unit chosen for a magnitude *)

Lemma pow2_le_floor (m e k : Z) :
  0 <= m -> 0 <= k ->
  pow2_le 1 (k - e) m = (2 ^ k <=? floor_scaled m e).
Proof.
  intros Hm Hk. unfold floor_scaled.
  destruct (0 <=? e) eqn:He.
  - apply Z.leb_le in He.
    apply eq_true_iff_eq.
    rewrite (pow2_le_scaled 1 (k - e) m e) by lia.
    replace (k - e + e) with k by lia. rewrite Z.leb_le. lia.
  - apply Z.leb_gt in He.
    unfold pow2_le. replace (0 <=? k - e) with true by (symmetry; apply Z.leb_le; lia).
    rewrite Z.mul_1_l.
    replace (k - e) with (k + - e) by lia. rewrite Z.pow_add_r by lia.
    assert (Hp : 0 < 2 ^ (- e)) by pow_pos.
    assert (Hq : 0 < 2 ^ k) by pow_pos.
    apply eq_true_iff_eq. rewrite !Z.leb_le. split; intros H.
    + apply Z.div_le_lower_bound; lia.
    + pose proof (Z.mul_div_le m (2 ^ (- e)) Hp). nia.
Qed.

Lemma auto_unit_floor (m : N) (e : Z) :
  auto_unit (Fin false m e)
  = unit_name (unit_exponent_of (floor_scaled (Z.of_N m) e)).
Proof.
  rewrite auto_unit_thresholds. cbv zeta.
  rewrite !pow2_le_floor by lia. unfold unit_exponent_of.
  repeat (destruct (_ <=? floor_scaled _ _); [ reflexivity | ]).
  reflexivity.
Qed.

Lemma unit_exponent_of_bounds (a : Z) :
  let k := unit_exponent_of a in
  (k = 0 /\ a < 2 ^ 10)
  \/ ((k = 10 \/ k = 20 \/ k = 30 \/ k = 40) /\ 2 ^ k <= a < 2 ^ (k + 10))
  \/ (k = 50 /\ 2 ^ 50 <= a).
Proof.
  cbv zeta. unfold unit_exponent_of.
  destruct (2 ^ 50 <=? a) eqn:H5; [ apply Z.leb_le in H5; right; right; lia | ].
  destruct (2 ^ 40 <=? a) eqn:H4;
    [ apply Z.leb_le in H4; apply Z.leb_gt in H5; right; left;
      split; [ lia | change (40 + 10) with 50; lia ] | ].
  destruct (2 ^ 30 <=? a) eqn:H3;
    [ apply Z.leb_le in H3; apply Z.leb_gt in H4; right; left;
      split; [ lia | change (30 + 10) with 40; lia ] | ].
  destruct (2 ^ 20 <=? a) eqn:H2;
    [ apply Z.leb_le in H2; apply Z.leb_gt in H3; right; left;
      split; [ lia | change (20 + 10) with 30; lia ] | ].
  destruct (2 ^ 10 <=? a) eqn:H1;
    [ apply Z.leb_le in H1; apply Z.leb_gt in H2; right; left;
      split; [ lia | change (10 + 10) with 20; lia ] | ].
  apply Z.leb_gt in H1. left. lia.
Qed.

(** X5: when no unit is asked for, or one that the table does not know,
    the result ends with the unit separator and the unit chosen by the
    integer part of the magnitude: B below 2^10, PB from 2^50 on, and
    between them the unit with 2^k <= magnitude < 2^(k+10). *)
Theorem X5_unit_by_magnitude (neg : bool) (m : N) (e : Z) (options : option Options) :
  string_option options opt_unit = ""
  \/ map (toLowerCase (string_option options opt_unit)) = None ->
  fraction_digits_ok options = true ->
  let a := floor_scaled (Z.of_N m) e in
  let k := unit_exponent_of a in
  (exists str,
      format (JNum (Fin neg m e)) options
      = Return (JStr (str ++ string_option options opt_unitSeparator
                          ++ unit_name k)))
  /\ ((k = 0 /\ a < 2 ^ 10)
      \/ ((k = 10 \/ k = 20 \/ k = 30 \/ k = 40) /\ 2 ^ k <= a < 2 ^ (k + 10))
      \/ (k = 50 /\ 2 ^ 50 <= a)).
Proof.
  intros Hu Hd a k. split.
  - destruct (format_auto_unit neg m e options Hu Hd) as [str H].
    exists str. rewrite H, auto_unit_floor. reflexivity.
  - apply unit_exponent_of_bounds.
Qed.

Lemma X5_witness :
  (exists str,
      format (JNum (of_Z (- 1048575)))
             (Some (mkOptions None None None (Some " ") (Some "xb")))
      = Return (JStr (str ++ " " ++ "KB")))
  /\ 2 ^ 10 <= 1048575 < 2 ^ 20.
Proof.
  destruct (X5_unit_by_magnitude true 1048575 0
              (Some (mkOptions None None None (Some " ") (Some "xb")))
              (or_intror eq_refl) eq_refl) as (H1 & H2).
  split; [ exact H1 | vm_compute; split; [ discriminate | reflexivity ] ].
Defined.

(** ** A unit that the table knows *)

Lemma lower_char_idem (c : ascii) : lower_char (lower_char c) = lower_char c.
Proof.
  destruct c as [[ | ] [ | ] [ | ] [ | ] [ | ] [ | ] [ | ] [ | ]];
    vm_compute; reflexivity.
Qed.

Lemma toLowerCase_idem (s : string) : toLowerCase (toLowerCase s) = toLowerCase s.
Proof.
  induction s as [ | c r IH]; [ reflexivity | ].
  cbn [toLowerCase]. rewrite lower_char_idem, IH. reflexivity.
Qed.

(** X6: a unit that the table knows is looked up without regard to case
    and written as the caller wrote it: the same numeral and unit
    separator come before the unit as given and before its lower case. *)
Theorem X6_known_unit_case (neg : bool) (m : N) (e : Z) (o : Options)
        (u : string) (x : map_entry) :
  map (toLowerCase u) = Some x ->
  fraction_digits_ok (Some o) = true ->
  exists str,
    format (JNum (Fin neg m e)) (with_unit o u)
    = Return (JStr (str ++ string_option (Some o) opt_unitSeparator ++ u))
    /\ format (JNum (Fin neg m e)) (with_unit o (toLowerCase u))
       = Return (JStr (str ++ string_option (Some o) opt_unitSeparator
                           ++ toLowerCase u)).
Proof.
  intros Hx Hd.
  assert (Hne : u <> "") by (intros ->; discriminate).
  assert (Hnl : toLowerCase u <> "")
    by (destruct u; [ contradiction | discriminate ]).
  apply fraction_digits_ok_spec in Hd as (f & Hf & Hr).
  rewrite !format_unfold. cbv zeta.
  rewrite (resolve_unit_known (with_unit o u) (Fin false m e) x Hne Hx).
  rewrite (resolve_unit_known (with_unit o (toLowerCase u)) (Fin false m e) x Hnl)
    by (cbn; rewrite toLowerCase_idem; exact Hx).
  cbn [with_unit string_option opt_unit opt_thousandsSeparator opt_unitSeparator].
  rewrite toLowerCase_idem.
  change (decimalPlaces_of (with_unit o u)) with (decimalPlaces_of (Some o)).
  change (decimalPlaces_of (with_unit o (toLowerCase u)))
    with (decimalPlaces_of (Some o)).
  change (fixedDecimals_of (with_unit o u)) with (fixedDecimals_of (Some o)).
  change (fixedDecimals_of (with_unit o (toLowerCase u)))
    with (fixedDecimals_of (Some o)).
  destruct (toFixed_returns
              (num_div (Fin neg m e) (entry_number (map (toLowerCase u))))
              _ f Hf Hr) as [str Hstr].
  rewrite Hstr. eexists. split; reflexivity.
Qed.

Lemma X6_witness :
  exists str,
    format (JNum (of_Z 1536)) (Some (mkOptions None None None (Some " ") (Some "kB")))
    = Return (JStr (str ++ " " ++ "kB"))
    /\ format (JNum (of_Z 1536)) (Some (mkOptions None None None (Some " ") (Some "kb")))
       = Return (JStr (str ++ " " ++ "kb")).
Proof.
  exact (X6_known_unit_case false 3 9 (mkOptions None None None (Some " ") None)
           "kB" (Own (of_Z (2 ^ 10))) eq_refl eq_refl).
Defined.

(** ** The module export *)

(** X7: the export returns a number for every string, null or a RangeError
    for a number and null for any other value; the exception is raised
    exactly for a finite number with a number of decimal places outside
    0..100, and a finite number otherwise gives a string. *)
Theorem X7_convert_results (value : jsval) (options : option Options) :
  match value with
  | JStr s => exists y, convert value options = Return (JNum y)
  | JNum x =>
      if Number_isFinite x then
        if fraction_digits_ok options
        then exists s, convert value options = Return (JStr s)
        else convert value options = Throw RangeError
      else convert value options = Return JNull
  | _ => convert value options = Return JNull
  end.
Proof.
  destruct value as [ | | b | x | s | ]; try reflexivity.
  - cbn [convert]. destruct (Number_isFinite x) eqn:Hx.
    + destruct (fraction_digits_ok options) eqn:Hd.
      * apply format_finite_ok; assumption.
      * apply format_finite_throws; assumption.
    + apply format_not_finite. exact Hx.
  - cbn [convert]. destruct (parse_string_number s) as (y & Hy & _).
    exists y. exact Hy.
Qed.

(** X8: the export applied twice gives back an integer of bytes that is an
    exact number of hundredths of its unit, below 10^21 units: the first
    call writes it with the default options, the second reads the string,
    whatever options it is given. *)
Theorem X8_convert_round_trip (n : Z) (options : option Options) :
  is_double (of_Z n) = true ->
  (100 * n) mod 2 ^ unit_exponent_of (Z.abs n) = 0 ->
  Z.abs n < 10 ^ 21 * 2 ^ unit_exponent_of (Z.abs n) ->
  exists r, convert (JNum (of_Z n)) None = Return r
            /\ convert r options = Return (JNum (of_Z n)).
Proof.
  intros Hd Hm Hs.
  destruct (round_trip_exact n Hd Hm Hs) as (s & Hf & Hp).
  exists (JStr s). split.
  - destruct (of_Z n); exact Hf.
  - exact Hp.
Qed.

Lemma X8_witness :
  exists r, convert (JNum (of_Z 1536)) None = Return r
            /\ convert r (only_unit "MB") = Return (JNum (of_Z 1536)).
Proof.
  apply (X8_convert_round_trip 1536 (only_unit "MB")); vm_compute; reflexivity.
Defined.

(** ** The digits written by toFixed *)

(** The text [toFixed] builds from the digits of [K] for [fn] fraction
    digits: an integer part and [fn] digits. *)
Lemma fixed_split (K : Z) (fn : nat) :
  0 <= K ->
  let ds := to_digits K in
  let ds' := repeat_char "0" (fn + 1 - length ds) ++ ds in
  exists a b,
    split_at (length ds' - fn) ds' = (a, b)
    /\ is_digits a = true /\ all_chars is_digit b = true /\ length b = fn
    /\ digits_val 0 (a ++ b) = K.
Proof.
  intros HK ds ds'.
  destruct (to_digits_spec K HK) as (Hd1 & Hd2 & Hd3). fold ds in Hd1, Hd2, Hd3.
  assert (Hall : all_chars is_digit ds' = true)
    by (unfold ds'; rewrite all_chars_app, all_chars_zeros, Hd1; reflexivity).
  assert (Hval : digits_val 0 ds' = K).
  { unfold ds'. rewrite digits_val_app, digits_val_zeros. cbn [Z.mul]. exact Hd2. }
  assert (Hlen : (fn + 1 <= length ds')%nat).
  { unfold ds'. rewrite length_app, length_zeros. lia. }
  clearbody ds'. clear Hd1 Hd2 Hd3. clearbody ds.
  destruct (split_at_spec (length ds' - fn) ds' ltac:(lia)) as [Hs1 Hs2].
  destruct (split_at (length ds' - fn) ds') as [a b]; cbn [fst snd] in *.
  assert (Hb : length b = fn).
  { pose proof (f_equal length Hs1) as Hl. rewrite length_app in Hl. lia. }
  exists a, b. split; [ reflexivity | ].
  rewrite Hs1, all_chars_app in Hall. apply andb_true_iff in Hall as [Ha Hb'].
  repeat split; try assumption.
  - unfold is_digits. rewrite Ha.
    destruct a; [ cbn in Hs2; lia | reflexivity ].
  - rewrite <- Hs1. exact Hval.
Qed.

Lemma toFixed_digits (neg : bool) (m : N) (e : Z) (d : number) (f : Z) :
  ToIntegerOrInfinity d = Some f -> 0 < f <= 100 ->
  ge_1e21 (Z.of_N m) e = false ->
  exists a b,
    toFixed (Fin neg m e) d = Return (minus_text neg m ++ a ++ "." ++ b)
    /\ is_digits a = true /\ all_chars is_digit b = true
    /\ Z.of_nat (length b) = f
    /\ digits_val 0 (a ++ b) = half_up_scaled (Z.of_N m) e f.
Proof.
  intros Hd Hf Hsmall.
  pose proof (half_up_nonneg (Z.of_N m) e f ltac:(lia) ltac:(lia)) as HK.
  destruct (fixed_split _ (Z.to_nat f) HK) as (a & b & Hs & Ha & Hb & Hl & Hv).
  exists a, b. split; [ | repeat split; try assumption; lia ].
  unfold toFixed. rewrite Hd.
  replace ((f <? 0) || (100 <? f)) with false
    by (symmetry; apply orb_false_iff; split; apply Z.ltb_ge; lia).
  cbv iota. rewrite Hsmall.
  replace (f =? 0) with false by (symmetry; apply Z.eqb_neq; lia).
  cbv iota zeta in Hs |- *. rewrite Hs. reflexivity.
Qed.

Lemma half_up_scaled_nearest (m e f : Z) :
  0 <= m -> 0 <= f ->
  nearest_integer (half_up_scaled m e f) (m * 10 ^ f) e.
Proof.
  intros Hm Hf.
  assert (H10 : 0 < 10 ^ f) by pow_pos.
  replace (half_up_scaled m e f) with (half_up_scaled (m * 10 ^ f) e 0).
  - apply half_up_nearest. nia.
  - unfold half_up_scaled. rewrite Z.pow_0_r.
    destruct (0 <=? e); [ ring | ]. f_equal. ring.
Qed.

(** ** The quotient by the multiplier of a unit *)

(** The quotient of a double by [2^k] is exact as long as it is not below
    the least exponent. *)
Lemma div_pow2_exact (neg : bool) (m : N) (e k : Z) :
  is_double (Fin neg m e) = true -> 0 <= k ->
  (m <> 0%N -> -1074 <= e - k) ->
  num_div (Fin neg m e) (of_Z (2 ^ k))
  = Fin neg m (if (m =? 0)%N then 0 else e - k).
Proof.
  intros Hx Hk Hlow. rewrite of_Z_pow2 by lia.
  apply is_double_Fin in Hx.
  destruct Hx as [[-> ->] | (Hodd & Hm & He & Hmax)].
  - cbn [num_div]. change (1 =? 0)%N with false. cbv iota.
    rewrite xorb_false_r. reflexivity.
  - assert (Hm0 : m <> 0%N) by lia.
    replace (m =? 0)%N with false by (symmetry; apply N.eqb_neq; exact Hm0).
    cbn [num_div]. change (1 =? 0)%N with false. cbv iota.
    rewrite xorb_false_r.
    rewrite <- (N2Z.id m) at 2.
    apply round_Q_exact;
      [ apply Z.mul_pos_pos; [ reflexivity | pow_pos ]
      | lia | assumption | lia | apply Hlow; exact Hm0 | | ].
    + eapply Z.le_lt_trans; [ | exact Hmax ].
      apply Z.mul_le_mono_nonneg_l; [ lia | ].
      apply Z.pow_le_mono_r; lia.
    + change (Z.of_N 1) with 1. rewrite Z.mul_1_l.
      replace (Z.max 0 (- (e - k))) with (Z.max 0 (k - e)) by lia. ring.
Qed.

Lemma half_up_zero (e f : Z) : half_up_scaled 0 e f = 0.
Proof.
  unfold half_up_scaled. destruct (0 <=? e) eqn:He; [ ring | ].
  apply Z.leb_gt in He. cbn [Z.mul].
  replace (1 - e) with (1 + - e) by lia.
  rewrite Z.pow_add_r by lia. change (2 ^ 1) with 2.
  assert (0 < 2 ^ (- e)) by pow_pos.
  apply Z.div_small. lia.
Qed.

(** ** A fixed number of decimals *)

(** X9: with [fixedDecimals] and no thousands separator, a value whose
    quotient by the multiplier 2^k of its unit is exact and below 10^21 is
    written as the sign, an integer part, a point and exactly as many
    fraction digits as [decimalPlaces] asks for, from 1 to 100; the digits
    are those of the integer nearest to the quotient times 10^decimalPlaces
    (the larger of two). *)
Theorem X9_fixed_decimals (neg : bool) (m : N) (e : Z) (options : option Options)
        (k f : Z) :
  is_double (Fin neg m e) = true ->
  let unit := resolve_unit options (Fin false m e) in
  0 <= k -> entry_number (map (toLowerCase unit)) = of_Z (2 ^ k) ->
  (m <> 0%N -> -1074 <= e - k) ->
  ge_1e21 (Z.of_N m) (e - k) = false ->
  ToIntegerOrInfinity (decimalPlaces_of options) = Some f -> 0 < f <= 100 ->
  fixedDecimals_of options = true ->
  string_option options opt_thousandsSeparator = "" ->
  exists a b,
    format (JNum (Fin neg m e)) options
    = Return (JStr (minus_text neg m ++ a ++ "." ++ b
                      ++ string_option options opt_unitSeparator ++ unit))
    /\ is_digits a = true /\ all_chars is_digit b = true
    /\ Z.of_nat (length b) = f
    /\ nearest_integer (digits_val 0 (a ++ b)) (Z.of_N m * 10 ^ f) (e - k).
Proof.
  intros Hx unit Hk Hentry Hlow Hsmall Hd Hf Hfixed Hsep.
  set (e' := if (m =? 0)%N then 0 else e - k).
  assert (Hsmall' : ge_1e21 (Z.of_N m) e' = false).
  { unfold e'. destruct (m =? 0)%N eqn:Hm; [ | exact Hsmall ].
    apply N.eqb_eq in Hm. subst m. reflexivity. }
  assert (HK : half_up_scaled (Z.of_N m) e' f = half_up_scaled (Z.of_N m) (e - k) f).
  { unfold e'. destruct (m =? 0)%N eqn:Hm; [ | reflexivity ].
    apply N.eqb_eq in Hm. subst m. cbn [Z.of_N]. rewrite !half_up_zero. reflexivity. }
  destruct (toFixed_digits neg m e' _ f Hd Hf Hsmall')
    as (a & b & Hfix & Ha & Hb & Hl & Hv).
  exists a, b. split; [ | repeat split; try assumption ].
  - rewrite format_unfold. cbv zeta. fold unit.
    rewrite Hentry, (div_pow2_exact neg m e k Hx Hk Hlow). fold e'.
    rewrite Hfix, Hfixed, Hsep. cbn [is_empty]. cbv iota.
    rewrite !app_assoc_s. reflexivity.
  - rewrite Hv, HK. apply half_up_scaled_nearest; lia.
Qed.

Lemma X9_witness :
  exists a b,
    format (JNum (of_Z 1536))
           (Some (mkOptions (Some (of_Z 3)) (Some true) None (Some " ") (Some "kb")))
    = Return (JStr ("" ++ a ++ "." ++ b ++ " " ++ "kb"))
    /\ is_digits a = true /\ all_chars is_digit b = true
    /\ Z.of_nat (length b) = 3
    /\ nearest_integer (digits_val 0 (a ++ b)) (3 * 10 ^ 3) (9 - 10).
Proof.
  apply (X9_fixed_decimals false 3 9
           (Some (mkOptions (Some (of_Z 3)) (Some true) None (Some " ") (Some "kb")))
           10 3);
    try reflexivity; try lia.
Defined.

(** ** Trailing zeros *)

Lemma zeros_all_zero (j : nat) :
  all_chars (fun c => code c =? 48) (repeat_char "0" j) = true.
Proof. induction j as [ | j IH]; [ reflexivity | exact IH ]. Qed.

Lemma zeros_head (j : nat) :
  head_fails (fun c => negb (code c =? 48)) (repeat_char "0" j) = true.
Proof. destruct j; reflexivity. Qed.

Lemma ends_nonzero_not_zeros (c : ascii) (r : string) :
  ends_nonzero (String c r) = true ->
  all_chars (fun c => code c =? 48) (String c r) = false.
Proof.
  revert c. induction r as [ | c' r IH]; intros c H.
  - cbn in *. apply negb_true_iff in H. rewrite H. reflexivity.
  - change (ends_nonzero (String c' r) = true) in H.
    pose proof (IH c' H) as IH'. cbn [all_chars] in IH' |- *.
    rewrite IH'. apply andb_false_r.
Qed.

Lemma not_zeros_app (s t : string) :
  all_chars (fun c => code c =? 48) s = false ->
  all_chars (fun c => code c =? 48) (s ++ t) = false.
Proof. intros H. rewrite all_chars_app, H. reflexivity. Qed.

(** The fraction [b0] followed by zeros, for a [b0] that holds a zero:
    the second alternative of the pattern stops at this zero and finds a
    digit other than zero behind it. *)
Lemma decimals_match_inner_zero (b0 : string) (j : nat) :
  ends_nonzero b0 = true -> is_empty b0 = false ->
  all_chars (fun c => negb (code c =? 48)) b0 = false ->
  decimals_match (b0 ++ repeat_char "0" j) = None.
Proof.
  intros Hend Hne Hz. unfold decimals_match.
  destruct b0 as [ | c0 r0]; [ discriminate | ].
  rewrite (not_zeros_app _ _ (ends_nonzero_not_zeros c0 r0 Hend)).
  pose proof (span_spec (fun c => negb (code c =? 48)) (String c0 r0)) as (S1 & S2 & S3).
  destruct (span (fun c => negb (code c =? 48)) (String c0 r0)) as [nz rest] eqn:Hspan.
  cbn [fst snd] in *.
  destruct rest as [ | z rest'].
  - rewrite app_empty_r in S1. rewrite <- S1 in S2. congruence.
  - assert (Hsp : span (fun c => negb (code c =? 48)) (String c0 r0 ++ repeat_char "0" j)
                  = (nz, String z rest' ++ repeat_char "0" j)).
    { rewrite S1, app_assoc_s. apply span_app; [ exact S2 | exact S3 ]. }
    rewrite Hsp.
    assert (Hrest : ends_nonzero (String z rest') = true).
    { rewrite S1 in Hend. clear - Hend. induction nz as [ | a nz IH].
      - exact Hend.
      - apply IH. destruct nz; exact Hend. }
    cbn [head_fails] in S3. apply negb_true_iff in S3. rewrite negb_false_iff in S3.
    assert (Hr' : all_chars (fun c => code c =? 48) (String z rest') = false)
      by (apply ends_nonzero_not_zeros; exact Hrest).
    rewrite (not_zeros_app _ (repeat_char "0" j) Hr').
    rewrite !andb_false_r. reflexivity.
Qed.

(** X10: on a numeral with a fraction made of the digits [b0], which do not
    end with a zero, followed by zeros, the replacement that strips the
    decimals removes the point when [b0] is empty, removes the zeros when
    [b0] holds no zero, and otherwise leaves the numeral as it is. *)
Theorem X10_trailing_zeros (p b0 : string) (j : nat) :
  all_chars (fun c => negb (is_point c)) p = true ->
  all_chars is_digit b0 = true -> ends_nonzero b0 = true ->
  replace_decimals (p ++ "." ++ b0 ++ repeat_char "0" j)
  = if is_empty b0 then p
    else if all_chars (fun c => negb (code c =? 48)) b0 then p ++ "." ++ b0
    else p ++ "." ++ b0 ++ repeat_char "0" j.
Proof.
  intros Hp Hb Hend.
  change ("." ++ b0 ++ repeat_char "0" j) with (String "." (b0 ++ repeat_char "0" j)).
  rewrite (replace_decimals_skip p _ Hp).
  assert (Hkeep : replace_decimals (b0 ++ repeat_char "0" j) = b0 ++ repeat_char "0" j).
  { apply replace_decimals_no_point, digits_no_point.
    rewrite all_chars_app, Hb, all_chars_zeros. reflexivity. }
  destruct (is_empty b0) eqn:Hne.
  - destruct b0; [ | discriminate ]. cbn [append].
    unfold decimals_match. rewrite zeros_all_zero. apply app_empty_r.
  - destruct (all_chars (fun c => negb (code c =? 48)) b0) eqn:Hnz.
    + unfold decimals_match.
      destruct b0 as [ | c0 r0]; [ discriminate | ].
      rewrite (not_zeros_app _ _ (ends_nonzero_not_zeros c0 r0 Hend)).
      rewrite (span_app _ _ _ Hnz (zeros_head j)).
      cbn [is_empty negb andb]. rewrite zeros_all_zero, andb_true_r.
      destruct j as [ | j].
      * cbn [repeat_char is_empty negb] in Hkeep |- *. rewrite Hkeep.
        rewrite !app_empty_r. reflexivity.
      * cbn [repeat_char is_empty negb]. reflexivity.
    + rewrite (decimals_match_inner_zero b0 j Hend Hne Hnz), Hkeep. reflexivity.
Qed.

Lemma X10_witness :
  replace_decimals ("-1" ++ "." ++ "5" ++ repeat_char "0" 2) = "-1" ++ "." ++ "5"
  /\ replace_decimals ("1" ++ "." ++ "05" ++ repeat_char "0" 1)
     = "1" ++ "." ++ "05" ++ repeat_char "0" 1.
Proof.
  split.
  - exact (X10_trailing_zeros "-1" "5" 2 eq_refl eq_refl eq_refl).
  - exact (X10_trailing_zeros "1" "05" 1 eq_refl eq_refl eq_refl).
Defined.

(** ** The thousands separator *)

Lemma GetSubstitution_plain (before after cap t : string) :
  is_plain t = true -> GetSubstitution before after cap t = t.
Proof.
  unfold is_plain. induction t as [ | c r IH]; [ reflexivity | ].
  cbn [all_chars]. intros H. apply andb_true_iff in H as [Hc Hr].
  specialize (IH Hr).
  destruct c as [[ | ] [ | ] [ | ] [ | ] [ | ] [ | ] [ | ] [ | ]];
    try (vm_compute in Hc; discriminate Hc);
    cbn [GetSubstitution]; rewrite IH; reflexivity.
Qed.

(** With a plain separator the replacement looks at the text passed only
    to see whether its last character is a word character. *)
Lemma replace_thousands_prev (s t before before' : string) (prev prev' : option ascii) :
  is_plain t = true ->
  not_boundary prev = not_boundary prev' ->
  replace_thousands_from before prev s t = replace_thousands_from before' prev' s t.
Proof.
  intros Ht. revert before before' prev prev'.
  induction s as [ | c r IH]; intros before before' prev prev' Hp.
  - cbn [replace_thousands_from]. rewrite Hp.
    destruct (not_boundary prev' ""); [ | reflexivity ].
    destruct (thousands_lookahead ""); [ | reflexivity ].
    rewrite !GetSubstitution_plain by assumption. reflexivity.
  - cbn [replace_thousands_from]. rewrite Hp.
    rewrite (IH (before ++ String c "") (before' ++ String c "") (Some c) (Some c) eq_refl).
    destruct (not_boundary prev' (String c r)); [ | reflexivity ].
    destruct (thousands_lookahead (String c r)); [ | reflexivity ].
    rewrite !GetSubstitution_plain by assumption. reflexivity.
Qed.

Lemma lookahead_no_digit (s : string) :
  head_fails is_digit s = true -> thousands_lookahead s = None.
Proof.
  intros H. unfold thousands_lookahead. rewrite (span_none _ _ H). reflexivity.
Qed.

Lemma replace_thousands_minus (s t : string) :
  is_plain t = true ->
  replace_thousands ("-" ++ s) t = "-" ++ replace_thousands s t.
Proof.
  intros Ht. unfold replace_thousands.
  change ("-" ++ s) with (String "-" s).
  cbn [replace_thousands_from].
  rewrite (lookahead_no_digit (String "-" s) eq_refl).
  destruct (not_boundary None (String "-" s)); cbn [append]; f_equal;
    apply replace_thousands_prev; try exact Ht; reflexivity.
Qed.

Lemma is_word_digit (c : ascii) : is_digit c = true -> is_word c = true.
Proof. intros H. unfold is_word. rewrite H. reflexivity. Qed.

(** A run of digits that follows a digit and is followed by [rest], a text
    that the replacement leaves as it is. *)
Lemma replace_thousands_digits (t rest : string) :
  is_plain t = true -> head_fails is_digit rest = true ->
  (forall before pc, is_digit pc = true ->
                     replace_thousands_from before (Some pc) rest t = rest) ->
  forall ip before pc,
    is_digit pc = true -> all_chars is_digit ip = true ->
    replace_thousands_from before (Some pc) (ip ++ rest) t
    = (if negb (is_empty ip) && (Nat.modulo (length ip) 3 =? 0)%nat then t else "")
        ++ group3 t ip ++ rest.
Proof.
  intros Ht Hrest Hend. induction ip as [ | c r IH]; intros before pc Hpc Hip.
  - cbn [append is_empty negb andb group3]. apply Hend. exact Hpc.
  - cbn [all_chars] in Hip. apply andb_true_iff in Hip as [Hc Hr].
    change (String c r ++ rest) with (String c (r ++ rest)).
    cbn [replace_thousands_from].
    rewrite (IH (before ++ String c "") c Hc Hr).
    assert (Hnb : not_boundary (Some pc) (String c (r ++ rest)) = true)
      by (unfold not_boundary; rewrite (is_word_digit pc Hpc), (is_word_digit c Hc);
          reflexivity).
    rewrite Hnb.
    assert (Hla : thousands_lookahead (String c (r ++ rest))
                  = if negb (is_empty (String c r))
                       && (Nat.modulo (length (String c r)) 3 =? 0)%nat
                    then Some (snd (split_at (length (String c r) - 3) (String c r)))
                    else None).
    { unfold thousands_lookahead.
      change (String c (r ++ rest)) with (String c r ++ rest).
      rewrite (span_app is_digit (String c r) rest);
        [ reflexivity | cbn [all_chars]; rewrite Hc, Hr; reflexivity | exact Hrest ]. }
    rewrite Hla. cbn [group3 append]. rewrite app_assoc_s.
    destruct (negb (is_empty (String c r))
              && (Nat.modulo (length (String c r)) 3 =? 0)%nat).
    + rewrite (GetSubstitution_plain _ _ _ t Ht). reflexivity.
    + reflexivity.
Qed.

Lemma lookahead_short (s : string) :
  (length s < 3)%nat -> thousands_lookahead s = None.
Proof.
  intros H. unfold thousands_lookahead.
  pose proof (span_spec is_digit s) as (H1 & _ & _).
  destruct (span is_digit s) as [ds rest]; cbn [fst snd] in H1.
  apply (f_equal length) in H1. rewrite length_app in H1.
  destruct ds as [ | a [ | b [ | c r]]]; try reflexivity.
  cbn [length] in H1. lia.
Qed.

Lemma replace_thousands_skip (before : string) (prev : option ascii) (c : ascii)
      (r t : string) :
  not_boundary prev (String c r) = false \/ thousands_lookahead (String c r) = None ->
  replace_thousands_from before prev (String c r) t
  = String c (replace_thousands_from (before ++ String c "") (Some c) r t).
Proof.
  intros H. cbn [replace_thousands_from].
  destruct H as [H | H]; rewrite H; [ reflexivity | ].
  destruct (not_boundary prev (String c r)); reflexivity.
Qed.

Lemma replace_thousands_end (before : string) (prev : option ascii) (t : string) :
  replace_thousands_from before prev "" t = "".
Proof.
  cbn [replace_thousands_from]. destruct (not_boundary prev ""); reflexivity.
Qed.

(** A fraction of one to three digits receives no separator. *)
Lemma replace_thousands_fraction (t : string) (fp : option string)
      (before : string) (pc : ascii) :
  is_fraction fp = true -> (length (fraction_digits fp) <= 3)%nat ->
  is_digit pc = true ->
  replace_thousands_from before (Some pc) (fraction_text fp) t = fraction_text fp.
Proof.
  intros Hfp Hlen Hpc.
  destruct fp as [f | ]; [ | apply replace_thousands_end ].
  cbn [fraction_text fraction_digits is_fraction] in *.
  apply is_digits_inv in Hfp as (_ & d1 & r & -> & D1).
  rewrite replace_thousands_skip by (right; apply lookahead_no_digit; reflexivity).
  rewrite replace_thousands_skip
    by (left; unfold not_boundary; rewrite (is_word_digit d1 D1); reflexivity).
  do 2 f_equal.
  destruct r as [ | d2 [ | d3 [ | d4 r]]]; cbn [length] in Hlen; try lia.
  - apply replace_thousands_end.
  - rewrite replace_thousands_skip by (right; apply lookahead_short; cbn; lia).
    rewrite replace_thousands_end. reflexivity.
  - rewrite replace_thousands_skip by (right; apply lookahead_short; cbn; lia).
    rewrite replace_thousands_skip by (right; apply lookahead_short; cbn; lia).
    rewrite replace_thousands_end. reflexivity.
Qed.

Lemma fraction_head (fp : option string) :
  head_fails is_digit (fraction_text fp) = true.
Proof. destruct fp; reflexivity. Qed.

Lemma replace_thousands_numeral (ip : string) (fp : option string) (sep : string) :
  is_digits ip = true -> is_fraction fp = true ->
  (length (fraction_digits fp) <= 3)%nat -> is_plain sep = true ->
  replace_thousands (ip ++ fraction_text fp) sep
  = group3 sep ip ++ fraction_text fp.
Proof.
  intros Hip Hfp Hlen Hsep.
  destruct (is_digits_inv ip Hip) as (Hall & c & r & -> & Hc).
  cbn [all_chars] in Hall. apply andb_true_iff in Hall as [_ Hr].
  unfold replace_thousands.
  change (String c r ++ fraction_text fp) with (String c (r ++ fraction_text fp)).
  cbn [replace_thousands_from].
  assert (Hb : not_boundary None (String c (r ++ fraction_text fp)) = false)
    by (unfold not_boundary; rewrite (is_word_digit c Hc); reflexivity).
  rewrite Hb. cbn [append group3]. f_equal. rewrite app_assoc_s.
  apply (replace_thousands_digits sep (fraction_text fp) Hsep (fraction_head fp));
    try assumption.
  intros before pc Hpc. apply replace_thousands_fraction; assumption.
Qed.

(** X11: on a numeral with a fraction of at most three digits, a separator
    without a dollar sign is put between the groups of three digits of the
    integer part, counted from the right; the sign and the fraction are
    left as they are. *)
Theorem X11_thousands_grouping (neg : bool) (ip : string) (fp : option string)
        (sep : string) :
  is_digits ip = true -> is_fraction fp = true ->
  (length (fraction_digits fp) <= 3)%nat -> is_plain sep = true ->
  replace_thousands ((if neg then "-" else "") ++ ip ++ fraction_text fp) sep
  = (if neg then "-" else "") ++ group3 sep ip ++ fraction_text fp.
Proof.
  intros Hip Hfp Hlen Hsep. destruct neg.
  - rewrite (replace_thousands_minus _ sep Hsep).
    rewrite (replace_thousands_numeral ip fp sep Hip Hfp Hlen Hsep). reflexivity.
  - apply replace_thousands_numeral; assumption.
Qed.

Lemma X11_witness :
  replace_thousands ("-" ++ "1234567" ++ fraction_text (Some "891")) ", "
  = "-" ++ "1, 234, 567" ++ ".891".
Proof.
  exact (X11_thousands_grouping true "1234567" (Some "891") ", "
           eq_refl eq_refl (le_n 3) eq_refl).
Defined.

(** ** The sign *)

Lemma toFixed_minus (m : N) (e : Z) (d : number) :
  m <> 0%N ->
  toFixed (Fin true m e) d
  = match toFixed (Fin false m e) d with
    | Return s => Return ("-" ++ s)
    | Throw err => Throw err
    end.
Proof.
  intros Hm. unfold toFixed.
  destruct (ToIntegerOrInfinity d) as [f | ]; [ | reflexivity ].
  destruct ((f <? 0) || (100 <? f)); [ reflexivity | ].
  replace (m =? 0)%N with false by (symmetry; apply N.eqb_neq; exact Hm).
  cbn [andb negb].
  destruct (ge_1e21 (Z.of_N m) e); [ reflexivity | ].
  destruct (f =? 0); [ reflexivity | ].
  cbv zeta.
  destruct (split_at _ _) as [a b]. reflexivity.
Qed.

(** X12: the opposite of a value other than zero is written as a minus sign
    followed by the text of the value, and it raises the same exception,
    when the quotient by the multiplier 2^k of the unit is exact and the
    thousands separator holds no dollar sign. *)
Theorem X12_minus_sign (m : N) (e : Z) (options : option Options) (k : Z) :
  is_double (Fin false m e) = true -> m <> 0%N ->
  0 <= k ->
  entry_number (map (toLowerCase (resolve_unit options (Fin false m e))))
  = of_Z (2 ^ k) ->
  -1074 <= e - k ->
  is_plain (string_option options opt_thousandsSeparator) = true ->
  format (JNum (Fin true m e)) options
  = match format (JNum (Fin false m e)) options with
    | Return (JStr s) => Return (JStr ("-" ++ s))
    | r => r
    end.
Proof.
  intros Hx Hm Hk Hentry Hlow Hsep.
  assert (Hx' : is_double (Fin true m e) = true) by exact Hx.
  rewrite !format_unfold. cbv zeta. rewrite Hentry.
  rewrite (div_pow2_exact true m e k Hx' Hk (fun _ => Hlow)).
  rewrite (div_pow2_exact false m e k Hx Hk (fun _ => Hlow)).
  rewrite (toFixed_minus m _ _ Hm).
  destruct (toFixed (Fin false m (if (m =? 0)%N then 0 else e - k))
                    (decimalPlaces_of options)) as [str | err]; [ | reflexivity ].
  assert (Hdec : replace_decimals ("-" ++ str) = "-" ++ replace_decimals str)
    by reflexivity.
  destruct (fixedDecimals_of options);
    destruct (is_empty (string_option options opt_thousandsSeparator));
    rewrite ?Hdec, ?(replace_thousands_minus _ _ Hsep); reflexivity.
Qed.

Lemma X12_witness :
  format (JNum (of_Z (- 1234567)))
         (Some (mkOptions None None (Some ",") None (Some "b")))
  = match format (JNum (of_Z 1234567))
                 (Some (mkOptions None None (Some ",") None (Some "b"))) with
    | Return (JStr s) => Return (JStr ("-" ++ s))
    | r => r
    end.
Proof.
  apply (X12_minus_sign 1234567 0
           (Some (mkOptions None None (Some ",") None (Some "b"))) 0);
    try reflexivity; lia.
Defined.

(** ** The numeral written by format *)

Lemma group3_empty (s : string) : group3 "" s = s.
Proof.
  induction s as [ | c r IH]; [ reflexivity | ].
  cbn [group3]. rewrite IH.
  destruct (negb (is_empty r) && (Nat.modulo (length r) 3 =? 0)%nat); reflexivity.
Qed.

(** The text of [toFixed] below 10^21: an integer part and, unless no
    fraction digit is asked for, a point and the fraction digits. *)
Lemma toFixed_text (neg : bool) (m : N) (e : Z) (d : number) (f : Z) :
  ToIntegerOrInfinity d = Some f -> 0 <= f <= 100 ->
  ge_1e21 (Z.of_N m) e = false ->
  exists a fp,
    toFixed (Fin neg m e) d = Return (minus_text neg m ++ a ++ fraction_text fp)
    /\ is_digits a = true /\ is_fraction fp = true
    /\ Z.of_nat (length (fraction_digits fp)) = f
    /\ digits_val 0 (a ++ fraction_digits fp) = half_up_scaled (Z.of_N m) e f.
Proof.
  intros Hd Hf Hsmall.
  destruct (Z.eq_dec f 0) as [-> | Hf0].
  - pose proof (half_up_nonneg (Z.of_N m) e 0 ltac:(lia) ltac:(lia)) as HK.
    destruct (to_digits_spec _ HK) as (D1 & D2 & D3).
    exists (to_digits (half_up_scaled (Z.of_N m) e 0)), None.
    cbn [fraction_text fraction_digits is_fraction length].
    rewrite !app_empty_r. repeat split; try assumption.
    + unfold toFixed. rewrite Hd. cbn [Z.ltb Z.compare orb]. rewrite Hsmall.
      reflexivity.
    + unfold is_digits. rewrite D1, D3. reflexivity.
  - destruct (toFixed_digits neg m e d f Hd ltac:(lia) Hsmall)
      as (a & b & Hfix & Ha & Hb & Hl & Hv).
    exists a, (Some b). cbn [fraction_text fraction_digits is_fraction].
    repeat split; try assumption.
    unfold is_digits. rewrite Hb.
    destruct b; [ cbn in Hl; lia | reflexivity ].
Qed.

Lemma all_zero_repeat (b : string) :
  all_chars (fun c => code c =? 48) b = true -> b = repeat_char "0" (length b).
Proof.
  induction b as [ | c r IH]; [ reflexivity | ].
  cbn [all_chars length repeat_char]. intros H.
  apply andb_true_iff in H as [Hc Hr].
  apply Z.eqb_eq, code_inj in Hc. subst c. f_equal. exact (IH Hr).
Qed.

(** Stripping the decimals of a numeral removes zeros at the end of the
    fraction, and the point with them when nothing else is left. *)
Lemma replace_decimals_fraction (p : string) (fp0 : option string) :
  all_chars (fun c => negb (is_point c)) p = true -> is_fraction fp0 = true ->
  exists fp j,
    replace_decimals (p ++ fraction_text fp0) = p ++ fraction_text fp
    /\ is_fraction fp = true
    /\ fraction_digits fp0 = fraction_digits fp ++ repeat_char "0" j.
Proof.
  intros Hp Hfp0. destruct fp0 as [b | ].
  - cbn [fraction_text fraction_digits is_fraction] in *.
    destruct (is_digits_inv b Hfp0) as (Hall & _).
    rewrite (replace_decimals_skip p b Hp). unfold decimals_match.
    destruct (all_chars (fun c => code c =? 48) b) eqn:Hz.
    + exists None, (length b). cbn [fraction_text fraction_digits append].
      repeat split. apply all_zero_repeat. exact Hz.
    + pose proof (span_spec (fun c => negb (code c =? 48)) b) as (S1 & S2 & S3).
      destruct (span (fun c => negb (code c =? 48)) b) as [nz zs]; cbn [fst snd] in *.
      destruct (negb (is_empty nz) && negb (is_empty zs)
                && all_chars (fun c => code c =? 48) zs) eqn:Hc.
      * apply andb_true_iff in Hc as [Hc Hzs]. apply andb_true_iff in Hc as [Hnz _].
        exists (Some nz), (length zs).
        cbn [fraction_text fraction_digits is_fraction].
        rewrite S1, all_chars_app in Hall. apply andb_true_iff in Hall as [Hd _].
        repeat split.
        -- unfold is_digits. rewrite Hnz, Hd. reflexivity.
        -- rewrite <- (all_zero_repeat zs Hzs). exact S1.
      * exists (Some b), 0%nat.
        cbn [fraction_text fraction_digits is_fraction repeat_char].
        rewrite (replace_decimals_no_point b (digits_no_point b Hall)).
        rewrite app_empty_r. repeat split. exact Hfp0.
  - exists None, 0%nat. cbn [fraction_text fraction_digits repeat_char append].
    rewrite app_empty_r. repeat split.
    apply replace_decimals_no_point. exact Hp.
Qed.

Lemma format_text (neg : bool) (m : N) (e : Z) (options : option Options)
      (k f : Z) :
  is_double (Fin neg m e) = true ->
  let unit := resolve_unit options (Fin false m e) in
  let sep := string_option options opt_thousandsSeparator in
  let K := half_up_scaled (Z.of_N m) (e - k) f in
  0 <= k -> entry_number (map (toLowerCase unit)) = of_Z (2 ^ k) ->
  (m <> 0%N -> -1074 <= e - k) ->
  ge_1e21 (Z.of_N m) (e - k) = false ->
  ToIntegerOrInfinity (decimalPlaces_of options) = Some f -> 0 <= f <= 100 ->
  is_plain sep = true -> sep = "" \/ f <= 3 ->
  exists a fp,
    format (JNum (Fin neg m e)) options
    = Return (JStr (minus_text neg m ++ group3 sep a ++ fraction_text fp
                      ++ string_option options opt_unitSeparator ++ unit))
    /\ is_digits a = true /\ is_fraction fp = true
    /\ Z.of_nat (length (fraction_digits fp)) <= f
    /\ digits_val 0 (a ++ fraction_digits fp) * 10 ^ f
       = K * 10 ^ Z.of_nat (length (fraction_digits fp))
    /\ (fixedDecimals_of options = true
        -> Z.of_nat (length (fraction_digits fp)) = f).
Proof.
  intros Hx unit sep K Hk Hentry Hlow Hsmall Hd Hf Hplain Hsep.
  set (e' := if (m =? 0)%N then 0 else e - k).
  assert (Hsmall' : ge_1e21 (Z.of_N m) e' = false).
  { unfold e'. destruct (m =? 0)%N eqn:Hm; [ | exact Hsmall ].
    apply N.eqb_eq in Hm. subst m. reflexivity. }
  assert (HK : half_up_scaled (Z.of_N m) e' f = K).
  { unfold e', K. destruct (m =? 0)%N eqn:Hm; [ | reflexivity ].
    apply N.eqb_eq in Hm. subst m. cbn [Z.of_N]. rewrite !half_up_zero. reflexivity. }
  destruct (toFixed_text neg m e' _ f Hd Hf Hsmall')
    as (a & fp0 & Hfix & Ha & Hfp0 & Hl0 & Hv0).
  rewrite HK in Hv0.
  destruct (is_digits_inv a Ha) as (Hall & _).
  assert (Hp : all_chars (fun c => negb (is_point c)) (minus_text neg m ++ a) = true)
    by (rewrite all_chars_app, minus_no_point, (digits_no_point a Hall); reflexivity).
  (* the numeral after the decimals are stripped, or kept *)
  assert (Hstr : exists fp j,
             (if fixedDecimals_of options
              then minus_text neg m ++ a ++ fraction_text fp0
              else replace_decimals (minus_text neg m ++ a ++ fraction_text fp0))
             = minus_text neg m ++ a ++ fraction_text fp
             /\ is_fraction fp = true
             /\ fraction_digits fp0 = fraction_digits fp ++ repeat_char "0" j
             /\ (fixedDecimals_of options = true -> j = 0%nat)).
  { destruct (fixedDecimals_of options).
    - exists fp0, 0%nat. cbn [repeat_char]. rewrite app_empty_r.
      repeat split. exact Hfp0.
    - destruct (replace_decimals_fraction _ fp0 Hp Hfp0) as (fp & j & H1 & H2 & H3).
      exists fp, j. rewrite <- !app_assoc_s, H1.
      repeat split; try assumption. discriminate. }
  destruct Hstr as (fp & j & Hstr & Hfp & Hj & Hfix0).
  assert (Hlen : Z.of_nat (length (fraction_digits fp)) + Z.of_nat j = f).
  { rewrite <- Hl0, Hj, length_app, length_zeros. lia. }
  exists a, fp.
  split; [ | split; [ exact Ha | split; [ exact Hfp | split; [ lia | split ] ] ] ].
  - rewrite format_unfold. cbv zeta. fold unit. fold sep.
    rewrite Hentry, (div_pow2_exact neg m e k Hx Hk Hlow). fold e'.
    rewrite Hfix, Hstr.
    assert (Hth : (if is_empty sep
                   then minus_text neg m ++ a ++ fraction_text fp
                   else replace_thousands
                          (minus_text neg m ++ a ++ fraction_text fp) sep)
                  = minus_text neg m ++ group3 sep a ++ fraction_text fp).
    { destruct Hsep as [Hs | Hs].
      - rewrite Hs. cbn [is_empty]. rewrite group3_empty. reflexivity.
      - destruct (is_empty sep) eqn:Hes;
          [ destruct sep; [ | discriminate ]; rewrite group3_empty; reflexivity | ].
        assert (Hl3 : (length (fraction_digits fp) <= 3)%nat) by lia.
        unfold minus_text. destruct (neg && negb (m =? 0)%N).
        + rewrite (replace_thousands_minus _ sep Hplain).
          rewrite (replace_thousands_numeral a fp sep Ha Hfp Hl3 Hplain). reflexivity.
        + apply (replace_thousands_numeral a fp sep Ha Hfp Hl3 Hplain). }
    rewrite Hth. rewrite !app_assoc_s. reflexivity.
  - rewrite <- Hv0, Hj, <- app_assoc_s.
    rewrite (digits_val_app (a ++ fraction_digits fp) (repeat_char "0" j)).
    rewrite digits_val_zeros.
    rewrite <- Hlen, Z.pow_add_r by lia. ring.
  - intros Hfd. specialize (Hfix0 Hfd). lia.
Qed.

(** X13: a value whose quotient by the multiplier 2^k of its unit is exact
    and below 10^21 is written as the sign, the integer part, a fraction of
    at most [decimalPlaces] digits, the unit separator and the unit.  The
    digits stand for the integer K nearest to the quotient times
    10^decimalPlaces (the larger of two) divided by 10^decimalPlaces:
    stripping the decimals does not change the value shown.  The integer
    part is grouped by a thousands separator without a dollar sign when
    [decimalPlaces] is at most 3. *)
Theorem X13_numeral_shown (neg : bool) (m : N) (e : Z) (options : option Options)
        (k f : Z) :
  is_double (Fin neg m e) = true ->
  let unit := resolve_unit options (Fin false m e) in
  let sep := string_option options opt_thousandsSeparator in
  let K := half_up_scaled (Z.of_N m) (e - k) f in
  0 <= k -> entry_number (map (toLowerCase unit)) = of_Z (2 ^ k) ->
  (m <> 0%N -> -1074 <= e - k) ->
  ge_1e21 (Z.of_N m) (e - k) = false ->
  ToIntegerOrInfinity (decimalPlaces_of options) = Some f -> 0 <= f <= 100 ->
  is_plain sep = true -> sep = "" \/ f <= 3 ->
  exists a fp,
    format (JNum (Fin neg m e)) options
    = Return (JStr (minus_text neg m ++ group3 sep a ++ fraction_text fp
                      ++ string_option options opt_unitSeparator ++ unit))
    /\ is_digits a = true /\ is_fraction fp = true
    /\ Z.of_nat (length (fraction_digits fp)) <= f
    /\ digits_val 0 (a ++ fraction_digits fp) * 10 ^ f
       = K * 10 ^ Z.of_nat (length (fraction_digits fp))
    /\ nearest_integer K (Z.of_N m * 10 ^ f) (e - k).
Proof.
  intros Hx unit sep K Hk Hentry Hlow Hsmall Hd Hf Hplain Hsep.
  destruct (format_text neg m e options k f Hx Hk Hentry Hlow Hsmall Hd Hf Hplain Hsep)
    as (a & fp & H1 & H2 & H3 & H4 & H5 & _).
  exists a, fp. repeat split; try assumption.
  apply half_up_scaled_nearest; lia.
Qed.

Lemma X13_witness :
  exists a fp,
    format (JNum (of_Z (- 1234567)))
           (Some (mkOptions (Some (of_Z 3)) None (Some ",") (Some " ") (Some "kB")))
    = Return (JStr ("-" ++ group3 "," a ++ fraction_text fp ++ " " ++ "kB"))
    /\ is_digits a = true /\ is_fraction fp = true
    /\ Z.of_nat (length (fraction_digits fp)) <= 3
    /\ digits_val 0 (a ++ fraction_digits fp) * 10 ^ 3
       = half_up_scaled 1234567 (0 - 10) 3
         * 10 ^ Z.of_nat (length (fraction_digits fp))
    /\ nearest_integer (half_up_scaled 1234567 (0 - 10) 3) (1234567 * 10 ^ 3) (0 - 10).
Proof.
  apply (X13_numeral_shown true 1234567 0
           (Some (mkOptions (Some (of_Z 3)) None (Some ",") (Some " ") (Some "kB")))
           10 3);
    try reflexivity; lia.
Defined.

(** ** The keys of the table *)

Ltac split_char c := destruct c as [[ | ] [ | ] [ | ] [ | ] [ | ] [ | ] [ | ] [ | ]].

Ltac map_step :=
  match goal with
  | |- context [match ?l with EmptyString => _ | String _ _ => _ end] =>
      is_var l;
      let c := fresh "c" in
      destruct l as [ | c l]; [ | split_char c ]; cbn; try (intros; discriminate)
  end.

(** The table holds a number under its six keys only. *)
Lemma map_own (key : string) (x : number) :
  map key = Some (Own x) ->
  key = "b" \/ key = "kb" \/ key = "mb" \/ key = "gb" \/ key = "tb" \/ key = "pb".
Proof.
  unfold map. repeat map_step; intros _; tauto.
Qed.

Lemma pow2_inj (j k : Z) : 0 <= j -> 0 <= k -> of_Z (2 ^ j) = of_Z (2 ^ k) -> j = k.
Proof.
  intros Hj Hk H. rewrite !of_Z_pow2 in H by assumption. congruence.
Qed.

(** A unit whose multiplier is [2^k]: B with [k = 0], or a unit token. *)
Lemma unit_entry_cases (u : string) (k : Z) :
  0 <= k -> entry_number (map (toLowerCase u)) = of_Z (2 ^ k) ->
  (toLowerCase u = "b" /\ k = 0)
  \/ (is_unit_token u = true /\ unit_exponent u = k /\ 10 <= k <= 50).
Proof.
  intros Hk H.
  destruct (map (toLowerCase u)) as [[x | ] | ] eqn:Hmap; cbn [entry_number] in H;
    try (rewrite of_Z_pow2 in H by assumption; discriminate).
  subst x.
  destruct (map_own _ _ Hmap) as [Hl | [Hl | [Hl | [Hl | [Hl | Hl]]]]];
    rewrite Hl in Hmap; injection Hmap as Hmap.
  - left. split; [ exact Hl | ]. symmetry.
    apply (pow2_inj 0 k (Z.le_refl 0) Hk). exact Hmap.
  - right. apply (pow2_inj 10 k ltac:(lia) Hk) in Hmap. subst k.
    unfold is_unit_token, unit_exponent. rewrite Hl. repeat split; try reflexivity; lia.
  - right. apply (pow2_inj 20 k ltac:(lia) Hk) in Hmap. subst k.
    unfold is_unit_token, unit_exponent. rewrite Hl. repeat split; try reflexivity; lia.
  - right. apply (pow2_inj 30 k ltac:(lia) Hk) in Hmap. subst k.
    unfold is_unit_token, unit_exponent. rewrite Hl. repeat split; try reflexivity; lia.
  - right. apply (pow2_inj 40 k ltac:(lia) Hk) in Hmap. subst k.
    unfold is_unit_token, unit_exponent. rewrite Hl. repeat split; try reflexivity; lia.
  - right. apply (pow2_inj 50 k ltac:(lia) Hk) in Hmap. subst k.
    unfold is_unit_token, unit_exponent. rewrite Hl. repeat split; try reflexivity; lia.
Qed.

(** ** The round trip under options *)

Lemma exact_scaled (m e k f : Z) :
  0 <= m -> 0 <= e -> 0 <= k -> 0 <= f ->
  (10 ^ f * (m * 2 ^ e)) mod 2 ^ k = 0 ->
  half_up_scaled m (e - k) f * 2 ^ Z.max 0 (k - e)
  = 10 ^ f * m * 2 ^ Z.max 0 (e - k).
Proof.
  intros Hm He Hk Hf Hmod. unfold half_up_scaled.
  assert (H10 : 0 < 10 ^ f) by pow_pos.
  destruct (0 <=? e - k) eqn:Hs.
  - apply Z.leb_le in Hs.
    replace (Z.max 0 (k - e)) with 0 by lia.
    replace (Z.max 0 (e - k)) with (e - k) by lia.
    rewrite Z.pow_0_r. ring.
  - apply Z.leb_gt in Hs.
    replace (Z.max 0 (k - e)) with (k - e) by lia.
    replace (Z.max 0 (e - k)) with 0 by lia.
    rewrite Z.pow_0_r, Z.mul_1_r.
    replace (- (e - k)) with (k - e) by lia.
    replace (1 - (e - k)) with (Z.succ (k - e)) by lia.
    rewrite Z.pow_succ_r by lia.
    assert (H2j : 0 < 2 ^ (k - e)) by pow_pos.
    assert (H2e : 0 < 2 ^ e) by pow_pos.
    apply Z.mod_divide in Hmod; [ | lia ].
    destruct Hmod as [c Hc].
    replace k with ((k - e) + e) in Hc at 1 by lia.
    rewrite Z.pow_add_r in Hc by lia.
    assert (Hc' : 10 ^ f * m = c * 2 ^ (k - e)) by nia.
    assert (Hdiv : (2 * m * 10 ^ f + 2 ^ (k - e)) / (2 * 2 ^ (k - e)) = c).
    { symmetry. apply (Z.div_unique_pos _ _ _ (2 ^ (k - e))); lia. }
    rewrite Hdiv. lia.
Qed.

Lemma digits_val_bound (s : string) :
  all_chars is_digit s = true -> 0 <= digits_val 0 s < 10 ^ Z.of_nat (length s).
Proof.
  induction s as [ | c r IH]; intros H.
  - cbn. lia.
  - cbn [all_chars] in H. apply andb_true_iff in H as [Hc Hr].
    specialize (IH Hr). pose proof (digit_val_range c Hc) as Rc.
    cbn [digits_val length]. rewrite digits_val_acc.
    rewrite Nat2Z.inj_succ, Z.pow_succ_r by lia.
    pose proof (pow10_pos (length r)). nia.
Qed.

Lemma parseInt10_text (neg : bool) (a rest : string) :
  is_digits a = true -> head_fails is_digit rest = true ->
  parseInt10 (sign_text (if neg then Some true else None) ++ a ++ rest)
  = round_Q neg (digits_val 0 a) 1.
Proof.
  intros Ha Hrest.
  destruct (is_digits_inv a Ha) as (Hall & c & r & Ea & Hc).
  destruct (digit_facts c Hc) as (_ & _ & Hm & Hp & Hsp).
  unfold parseInt10.
  assert (Hs : take_sign (snd (span is_space
                 (sign_text (if neg then Some true else None) ++ a ++ rest)))
               = (neg, a ++ rest)).
  { destruct neg; [ reflexivity | ].
    subst a. cbn [sign_text append span]. rewrite Hsp.
    cbn [snd take_sign]. rewrite Hm, Hp. reflexivity. }
  rewrite Hs, (span_app is_digit a rest Hall Hrest).
  subst a. reflexivity.
Qed.

(** The text of a number of bytes, read back: a sign, digits, a fraction,
    spaces and the unit B in either case. *)
Lemma parse_text_bytes (neg : bool) (a : string) (fp : option string) (sp u : string) :
  is_digits a = true -> is_fraction fp = true ->
  all_chars (fun c => code c =? 32) sp = true -> toLowerCase u = "b" ->
  parse (JStr (sign_text (if neg then Some true else None)
                 ++ a ++ fraction_text fp ++ sp ++ u))
  = Return (JNum (round_Q neg (digits_val 0 a) 1)).
Proof.
  intros Ha Hfp Hsp Hu.
  assert (Hhead : head_is_letter u = true).
  { destruct u as [ | c [ | c' r]]; try discriminate.
    cbn [toLowerCase] in Hu. injection Hu as Hc.
    cbn [head_is_letter]. apply lower_char_letter. rewrite Hc. reflexivity. }
  assert (Htok : is_unit_token u = false)
    by (unfold is_unit_token; rewrite Hu; reflexivity).
  rewrite parse_fallback.
  - rewrite parseInt10_text; [ reflexivity | exact Ha | ].
    apply head_after_digits; assumption.
  - rewrite (parseRegExp_numeral _ a fp sp u Ha Hfp Hsp Hhead), Htok. reflexivity.
Qed.

(** X14: an integer of bytes written with options and read back is the
    same integer, when the unit used has the multiplier 2^k, the integer
    times 10^decimalPlaces is a multiple of 2^k, the quotient is below
    10^21, there is no thousands separator and the unit separator is made
    of spaces.  The unit may be the one asked for, in any case, or the one
    chosen from the magnitude; [fixedDecimals] may be set or not. *)
Theorem X14_round_trip_with_options (n : Z) (options : option Options) (k f : Z) :
  is_double (of_Z n) = true ->
  0 <= k ->
  entry_number (map (toLowerCase (resolve_unit options (Math_abs (of_Z n)))))
  = of_Z (2 ^ k) ->
  ToIntegerOrInfinity (decimalPlaces_of options) = Some f -> 0 <= f <= 100 ->
  (10 ^ f * n) mod 2 ^ k = 0 ->
  Z.abs n < 10 ^ 21 * 2 ^ k ->
  string_option options opt_thousandsSeparator = "" ->
  all_chars (fun c => code c =? 32) (string_option options opt_unitSeparator) = true ->
  exists s, format (JNum (of_Z n)) options = Return (JStr s)
            /\ parse (JStr s) = Return (JNum (of_Z n)).
Proof.
  intros Hx Hk Hentry Hd Hf Hmod Hlt Hsep Husep.
  destruct (of_Z_cases n) as (m & e & Hof & Habs & He).
  rewrite Hof in Hx, Hentry |- *. cbn [Math_abs] in Hentry.
  assert (H2k : 0 < 2 ^ k) by pow_pos.
  assert (H10 : 0 < 10 ^ f) by pow_pos.
  assert (Hmod' : (10 ^ f * (Z.of_N m * 2 ^ e)) mod 2 ^ k = 0).
  { rewrite <- Habs. replace (10 ^ f * Z.abs n) with (Z.abs (10 ^ f * n)) by nia.
    apply mod_abs; assumption. }
  rewrite Habs in Hlt.
  pose proof (small_quotient (Z.of_N m) e k ltac:(lia) He Hk Hlt) as Hsmall.
  pose proof (exact_scaled (Z.of_N m) e k f ltac:(lia) He Hk ltac:(lia) Hmod') as HK.
  destruct (unit_entry_cases _ k Hk Hentry) as [[Hb Hk0] | (Htok & Hue & Hk50)].
  - (* the unit is B *)
    subst k.
    destruct (format_text (n <? 0) m e options 0 f Hx ltac:(lia) Hentry
                ltac:(intros; lia) Hsmall Hd Hf ltac:(rewrite Hsep; reflexivity)
                (or_introl Hsep))
      as (a & fp & Hfmt & Ha & Hfp & Hlen & Hval & _).
    cbv zeta in Hval. rewrite Hsep, group3_empty in Hfmt.
    eexists. split; [ exact Hfmt | ].
    rewrite sign_text_minus.
    rewrite (parse_text_bytes _ a fp _ _ Ha Hfp Husep Hb).
    replace (Z.max 0 (0 - e)) with 0 in HK by lia.
    replace (Z.max 0 (e - 0)) with e in HK by lia.
    rewrite Z.pow_0_r, Z.mul_1_r in HK.
    set (K := half_up_scaled (Z.of_N m) (e - 0) f) in *.
    pose proof (pow10_pos (length (fraction_digits fp))) as HQ.
    assert (Hfd : all_chars is_digit (fraction_digits fp) = true).
    { destruct fp as [b | ]; [ | reflexivity ].
      cbn [fraction_digits is_fraction] in *. apply is_digits_inv in Hfp. tauto. }
    pose proof (digits_val_bound _ Hfd) as Hfb.
    rewrite digits_val_app, digits_val_acc in Hval.
    set (P := digits_val 0 a) in *. set (F := digits_val 0 (fraction_digits fp)) in *.
    set (Q := 10 ^ Z.of_nat (length (fraction_digits fp))) in *.
    set (T := 10 ^ f) in *.
    assert (Hv : P = Z.of_N m * 2 ^ e).
    { assert (E1 : (P * Q + F) * T = T * (Z.of_N m * 2 ^ e) * Q)
        by (rewrite Hval, HK; ring).
      remember (Z.of_N m * 2 ^ e) as V eqn:HV.
      clear - E1 HQ H10 Hfb. fold Q in Hfb.
      assert (E2 : P * Q + F = V * Q) by nia.
      clearbody P F Q T. nia. }
    rewrite Hv. f_equal. f_equal.
    pose proof Hx as Hdb. apply is_double_Fin in Hdb.
    destruct Hdb as [[-> ->] | (Hodd & Hm & Hemin & Hmax)].
    + assert (n = 0) by (cbn in Habs; lia). subst n. reflexivity.
    + replace ((n <? 0) && negb (m =? 0)%N) with (n <? 0)
        by (destruct m; [ lia | rewrite andb_true_r; reflexivity ]).
      rewrite <- (N2Z.id m) at 2.
      apply round_Q_exact; try assumption; try lia.
      replace (Z.max 0 (- e)) with 0 by lia. replace (Z.max 0 e) with e by lia.
      rewrite Z.pow_0_r. ring.
  - (* the unit is KB, MB, GB, TB or PB *)
    destruct (format_text (n <? 0) m e options k f Hx Hk Hentry
                ltac:(intros; lia) Hsmall Hd Hf ltac:(rewrite Hsep; reflexivity)
                (or_introl Hsep))
      as (a & fp & Hfmt & Ha & Hfp & Hlen & Hval & _).
    cbv zeta in Hval. rewrite Hsep, group3_empty in Hfmt.
    eexists. split; [ exact Hfmt | ].
    rewrite sign_text_minus.
    rewrite (parse_grammar _ a fp _ _ Ha Hfp Husep Htok).
    rewrite Hue.
    pose proof (pow10_pos (length (fraction_digits fp))) as HQ.
    pose proof Hx as Hdb. apply is_double_Fin in Hdb.
    destruct Hdb as [[-> ->] | (Hodd & Hm & Hemin & Hmax)].
    + (* zero *)
      cbn [Z.of_N] in *. rewrite half_up_zero in Hval.
      assert (Hz : digits_val 0 (a ++ fraction_digits fp) = 0) by nia.
      rewrite Hz. cbn [N.eqb negb andb is_negative].
      replace (is_negative (if (n <? 0) && false then Some true else None)) with false
        by (destruct (n <? 0); reflexivity).
      change (round_Q false 0 (10 ^ Z.of_nat (length (fraction_digits fp))))
        with (Fin false 0 0).
      rewrite floor_mul_pow2;
        [ | exact Hk | reflexivity
          | change (Z.of_N 0) with 0; rewrite Z.mul_0_l; pow_pos ].
      assert (n = 0) by (cbn in Habs; lia). subst n.
      unfold floor_scaled, number_of_floor, signed.
      destruct (0 <=? 0 + k); reflexivity.
    + replace ((n <? 0) && negb (m =? 0)%N) with (n <? 0)
        by (destruct m; [ lia | rewrite andb_true_r; reflexivity ]).
      replace (is_negative (if n <? 0 then Some true else None)) with (n <? 0)
        by (destruct (n <? 0); reflexivity).
      assert (Hmax' : Z.of_N m * 2 ^ Z.max 0 (e - k) < 2 ^ 1024).
      { eapply Z.le_lt_trans; [ | exact Hmax ].
        apply Z.mul_le_mono_nonneg_l; [ lia | ]. apply Z.pow_le_mono_r; lia. }
      rewrite (round_Q_exact (n <? 0) _ _ (Z.of_N m) (e - k));
        [ | lia | lia | assumption | lia | lia | assumption | ].
      2:{ replace (Z.max 0 (- (e - k))) with (Z.max 0 (k - e)) by lia.
          assert (0 < 2 ^ Z.max 0 (k - e)) by pow_pos.
          assert (0 < 2 ^ Z.max 0 (e - k)) by pow_pos.
          set (K := half_up_scaled (Z.of_N m) (e - k) f) in *.
          set (P := digits_val 0 (a ++ fraction_digits fp)) in *.
          set (Q := 10 ^ Z.of_nat (length (fraction_digits fp))) in *.
          set (A := 2 ^ Z.max 0 (k - e)) in *. set (B := 2 ^ Z.max 0 (e - k)) in *.
          set (T := 10 ^ f) in *.
          assert (E1 : T * (P * A) = T * (Q * Z.of_N m * B)).
          { transitivity (K * A * Q); [ | rewrite HK; ring ].
            transitivity (P * T * A); [ ring | rewrite Hval; ring ]. }
          clearbody P Q A B T K. nia. }
      rewrite N2Z.id.
      rewrite floor_mul_pow2; [ | lia | | ].
      * replace (e - k + k) with e by lia.
        unfold floor_scaled, number_of_floor.
        replace (0 <=? e) with true by (symmetry; apply Z.leb_le; lia).
        assert (Hn : signed (n <? 0) m * 2 ^ e = n).
        { unfold signed. destruct (n <? 0) eqn:Hs.
          - apply Z.ltb_lt in Hs. lia.
          - apply Z.ltb_ge in Hs. lia. }
        rewrite Hn.
        assert (0 < 2 ^ e) by pow_pos.
        replace (n =? 0) with false by (symmetry; apply Z.eqb_neq; nia).
        rewrite <- Hof. reflexivity.
      * apply is_double_Fin. right. repeat split; try assumption; lia.
      * replace (e - k + k) with e by lia. exact Hmax.
Qed.


Lemma X14_witness :
  exists s, format (JNum (of_Z (- 1600)))
                   (Some (mkOptions (Some (of_Z 4)) (Some true) None (Some "  ")
                                    (Some "Kb")))
            = Return (JStr s)
            /\ parse (JStr s) = Return (JNum (of_Z (- 1600))).
Proof.
  apply (X14_round_trip_with_options (- 1600)
           (Some (mkOptions (Some (of_Z 4)) (Some true) None (Some "  ") (Some "Kb")))
           10 4);
    try reflexivity; lia.
Defined.

(** ** Values that round to zero *)

(** X15: with the default options a double below 1/200 in magnitude is
    written as a zero of bytes; the minus sign of a negative value is
    kept, that of the negative zero is not. *)
Theorem X15_rounds_to_zero (neg : bool) (m : N) (e : Z) :
  is_double (Fin neg m e) = true ->
  200 * Z.of_N m * 2 ^ Z.max 0 e < 2 ^ Z.max 0 (- e) ->
  format (JNum (Fin neg m e)) None
  = Return (JStr (if neg && negb (m =? 0)%N then "-0B" else "0B")).
Proof.
  intros Hx Hsmall.
  assert (Hfloor : floor_scaled (Z.of_N m) e = 0).
  { unfold floor_scaled. destruct (0 <=? e) eqn:He.
    - apply Z.leb_le in He.
      replace (Z.max 0 e) with e in Hsmall by lia.
      replace (Z.max 0 (- e)) with 0 in Hsmall by lia.
      assert (0 < 2 ^ e) by pow_pos. change (2 ^ 0) with 1 in Hsmall. nia.
    - apply Z.leb_gt in He.
      replace (Z.max 0 e) with 0 in Hsmall by lia.
      replace (Z.max 0 (- e)) with (- e) in Hsmall by lia.
      apply Z.div_small. lia. }
  assert (Hunit : auto_unit (Fin false m e) = "B")
    by (rewrite auto_unit_floor, Hfloor; reflexivity).
  assert (HK : half_up_scaled (Z.of_N m) (if (m =? 0)%N then 0 else e - 0) 2 = 0).
  { destruct (m =? 0)%N eqn:Hm.
    - apply N.eqb_eq in Hm. subst m. apply half_up_zero.
    - apply N.eqb_neq in Hm. unfold half_up_scaled.
      destruct (0 <=? e - 0) eqn:He.
      + apply Z.leb_le in He.
        replace (Z.max 0 e) with e in Hsmall by lia.
        replace (Z.max 0 (- e)) with 0 in Hsmall by lia.
        assert (0 < 2 ^ e) by pow_pos. change (2 ^ 0) with 1 in Hsmall. nia.
      + apply Z.leb_gt in He.
        replace (Z.max 0 e) with 0 in Hsmall by lia.
        replace (Z.max 0 (- e)) with (- e) in Hsmall by lia.
        replace (- (e - 0)) with (- e) by lia.
        replace (1 - (e - 0)) with (Z.succ (- e)) by lia.
        rewrite Z.pow_succ_r by lia.
        assert (0 < 2 ^ (- e)) by pow_pos.
        apply Z.div_small. change (10 ^ 2) with 100. lia. }
  assert (Hge : ge_1e21 (Z.of_N m) (if (m =? 0)%N then 0 else e - 0) = false).
  { destruct (m =? 0)%N eqn:Hm.
    - apply N.eqb_eq in Hm. subst m. reflexivity.
    - unfold ge_1e21. destruct (0 <=? e - 0) eqn:He.
      + apply Z.leb_le in He.
        replace (Z.max 0 e) with e in Hsmall by lia.
        replace (Z.max 0 (- e)) with 0 in Hsmall by lia.
        assert (0 < 2 ^ e) by pow_pos. change (2 ^ 0) with 1 in Hsmall.
        apply Z.leb_gt. replace (e - 0) with e by lia. nia.
      + apply Z.leb_gt in He.
        replace (Z.max 0 e) with 0 in Hsmall by lia.
        replace (Z.max 0 (- e)) with (- e) in Hsmall by lia.
        replace (- (e - 0)) with (- e) by lia.
        assert (0 < 2 ^ (- e)) by pow_pos.
        apply Z.leb_gt. lia. }
  rewrite format_unfold. cbv zeta.
  change (resolve_unit None (Fin false m e)) with (auto_unit (Fin false m e)).
  rewrite Hunit.
  change (entry_number (map (toLowerCase "B"))) with (of_Z (2 ^ 0)).
  rewrite (div_pow2_exact neg m e 0 Hx ltac:(lia)).
  - unfold toFixed. change (ToIntegerOrInfinity (decimalPlaces_of None)) with (Some 2).
    change ((2 <? 0) || (100 <? 2)) with false. cbv iota.
    rewrite Hge, HK.
    destruct (neg && negb (m =? 0)%N); reflexivity.
  - intros Hm. apply is_double_Fin in Hx.
    destruct Hx as [[-> _] | (_ & _ & He & _)]; [ contradiction | lia ].
Qed.

Lemma X15_witness :
  format (JNum (round_Q true 1 256)) None = Return (JStr "-0B")
  /\ format (JNum (Fin true 0 0)) None = Return (JStr "0B").
Proof.
  split.
  - apply (X15_rounds_to_zero true 1 (-8)); [ reflexivity | vm_compute; reflexivity ].
  - apply (X15_rounds_to_zero true 0 0); [ reflexivity | vm_compute; reflexivity ].
Defined.
